(** * Weekly nurse scheduling: the constraint model of [solve_schedule_ortools]

    A shallow embedding of [or_tools_scheduler.py].  The tabular inputs are
    lists of rows, Python dictionaries are insertion-ordered association
    lists, the CP-SAT model under construction is a record of declared
    variables and linear constraints that every stage of the function extends,
    and the backend solver is a parameter that answers a model with a status
    and a valuation of its variables. *)

From stdpp Require Import base option list sets gmap strings pretty.
From Stdlib Require Import ZArith Lia Ascii.

Set Warnings "-clear-no-such-hyp".

Open Scope string_scope.
Open Scope list_scope.
Open Scope Z_scope.

(** ** Exceptions and fallible computations *)

(** The exceptions the function can raise: a missing column ([r["f"]]), the
    conversion [int(nan)], the explicit [raise RuntimeError(...)] of the
    lock stage, and the read of a variable's value from a backend that holds
    no solution. *)
Inductive exn :=
  | KeyError (key : string)
  | ValueError
  | RuntimeError (msg : string)
  | IndexError.

Inductive result (A : Type) :=
  | Ok (a : A)
  | Err (e : exn).
Arguments Ok {A} a.
Arguments Err {A} e.

#[global] Instance result_bind : MBind result := λ A B k r,
  match r with
  | Ok a => k a
  | Err e => Err e
  end.

(** A [for] loop that threads the mutable state through its body. *)
Definition for_ {A S} (l : list A) (body : A → S → S) (s : S) : S :=
  foldl (λ s a, body a s) s l.

(** A [for] loop whose body may raise: the first exception ends the loop. *)
Fixpoint for_M {A S} (l : list A) (body : A → S → result S) (s : S) : result S :=
  match l with
  | [] => Ok s
  | a :: l => s' ← body a s; for_M l body s'
  end.

(** ** Python dictionaries

    A [dict] keeps its keys in insertion order; assigning to an existing key
    replaces the value in place, assigning to a new key appends it. *)
Section pydict.
Context {K V : Type} `{EqDecision K}.

Definition dict := list (K * V).

Fixpoint dict_get (k : K) (d : dict) : option V :=
  match d with
  | [] => None
  | (k', v) :: d => if decide (k = k') then Some v else dict_get k d
  end.

Fixpoint dict_set (k : K) (v : V) (d : dict) : dict :=
  match d with
  | [] => [(k, v)]
  | (k', v') :: d =>
      if decide (k = k') then (k, v) :: d else (k', v') :: dict_set k v d
  end.

Definition dict_keys (d : dict) : list K := d.*1.

Definition dict_in (k : K) (d : dict) : bool := bool_decide (is_Some (dict_get k d)).

(** [d.setdefault(k, v)] *)
Definition dict_setdefault (k : K) (v : V) (d : dict) : dict :=
  match dict_get k d with
  | Some _ => d
  | None => dict_set k v d
  end.

(** [d.get(k, v)] *)
Definition dict_get_or (k : K) (v : V) (d : dict) : V :=
  default v (dict_get k d).

(** [{key(r): val(r) for r in rows}] *)
Definition dict_of {R} (key : R → K) (val : R → V) (rows : list R) : dict :=
  for_ rows (λ r, dict_set (key r) (val r)) [].
End pydict.
Arguments dict : clear implicits.

(** [d[k]] where the key is present: every such subscript of the function
    ranges over the keys the dictionary was built from, see
    [subscripts_defined]. *)
Definition dict_at {K V} `{EqDecision K, Inhabited V} (k : K) (d : dict K V) : V :=
  default inhabitant (dict_get k d).

(** ** Text helpers *)

(** The ASCII characters [str.strip()] removes. *)
Definition is_py_space (c : Ascii.ascii) : bool :=
  let n := Ascii.nat_of_ascii c in
  ((9 <=? n)%nat && (n <=? 13)%nat) || ((28 <=? n)%nat && (n <=? 32)%nat).

Fixpoint lstrip (s : string) : string :=
  match s with
  | String c s' => if is_py_space c then lstrip s' else s
  | EmptyString => EmptyString
  end.

Fixpoint rstrip (s : string) : string :=
  match s with
  | EmptyString => EmptyString
  | String c s' =>
      let r := rstrip s' in
      if is_py_space c && bool_decide (r = EmptyString) then EmptyString else String c r
  end.

Definition strip (s : string) : string := rstrip (lstrip s).

(** [s.split(sep)] for a one-character separator. *)
Fixpoint split (sep : Ascii.ascii) (s : string) : list string :=
  match s with
  | EmptyString => [EmptyString]
  | String c s' =>
      if Ascii.eqb c sep then EmptyString :: split sep s'
      else match split sep s' with
           | w :: ws => String c w :: ws
           | [] => [String c EmptyString]
           end
  end.

(** [sep.join(l)] *)
Fixpoint join (sep : string) (l : list string) : string :=
  match l with
  | [] => ""
  | [a] => a
  | a :: l => a +:+ sep +:+ join sep l
  end.

(** [parse_semicolon_set]; [None] is a cell for which [pd.isna] holds. *)
Definition parse_semicolon_set (s : option string) : gset string :=
  match s with
  | None => ∅
  | Some s =>
      if bool_decide (strip s = "") then ∅
      else list_to_set (filter (λ w, w ≠ "") (strip <$> split ";"%char s))
  end.

(** ** Input tables *)

(** A numeric cell of a row: the column may be absent from the table, the
    cell may be empty (NaN), or it holds an integer. *)
Inductive cell :=
  | Absent
  | NaN
  | Val (z : Z).

(** [int(r[field])] *)
Definition int_item (field : string) (c : cell) : result Z :=
  match c with
  | Absent => Err (KeyError field)
  | NaN => Err ValueError
  | Val z => Ok z
  end.

(** [int(r.get(field, dflt))] *)
Definition int_get (dflt : Z) (c : cell) : result Z :=
  match c with
  | Absent => Ok dflt
  | NaN => Err ValueError
  | Val z => Ok z
  end.

Record nurse_row := {
  nurse_id : string;
  qualifications : option string;
  certification : option string;
  max_shifts_per_day : cell;
  max_shifts_per_week : cell;
}.

Record room_row := {
  room_id : string;
  room_name : string;
  required_qualifications : option string;
  tags : option string;
}.

Record demand_row := {
  demand_day : string;
  demand_room_id : string;
  demand_shift : string;
  required_nurses : cell;
}.

Record pref_row := {
  pref_nurse_id : string;
  pref_day : string;
  pref_shift : string;
  preference : cell;
}.

Record lock_row := {
  lock_day : string;
  lock_shift : string;
  lock_room_id : string;
  lock_nurse_id : string;
  locked : cell;
}.

Record Weights := {
  w_pref : Z;
  w_understaff : Z;
  w_overstaff : Z;
  w_fairness : Z;
  w_weekend : Z;
}.

Definition default_weights : Weights :=
  {| w_pref := 5; w_understaff := 200; w_overstaff := 5; w_fairness := 3; w_weekend := 2 |}.

(** The arguments of [solve_schedule_ortools]. *)
Record inputs := {
  nurses_df : list nurse_row;
  rooms_df : list room_row;
  demand_df : list demand_row;
  pref_df : list pref_row;
  locks_df : list lock_row;
  days : list string;
  shifts : list string;
  allow_overstaff : bool;
  weights : Weights;
  time_limit_seconds : Z;
  target_shifts_per_nurse_week : option Z;
  enforce_rest_night_to_day : bool;
  charge_rooms_tags : gset string;
  require_cnor_in_or : bool;
}.

Abbreviation key3 := (string * string * string)%type.
Abbreviation key4 := (string * string * string * string)%type.

(** [{key(r): int(r[field]) for r in rows}]: the conversion of the first
    offending row raises. *)
Definition int_dict {R K} `{EqDecision K} (key : R → K) (conv : R → result Z)
    (rows : list R) : result (dict K Z) :=
  for_M rows (λ r m, z ← conv r; Ok (dict_set (key r) z m)) [].

Definition pref_lookup (pref_df : list pref_row) : result (dict key3 Z) :=
  int_dict (λ r, (pref_nurse_id r, pref_day r, pref_shift r))
           (λ r, int_item "preference" (preference r)) pref_df.

Definition locks_lookup (locks_df : list lock_row) : result (dict key4 Z) :=
  int_dict (λ r, (lock_day r, lock_shift r, lock_room_id r, lock_nurse_id r))
           (λ r, int_get 0 (locked r)) locks_df.

(** The lookup tables built before the model (lines 61 to 85). *)
Record tables := {
  nurse_ids : list string;
  room_ids : list string;
  max_per_day : dict string Z;
  max_per_week : dict string Z;
  cert_by_nurse : dict string string;
  qual_by_nurse : dict string (gset string);
  req_by_room : dict string (gset string);
  tag_by_room : dict string string;
  demand : dict key3 Z;
  pref : dict key3 Z;
  locks : dict key4 Z;
}.

Definition demand_rows (demand_df : list demand_row) : result (dict key3 Z) :=
  int_dict (λ r, (demand_day r, demand_room_id r, demand_shift r))
           (λ r, int_item "required_nurses" (required_nurses r)) demand_df.

(** The [setdefault] loop that gives every slot of the horizon a demand. *)
Definition demand_defaults (days room_ids shifts : list string)
    (demand : dict key3 Z) : dict key3 Z :=
  for_ days (λ d,
    for_ room_ids (λ rid,
      for_ shifts (λ sh, dict_setdefault (d, rid, sh) 0))) demand.

Definition normalize (inp : inputs) : result tables :=
  let nurse_ids := nurse_id <$> nurses_df inp in
  let room_ids := room_id <$> rooms_df inp in
  max_per_day ← int_dict nurse_id
    (λ r, int_item "max_shifts_per_day" (max_shifts_per_day r)) (nurses_df inp);
  max_per_week ← int_dict nurse_id
    (λ r, int_item "max_shifts_per_week" (max_shifts_per_week r)) (nurses_df inp);
  let cert_by_nurse := dict_of nurse_id (λ r, default "" (certification r)) (nurses_df inp) in
  let qual_by_nurse :=
    dict_of nurse_id (λ r, parse_semicolon_set (qualifications r)) (nurses_df inp) in
  let req_by_room :=
    dict_of room_id (λ r, parse_semicolon_set (required_qualifications r)) (rooms_df inp) in
  let tag_by_room := dict_of room_id (λ r, default "" (tags r)) (rooms_df inp) in
  demand ← demand_rows (demand_df inp);
  let demand := demand_defaults (days inp) room_ids (shifts inp) demand in
  pref ← pref_lookup (pref_df inp);
  locks ← locks_lookup (locks_df inp);
  Ok {| nurse_ids := nurse_ids; room_ids := room_ids;
        max_per_day := max_per_day; max_per_week := max_per_week;
        cert_by_nurse := cert_by_nurse; qual_by_nurse := qual_by_nurse;
        req_by_room := req_by_room; tag_by_room := tag_by_room;
        demand := demand; pref := pref; locks := locks |}.

(** [feasible(n, rid)] *)
Definition feasible (t : tables) (n rid : string) : bool :=
  bool_decide (dict_at rid (req_by_room t) ⊆ dict_at n (qual_by_nurse t)).

(** ** The CP-SAT model

    A variable is its index in the model, as in [cp_model]: [NewIntVar]
    appends a declaration and returns the new index. *)
Record IntVar := {
  lb : Z;
  ub : Z;
  name : string;
}.

Inductive LinearExpr :=
  | Const (z : Z)
  | Var (i : nat)
  | Sum (vs : list nat)
  | Plus (a b : LinearExpr)
  | Minus (a b : LinearExpr).

Inductive Constraint :=
  | Le (a b : LinearExpr)
  | Eq (a b : LinearExpr)
  | Ge (a b : LinearExpr).

Record CpModel := {
  variables : list IntVar;
  constraints : list Constraint;
  objective : list (Z * nat);
}.

Definition new_model : CpModel :=
  {| variables := []; constraints := []; objective := [] |}.

Definition NewIntVar (lo hi : Z) (nm : string) (m : CpModel) : nat * CpModel :=
  (length (variables m),
   {| variables := variables m ++ [{| lb := lo; ub := hi; name := nm |}];
      constraints := constraints m;
      objective := objective m |}).

Definition NewBoolVar (nm : string) (m : CpModel) : nat * CpModel :=
  NewIntVar 0 1 nm m.

Definition Add (c : Constraint) (m : CpModel) : CpModel :=
  {| variables := variables m;
     constraints := constraints m ++ [c];
     objective := objective m |}.

(** [model.Maximize(sum(obj))], the objective kept as its weighted terms. *)
Definition Maximize (obj : list (Z * nat)) (m : CpModel) : CpModel :=
  {| variables := variables m;
     constraints := constraints m;
     objective := obj |}.

(** Truth value of a list, as in [if vars:]. *)
Definition truthy {A} (l : list A) : bool :=
  match l with
  | [] => false
  | _ :: _ => true
  end.

(** [[x[k] for k in x if P k]] *)
Definition x_vars (x : dict key4 nat) (P : key4 → bool) : list nat :=
  (filter (λ kv, P kv.1 = true) x).*2.

(** *** Decision variables (lines 92 to 100) *)
Definition create_x (t : tables) (shifts days : list string) :
    dict key4 nat * CpModel → dict key4 nat * CpModel :=
  for_ (nurse_ids t) (λ n,
    for_ (room_ids t) (λ rid s,
      if feasible t n rid then
        for_ shifts (λ sh,
          for_ days (λ d '(x, model),
            let '(v, model) :=
              NewBoolVar ("x_" +:+ n +:+ "_" +:+ rid +:+ "_" +:+ sh +:+ "_" +:+ d) model in
            (dict_set (n, rid, sh, d) v x, model))) s
      else s)).

(** *** Workload caps (lines 102 to 113) *)
Definition add_max_per_day (t : tables) (days : list string) (x : dict key4 nat) :
    CpModel → CpModel :=
  for_ (nurse_ids t) (λ n,
    for_ days (λ d model,
      let vars_nd := x_vars x (λ k, bool_decide (k.1.1.1 = n ∧ k.2 = d)) in
      if truthy vars_nd
      then Add (Le (Sum vars_nd) (Const (dict_at n (max_per_day t)))) model
      else model)).

Definition add_max_per_week (t : tables) (x : dict key4 nat) : CpModel → CpModel :=
  for_ (nurse_ids t) (λ n model,
    let vars_n := x_vars x (λ k, bool_decide (k.1.1.1 = n)) in
    if truthy vars_n
    then Add (Le (Sum vars_n) (Const (dict_at n (max_per_week t)))) model
    else model).

(** *** Coverage with slack (lines 115 to 130) *)
Record coverage := {
  understaff : dict key3 nat;
  overstaff : dict key3 nat;
  cov_model : CpModel;
}.

Definition add_coverage (t : tables) (days shifts : list string) (allow_overstaff : bool)
    (x : dict key4 nat) : coverage → coverage :=
  for_ days (λ d,
    for_ (room_ids t) (λ rid,
      for_ shifts (λ sh s,
        let assigned := omap (λ n, dict_get (n, rid, sh, d) x) (nurse_ids t) in
        let assigned_sum := if truthy assigned then Sum assigned else Const 0 in
        let '(u, model) :=
          NewIntVar 0 100 ("under_" +:+ rid +:+ "_" +:+ sh +:+ "_" +:+ d) (cov_model s) in
        let understaff := dict_set (d, rid, sh) u (understaff s) in
        if allow_overstaff then
          let '(o, model) :=
            NewIntVar 0 100 ("over_" +:+ rid +:+ "_" +:+ sh +:+ "_" +:+ d) model in
          {| understaff := understaff;
             overstaff := dict_set (d, rid, sh) o (overstaff s);
             cov_model :=
               Add (Eq (Minus (Plus assigned_sum (Var u)) (Var o))
                       (Const (dict_at (d, rid, sh) (demand t)))) model |}
        else
          {| understaff := understaff;
             overstaff := overstaff s;
             cov_model :=
               Add (Eq (Plus assigned_sum (Var u))
                       (Const (dict_at (d, rid, sh) (demand t)))) model |}))).

(** *** Rest rule (lines 132 to 146) *)

(** [enumerate(days)] *)
Definition enumerate {A} (l : list A) : list (nat * A) := imap pair l.

(** [d[k]], raising [KeyError] when the key is absent. *)
Definition getitem {K V} `{EqDecision K} (show : K → string) (k : K) (d : dict K V) :
    result V :=
  match dict_get k d with
  | Some v => Ok v
  | None => Err (KeyError (show k))
  end.

Definition add_rest_rule (t : tables) (days shifts : list string)
    (enforce_rest_night_to_day : bool) (x : dict key4 nat) (model : CpModel) :
    result CpModel :=
  if enforce_rest_night_to_day && bool_decide ("Night" ∈ shifts)
     && bool_decide ("Day" ∈ shifts) then
    let day_index : dict string nat := dict_of snd fst (enumerate days) in
    let inv_day : dict nat string := dict_of snd fst day_index in
    for_M (nurse_ids t) (λ n,
      for_M (seq 0 (length days - 1)) (λ i model,
        d ← getitem pretty i inv_day;
        d_next ← getitem pretty (i + 1)%nat inv_day;
        let night_vars :=
          x_vars x (λ k, bool_decide (k.1.1.1 = n ∧ k.1.2 = "Night" ∧ k.2 = d)) in
        let day_vars_next :=
          x_vars x (λ k, bool_decide (k.1.1.1 = n ∧ k.1.2 = "Day" ∧ k.2 = d_next)) in
        if truthy night_vars && truthy day_vars_next
        then Ok (Add (Le (Plus (Sum night_vars) (Sum day_vars_next)) (Const 1)) model)
        else Ok model)) model
  else Ok model.

(** *** Charge nurse requirement (lines 148 to 166) *)
Definition add_charge (t : tables) (days shifts : list string)
    (charge_rooms_tags : gset string) (x : dict key4 nat) (model : CpModel) : CpModel :=
  let charge_nurses :=
    filter (λ n, "Charge" ∈ dict_at n (qual_by_nurse t)) (nurse_ids t) in
  let charge_room_ids :=
    filter (λ rid, dict_get_or rid "" (tag_by_room t) ∈ charge_rooms_tags) (room_ids t) in
  if truthy charge_room_ids && truthy charge_nurses then
    for_ days (λ d,
      for_ shifts (λ sh model,
        let total_demand :=
          foldr Z.add 0 ((λ rid, dict_at (d, rid, sh) (demand t)) <$> charge_room_ids) in
        if bool_decide (total_demand ≤ 0) then model
        else
          let charge_assigned :=
            for_ charge_room_ids (λ rid,
              for_ charge_nurses (λ n acc,
                match dict_get (n, rid, sh, d) x with
                | Some v => acc ++ [v]
                | None => acc
                end)) [] in
          if truthy charge_assigned
          then Add (Ge (Sum charge_assigned) (Const 1)) model
          else model)) model
  else model.

(** *** Skill mix in operating rooms (lines 168 to 184) *)
Definition add_cnor (t : tables) (days shifts : list string) (require_cnor_in_or : bool)
    (x : dict key4 nat) (model : CpModel) : CpModel :=
  if require_cnor_in_or then
    let or_room_ids :=
      filter (λ rid, dict_get_or rid "" (tag_by_room t) = "OR") (room_ids t) in
    for_ days (λ d,
      for_ or_room_ids (λ rid,
        for_ shifts (λ sh model,
          if bool_decide (dict_at (d, rid, sh) (demand t) ≤ 0) then model
          else
            let cnor_vars :=
              for_ (nurse_ids t) (λ n acc,
                if bool_decide (dict_at n (cert_by_nurse t) = "CNOR") then
                  match dict_get (n, rid, sh, d) x with
                  | Some v => acc ++ [v]
                  | None => acc
                  end
                else acc) [] in
            if truthy cnor_vars
            then Add (Ge (Sum cnor_vars) (Const 1)) model
            else model))) model
  else model.

(** *** Locks (lines 186 to 193) *)
Definition lock_message (d sh rid n : string) : string :=
  "Locked assignment infeasible (qualification mismatch or unknown IDs): "
  +:+ d +:+ "," +:+ sh +:+ "," +:+ rid +:+ "," +:+ n.

Definition add_lock (x : dict key4 nat) (item : key4 * Z) (model : CpModel) :
    result CpModel :=
  let '((d, sh, rid, n), locked) := item in
  if bool_decide (locked ≠ 1) then Ok model
  else
    match dict_get (n, rid, sh, d) x with
    | None => Err (RuntimeError (lock_message d sh rid n))
    | Some v => Ok (Add (Eq (Var v) (Const 1)) model)
    end.

Definition add_locks (t : tables) (x : dict key4 nat) (model : CpModel) : result CpModel :=
  for_M (locks t) (add_lock x) model.

(** *** Fairness deviation (lines 195 to 205) *)
Record fairness := {
  fairness_dev : dict string nat;
  fair_model : CpModel;
}.

Definition add_fairness (t : tables) (target_shifts_per_nurse_week : option Z)
    (x : dict key4 nat) (model : CpModel) : fairness :=
  match target_shifts_per_nurse_week with
  | None => {| fairness_dev := []; fair_model := model |}
  | Some target =>
      for_ (nurse_ids t) (λ n s,
        let '(total, model) := NewIntVar 0 1000 ("tot_" +:+ n) (fair_model s) in
        let vars_n := x_vars x (λ k, bool_decide (k.1.1.1 = n)) in
        let model :=
          Add (Eq (Var total) (if truthy vars_n then Sum vars_n else Const 0)) model in
        let '(dev, model) := NewIntVar 0 1000 ("dev_" +:+ n) model in
        let model := Add (Ge (Var dev) (Minus (Var total) (Const target))) model in
        let model := Add (Ge (Var dev) (Minus (Const target) (Var total))) model in
        {| fairness_dev := dict_set n dev (fairness_dev s); fair_model := model |})
        {| fairness_dev := []; fair_model := model |}
  end.

(** *** Objective (lines 207 to 234) *)
Definition objective_terms (t : tables) (days : list string) (allow_overstaff : bool)
    (w : Weights) (x : dict key4 nat) (understaff overstaff : dict key3 nat)
    (fairness_dev : dict string nat) : list (Z * nat) :=
  let obj : list (Z * nat) := [] in
  let obj :=
    for_ x (λ '((n, rid, sh, d), var) obj,
      let p := dict_get_or (n, d, sh) 0 (pref t) in
      if bool_decide (p ≠ 0) then obj ++ [(w_pref w * p, var)] else obj) obj in
  let obj := for_ understaff (λ '(_, u) obj, obj ++ [(- w_understaff w, u)]) obj in
  let obj :=
    if allow_overstaff
    then for_ overstaff (λ '(_, o) obj, obj ++ [(- w_overstaff w, o)]) obj
    else obj in
  let obj := for_ fairness_dev (λ '(_, dev) obj, obj ++ [(- w_fairness w, dev)]) obj in
  let weekend_days := filter (λ d, d = "Sat" ∨ d = "Sun") days in
  if truthy weekend_days && bool_decide (w_weekend w > 0) then
    for_ x (λ '((n, rid, sh, d), var) obj,
      if bool_decide (d ∈ weekend_days) then obj ++ [(- w_weekend w, var)] else obj) obj
  else obj.

(** *** Model assembly (lines 90 to 234) *)
Record built := {
  model : CpModel;
  x : dict key4 nat;
  slack_under : dict key3 nat;
  slack_over : dict key3 nat;
}.

Definition build (inp : inputs) (t : tables) : result built :=
  let model := new_model in
  let '(x, model) := create_x t (shifts inp) (days inp) ([], model) in
  let model := add_max_per_day t (days inp) x model in
  let model := add_max_per_week t x model in
  let cov :=
    add_coverage t (days inp) (shifts inp) (allow_overstaff inp) x
      {| understaff := []; overstaff := []; cov_model := model |} in
  model ← add_rest_rule t (days inp) (shifts inp) (enforce_rest_night_to_day inp) x
             (cov_model cov);
  let model := add_charge t (days inp) (shifts inp) (charge_rooms_tags inp) x model in
  let model := add_cnor t (days inp) (shifts inp) (require_cnor_in_or inp) x model in
  model ← add_locks t x model;
  let fair := add_fairness t (target_shifts_per_nurse_week inp) x model in
  let obj :=
    objective_terms t (days inp) (allow_overstaff inp) (weights inp) x
      (understaff cov) (overstaff cov) (fairness_dev fair) in
  Ok {| model := Maximize obj (fair_model fair); x := x;
        slack_under := understaff cov; slack_over := overstaff cov |}.

(** ** The backend and the result (lines 236 to 269) *)
Inductive Status :=
  | UNKNOWN
  | MODEL_INVALID
  | FEASIBLE
  | INFEASIBLE
  | OPTIMAL.

Definition StatusName (st : Status) : string :=
  match st with
  | UNKNOWN => "UNKNOWN"
  | MODEL_INVALID => "MODEL_INVALID"
  | FEASIBLE => "FEASIBLE"
  | INFEASIBLE => "INFEASIBLE"
  | OPTIMAL => "OPTIMAL"
  end.

(** [status in (cp_model.OPTIMAL, cp_model.FEASIBLE)] *)
Definition found (st : Status) : bool :=
  match st with
  | OPTIMAL | FEASIBLE => true
  | _ => false
  end.

(** What [solver.Solve(model)] leaves behind: the status, the solution (the
    value of every variable, meaningful only when the status is OPTIMAL or
    FEASIBLE) and the objective value. *)
Record response := {
  status : Status;
  Value : nat → Z;
  ObjectiveValue : Z;
}.

(** [solver.Value(v)]: the backend holds a solution only with status OPTIMAL
    or FEASIBLE; without one the read indexes an empty solution and raises. *)
Definition solver_Value (r : response) (v : nat) : result Z :=
  if found (status r) then Ok (Value r v) else Err IndexError.

Record meta := {
  meta_status : string;
  meta_objective : option Z;
}.

Record schedule_row := {
  out_day : string;
  out_room_id : string;
  out_room_name : string;
  out_shift : string;
  out_required_nurses : Z;
  out_assigned_nurses : string;
  out_understaff : option Z;
  out_overstaff : option Z;
}.

(** [rooms_df.loc[rooms_df["room_id"] == rid, "room_name"].iloc[0]]: the name
    in the first row of the room ([rid] is always one of the table's ids). *)
Definition room_name_of (rooms_df : list room_row) (rid : string) : string :=
  match filter (λ r, room_id r = rid) rooms_df with
  | r :: _ => room_name r
  | [] => ""
  end.

(** The list [assigned] of a slot (lines 252 to 256): the value of a
    variable is read, whatever the status, for every nurse whose key is in
    [x]. *)
Definition assigned_loop (t : tables) (x : dict key4 nat) (r : response)
    (d rid sh : string) : result (list string) :=
  for_M (nurse_ids t) (λ n assigned,
    match dict_get (n, rid, sh, d) x with
    | Some v =>
        value ← solver_Value r v;
        Ok (if bool_decide (value = 1) then assigned ++ [n] else assigned)
    | None => Ok assigned
    end) [].

(** The record of a slot (lines 257 to 266): the slack values are read only
    under the status guard. *)
Definition output_row (inp : inputs) (t : tables) (b : built) (r : response)
    (d rid sh : string) : result schedule_row :=
  assigned ← assigned_loop t (x b) r d rid sh;
  understaff ←
    (if found (status r)
     then u ← solver_Value r (dict_at (d, rid, sh) (slack_under b)); Ok (Some u)
     else Ok None);
  overstaff ←
    (if allow_overstaff inp && found (status r)
     then o ← solver_Value r (dict_at (d, rid, sh) (slack_over b)); Ok (Some o)
     else Ok None);
  Ok {| out_day := d;
        out_room_id := rid;
        out_room_name := room_name_of (rooms_df inp) rid;
        out_shift := sh;
        out_required_nurses := dict_at (d, rid, sh) (demand t);
        out_assigned_nurses := join ";" assigned;
        out_understaff := understaff;
        out_overstaff := overstaff |}.

Definition schedule_rows (inp : inputs) (t : tables) (b : built) (r : response) :
    result (list schedule_row) :=
  for_M (days inp) (λ d,
    for_M (room_ids t) (λ rid,
      for_M (shifts inp) (λ sh out,
        row ← output_row inp t b r d rid sh;
        Ok (out ++ [row])))) [].

Definition solve_schedule_ortools (inp : inputs) (solver : CpModel → response) :
    result (list schedule_row * meta) :=
  t ← normalize inp;
  b ← build inp t;
  let r := solver (model b) in
  let meta :=
    {| meta_status := StatusName (status r);
       meta_objective := if found (status r) then Some (ObjectiveValue r) else None |} in
  rows ← schedule_rows inp t b r;
  Ok (rows, meta).

(** ** Solutions of a model *)
Fixpoint eval (value : nat → Z) (e : LinearExpr) : Z :=
  match e with
  | Const z => z
  | Var i => value i
  | Sum vs => foldr Z.add 0 (value <$> vs)
  | Plus a b => eval value a + eval value b
  | Minus a b => eval value a - eval value b
  end.

Definition holds (value : nat → Z) (c : Constraint) : bool :=
  match c with
  | Le a b => bool_decide (eval value a ≤ eval value b)
  | Eq a b => bool_decide (eval value a = eval value b)
  | Ge a b => bool_decide (eval value b ≤ eval value a)
  end.

Definition in_domain (value : nat → Z) (iv : nat * IntVar) : bool :=
  bool_decide (lb iv.2 ≤ value iv.1 ≤ ub iv.2).

(** A valuation the backend may report with status OPTIMAL or FEASIBLE: every
    variable lies in its declared domain and every constraint holds. *)
Definition accepted (m : CpModel) (value : nat → Z) : Prop :=
  forallb (in_domain value) (enumerate (variables m)) = true ∧
  forallb (holds value) (constraints m) = true.

(** The backend keeps its side of the contract on a model. *)
Definition sound (solver : CpModel → response) (m : CpModel) : Prop :=
  found (status (solver m)) = true → accepted m (Value (solver m)).

(** * Vocabulary of the properties *)

(** ** The nurses listed for a slot *)

(** The list that [assigned_loop] builds from the solution [value]. *)
Definition assigned_nurses (t : tables) (x : dict key4 nat) (value : nat → Z)
    (d rid sh : string) : list string :=
  for_ (nurse_ids t) (λ n assigned,
    match dict_get (n, rid, sh, d) x with
    | Some v => if bool_decide (value v = 1) then assigned ++ [n] else assigned
    | None => assigned
    end) [].

(** ** Models and their solutions *)

(** A later stage only appends variables and constraints. *)
Definition model_le (m m' : CpModel) : Prop :=
  variables m `prefix_of` variables m' ∧ constraints m `prefix_of` constraints m'.

(** A variable declared with the domain {0, 1}. *)
Definition bool_var (m : CpModel) (v : nat) : Prop :=
  ∃ nm, variables m !! v = Some {| lb := 0; ub := 1; name := nm |}.

(** A slack variable, declared with the domain 0..100. *)
Definition slack_var (m : CpModel) (v : nat) : Prop :=
  ∃ nm, variables m !! v = Some {| lb := 0; ub := 100; name := nm |}.

(** ** The variable space *)

(** The keys [create_x] visits, in order. *)
Definition x_keys (t : tables) (shifts days : list string) : list key4 :=
  n ← nurse_ids t;
  rid ← room_ids t;
  if feasible t n rid then sh ← shifts; d ← days; [(n, rid, sh, d)] else [].

(** The body of the innermost loop of [create_x]. *)
Definition new_x (k : key4) (s : dict key4 nat * CpModel) : dict key4 nat * CpModel :=
  let '(n, rid, sh, d) := k in
  let '(v, model) :=
    NewBoolVar ("x_" +:+ n +:+ "_" +:+ rid +:+ "_" +:+ sh +:+ "_" +:+ d) s.2 in
  (dict_set (n, rid, sh, d) v s.1, model).

(** What the variable loop guarantees about its dictionary and model. *)
Definition x_ok (s : dict key4 nat * CpModel) : Prop :=
  NoDup (dict_keys s.1) ∧ ∀ k v, dict_get k s.1 = Some v → bool_var s.2 v.

(** The number of nurses feasible for a room. *)
Definition feasible_count (t : tables) (rid : string) : nat :=
  length (filter (λ n, feasible t n rid = true) (nurse_ids t)).

(** ** Index lists and loop bodies *)

(** The slots of the horizon, in the order the coverage loop and the result
    loop visit them. *)
Definition slots (t : tables) (days shifts : list string) : list key3 :=
  d ← days; rid ← room_ids t; sh ← shifts; [(d, rid, sh)].

(** [assigned] of the coverage loop. *)
Definition assigned_vars (t : tables) (x : dict key4 nat) (k : key3) : list nat :=
  omap (λ n, dict_get (n, k.1.2, k.2, k.1.1) x) (nurse_ids t).

Definition assigned_sum (t : tables) (x : dict key4 nat) (k : key3) : LinearExpr :=
  if truthy (assigned_vars t x k) then Sum (assigned_vars t x k) else Const 0.

(** The coverage constraint of a slot with slack variables [u] and [o]. *)
Definition coverage_constraint (t : tables) (allow_overstaff : bool) (x : dict key4 nat)
    (k : key3) (u o : nat) : Constraint :=
  if allow_overstaff
  then Eq (Minus (Plus (assigned_sum t x k) (Var u)) (Var o)) (Const (dict_at k (demand t)))
  else Eq (Plus (assigned_sum t x k) (Var u)) (Const (dict_at k (demand t))).

(** The body of the innermost loop of [add_coverage]. *)
Definition cover (t : tables) (allow_overstaff : bool) (x : dict key4 nat) (k : key3)
    (s : coverage) : coverage :=
  let '(d, rid, sh) := k in
  let u := (NewIntVar 0 100 ("under_" +:+ rid +:+ "_" +:+ sh +:+ "_" +:+ d) (cov_model s)) in
  let o := (NewIntVar 0 100 ("over_" +:+ rid +:+ "_" +:+ sh +:+ "_" +:+ d) u.2) in
  {| understaff := dict_set k u.1 (understaff s);
     overstaff := if allow_overstaff then dict_set k o.1 (overstaff s) else overstaff s;
     cov_model :=
       Add (coverage_constraint t allow_overstaff x k u.1 o.1)
           (if allow_overstaff then o.2 else u.2) |}.

(** One iteration of the rest-rule loop for nurse [n] and index [i]. *)
Definition rest_step (x : dict key4 nat) (inv_day : dict nat string) (n : string)
    (i : nat) (model : CpModel) : result CpModel :=
  d ← getitem pretty i inv_day;
  d_next ← getitem pretty (i + 1)%nat inv_day;
  let night_vars :=
    x_vars x (λ k, bool_decide (k.1.1.1 = n ∧ k.1.2 = "Night" ∧ k.2 = d)) in
  let day_vars_next :=
    x_vars x (λ k, bool_decide (k.1.1.1 = n ∧ k.1.2 = "Day" ∧ k.2 = d_next)) in
  if truthy night_vars && truthy day_vars_next
  then Ok (Add (Le (Plus (Sum night_vars) (Sum day_vars_next)) (Const 1)) model)
  else Ok model.

(** ** The stages of [build] *)

(** The dictionary of variables and the model after the variable loop, the
    model after the caps, the slack dictionaries and model after the coverage
    loop, the outcome of the rest rule, and the role constraints added to a
    model. *)
Definition stage_x (inp : inputs) (t : tables) : dict key4 nat * CpModel :=
  create_x t (shifts inp) (days inp) ([], new_model).

Definition stage_caps (inp : inputs) (t : tables) : CpModel :=
  add_max_per_week t (stage_x inp t).1
    (add_max_per_day t (days inp) (stage_x inp t).1 (stage_x inp t).2).

Definition stage_coverage (inp : inputs) (t : tables) : coverage :=
  add_coverage t (days inp) (shifts inp) (allow_overstaff inp) (stage_x inp t).1
    {| understaff := []; overstaff := []; cov_model := stage_caps inp t |}.

Definition stage_rest (inp : inputs) (t : tables) : result CpModel :=
  add_rest_rule t (days inp) (shifts inp) (enforce_rest_night_to_day inp)
    (stage_x inp t).1 (cov_model (stage_coverage inp t)).

Definition stage_roles (inp : inputs) (t : tables) (m : CpModel) : CpModel :=
  add_cnor t (days inp) (shifts inp) (require_cnor_in_or inp) (stage_x inp t).1
    (add_charge t (days inp) (shifts inp) (charge_rooms_tags inp) (stage_x inp t).1 m).

(** ** Coverage *)

(** Whether the solution assigns the key, as the result loop tests it. *)
Definition assigned (x : dict key4 nat) (value : nat → Z) (k : key4) : bool :=
  match dict_get k x with
  | Some v => bool_decide (value v = 1)
  | None => false
  end.

(** What the coverage loop guarantees for every slot it has visited. *)
Definition slot_ok (t : tables) (allow : bool) (x : dict key4 nat) (s : coverage)
    (k : key3) (u : nat) : Prop :=
  slack_var (cov_model s) u ∧
  ∃ o, (allow = true → dict_get k (overstaff s) = Some o ∧ slack_var (cov_model s) o) ∧
       coverage_constraint t allow x k u o ∈ constraints (cov_model s).

Definition coverage_ok (t : tables) (allow : bool) (x : dict key4 nat) (s : coverage) : Prop :=
  ∀ k u, dict_get k (understaff s) = Some u → slot_ok t allow x s k u.

(** ** Workload caps *)

(** The keys the solution sets to 1. *)
Definition assignments (x : dict key4 nat) (value : nat → Z) : list key4 :=
  (filter (λ kv, value kv.2 = 1) x).*1.

(** The number of assignments of nurse [n] on day [d], and over the horizon. *)
Definition shifts_on_day (x : dict key4 nat) (value : nat → Z) (n d : string) : nat :=
  length (filter (λ k : key4, k.1.1.1 = n ∧ k.2 = d) (assignments x value)).

Definition shifts_in_week (x : dict key4 nat) (value : nat → Z) (n : string) : nat :=
  length (filter (λ k : key4, k.1.1.1 = n) (assignments x value)).

(** ** Rest rule *)

(** [day_index] and [inv_day] of the rest rule. *)
Definition day_index (days : list string) : dict string nat :=
  dict_of snd fst (enumerate days).

Definition inv_day (days : list string) : dict nat string :=
  dict_of snd fst (day_index days).

(** The rest constraint of nurse [n] between the days [d] and [d_next]. *)
Definition rest_constraint (x : dict key4 nat) (n d d_next : string) : Constraint :=
  Le (Plus (Sum (x_vars x (λ k, bool_decide (k.1.1.1 = n ∧ k.1.2 = "Night" ∧ k.2 = d))))
           (Sum (x_vars x (λ k, bool_decide (k.1.1.1 = n ∧ k.1.2 = "Day" ∧ k.2 = d_next)))))
     (Const 1).

(** The rest-rule loop has dealt with nurse [n] and index [i] by the time the
    model is [m]. *)
Definition rest_done (x : dict key4 nat) (inv : dict nat string) (n : string) (i : nat)
    (m : CpModel) : Prop :=
  ∃ d d_next,
    dict_get i inv = Some d ∧ dict_get (i + 1)%nat inv = Some d_next ∧
    (truthy (x_vars x (λ k, bool_decide (k.1.1.1 = n ∧ k.1.2 = "Night" ∧ k.2 = d))) = true →
     truthy (x_vars x (λ k, bool_decide (k.1.1.1 = n ∧ k.1.2 = "Day" ∧ k.2 = d_next))) = true →
     rest_constraint x n d d_next ∈ constraints m).

(** ** Tables built from rows *)

(** The integer of a converted cell. *)
Definition cell_value (c : result Z) : Z :=
  match c with
  | Ok z => z
  | Err _ => 0
  end.

(** ** Locks *)

(** A lock entry that asks for an assignment whose variable does not exist. *)
Definition infeasible_lock (x : dict key4 nat) (item : key4 * Z) : Prop :=
  item.2 = 1 ∧ dict_get (item.1.2, item.1.1.2, item.1.1.1.2, item.1.1.1.1) x = None.

(** The exception the lock loop raises for an entry. *)
Definition lock_error (item : key4 * Z) : exn :=
  RuntimeError (lock_message item.1.1.1.1 item.1.1.1.2 item.1.1.2 item.1.2).

#[global] Instance infeasible_lock_dec x item : Decision (infeasible_lock x item).
Proof. unfold infeasible_lock. apply _. Defined.

(** The key of a lock row, as [locks_lookup] builds it. *)
Definition lock_key (r : lock_row) : key4 :=
  (lock_day r, lock_shift r, lock_room_id r, lock_nurse_id r).

(** ** Slack bounds *)

(** Every overstaff variable written so far is a slack variable. *)
Definition overstaff_ok (s : coverage) : Prop :=
  ∀ k o, dict_get k (overstaff s) = Some o → slack_var (cov_model s) o.

(** ** Optimal solutions *)

(** The objective [sum(obj)] under a valuation. *)
Definition objective_value (m : CpModel) (value : nat → Z) : Z :=
  foldr Z.add 0 ((λ cv, cv.1 * value cv.2) <$> objective m).


(** ** Scenarios *)

(** One nurse qualified for the ICU. *)
Definition nurse_icu : nurse_row :=
  {| nurse_id := "N1"; qualifications := Some "ICU"; certification := None;
     max_shifts_per_day := Val 1; max_shifts_per_week := Val 5 |}.

(** One room, one selected day and shift: the room requires [req] and the
    slot (Mon, Day) demands [dem] nurses. *)
Definition one_room (req : string) (dem : Z) (allow : bool) : inputs :=
  {| nurses_df := [nurse_icu];
     rooms_df := [{| room_id := "R1"; room_name := "Intensive care";
                     required_qualifications := Some req; tags := Some "ICU" |}];
     demand_df := [{| demand_day := "Mon"; demand_room_id := "R1"; demand_shift := "Day";
                      required_nurses := Val dem |}];
     pref_df := [];
     locks_df := [];
     days := ["Mon"];
     shifts := ["Day"];
     allow_overstaff := allow;
     weights := default_weights;
     time_limit_seconds := 20;
     target_shifts_per_nurse_week := None;
     enforce_rest_night_to_day := true;
     charge_rooms_tags := {["ICU"; "ER"]};
     require_cnor_in_or := true |}.


(** The same room with a demand the slack cannot absorb. *)
Definition scenario_overflow : inputs := one_room "ICU;CNOR" 101 true.


(** The tables and the built model of an input (empty if the stage raises). *)
Definition tables_of (inp : inputs) : tables :=
  match normalize inp with
  | Ok t => t
  | Err _ =>
      {| nurse_ids := []; room_ids := []; max_per_day := []; max_per_week := [];
         cert_by_nurse := []; qual_by_nurse := []; req_by_room := []; tag_by_room := [];
         demand := []; pref := []; locks := [] |}
  end.

Definition built_of (inp : inputs) : built :=
  match build inp (tables_of inp) with
  | Ok b => b
  | Err _ => {| model := new_model; x := []; slack_under := []; slack_over := [] |}
  end.

(** ** Table keys *)

(** The keys of a demand row and of a preference row. *)
Definition demand_key (r : demand_row) : key3 :=
  (demand_day r, demand_room_id r, demand_shift r).

Definition pref_key (r : pref_row) : key3 :=
  (pref_nurse_id r, pref_day r, pref_shift r).

(** ** The result *)

(** The record the result loop emits for a slot. *)
Definition schedule_row_of (inp : inputs) (t : tables) (b : built) (r : response)
    (k : key3) : schedule_row :=
  {| out_day := k.1.1;
     out_room_id := k.1.2;
     out_room_name := room_name_of (rooms_df inp) k.1.2;
     out_shift := k.2;
     out_required_nurses := dict_at k (demand t);
     out_assigned_nurses := join ";" (assigned_nurses t (x b) (Value r) k.1.1 k.1.2 k.2);
     out_understaff :=
       if found (status r) then Some (Value r (dict_at k (slack_under b))) else None;
     out_overstaff :=
       if allow_overstaff inp && found (status r)
       then Some (Value r (dict_at k (slack_over b))) else None |}.

(** ** Malformed rows *)

(** The cell holds an integer. *)
Definition is_int (c : cell) : bool :=
  match c with
  | Val _ => true
  | _ => false
  end.

(** Every numeric cell the function converts without a default holds an
    integer, and no [locked] cell is empty. *)
Definition numeric_ok (inp : inputs) : Prop :=
  Forall (λ r, is_int (max_shifts_per_day r) = true) (nurses_df inp) ∧
  Forall (λ r, is_int (max_shifts_per_week r) = true) (nurses_df inp) ∧
  Forall (λ r, is_int (required_nurses r) = true) (demand_df inp) ∧
  Forall (λ r, is_int (preference r) = true) (pref_df inp) ∧
  Forall (λ r, locked r ≠ NaN) (locks_df inp).

(** The exceptions a conversion of a numeric cell can raise. *)
Definition conversion_error (e : exn) : Prop :=
  e = ValueError ∨
  e ∈ KeyError <$> ["max_shifts_per_day"; "max_shifts_per_week"; "required_nurses"; "preference"].

(** ** A small ward *)

(** Two nurses, two rooms, two days and two shifts; the demand, preference
    and lock tables each repeat a key. *)
Definition ward_nurse (id quals : string) (cert : option string) (per_day per_week : cell) :
    nurse_row :=
  {| nurse_id := id; qualifications := Some quals; certification := cert;
     max_shifts_per_day := per_day; max_shifts_per_week := per_week |}.

Definition ward_lock (d sh rid n : string) (flag : Z) : lock_row :=
  {| lock_day := d; lock_shift := sh; lock_room_id := rid; lock_nurse_id := n;
     locked := Val flag |}.

Definition ward_with (nurses : list nurse_row) (lock_rows : list lock_row) : inputs :=
  {| nurses_df := nurses;
     rooms_df :=
       [{| room_id := "R1"; room_name := "Intensive care";
           required_qualifications := Some "ICU"; tags := Some "ICU" |};
        {| room_id := "R2"; room_name := "Theatre";
           required_qualifications := None; tags := Some "OR" |}];
     demand_df :=
       [{| demand_day := "Mon"; demand_room_id := "R1"; demand_shift := "Day";
           required_nurses := Val 3 |};
        {| demand_day := "Mon"; demand_room_id := "R2"; demand_shift := "Night";
           required_nurses := Val 1 |};
        {| demand_day := "Mon"; demand_room_id := "R1"; demand_shift := "Day";
           required_nurses := Val 1 |}];
     pref_df :=
       [{| pref_nurse_id := "N2"; pref_day := "Tue"; pref_shift := "Day"; preference := Val 1 |};
        {| pref_nurse_id := "N2"; pref_day := "Tue"; pref_shift := "Day"; preference := Val 4 |}];
     locks_df := lock_rows;
     days := ["Mon"; "Tue"];
     shifts := ["Day"; "Night"];
     allow_overstaff := true;
     weights := default_weights;
     time_limit_seconds := 20;
     target_shifts_per_nurse_week := Some 1;
     enforce_rest_night_to_day := true;
     charge_rooms_tags := {["ICU"; "ER"]};
     require_cnor_in_or := true |}.

Definition ward_nurses : list nurse_row :=
  [ward_nurse "N1" "ICU; Charge" (Some "CNOR") (Val 2) (Val 2);
   ward_nurse "N2" "ER" None (Val 1) (Val 2)].

(** The lock of N1 on (Mon, Day, R1), first written with flag 0. *)
Definition ward : inputs :=
  ward_with ward_nurses
    [ward_lock "Mon" "Day" "R1" "N1" 0; ward_lock "Mon" "Day" "R1" "N1" 1].

(** A lock with flag 1 that a later row of the same key resets. *)
Definition ward_overridden : inputs :=
  ward_with ward_nurses
    [ward_lock "Tue" "Day" "R1" "N1" 1; ward_lock "Tue" "Day" "R1" "N1" 0].

(** A lock of the ER nurse into the room that requires ICU. *)
Definition ward_bad_lock : inputs :=
  ward_with ward_nurses [ward_lock "Mon" "Day" "R1" "N2" 1].

(** The first nurse lacks the daily cap; the second nurse lacks the weekly cap. *)
Definition ward_missing_day : inputs :=
  ward_with
    [ward_nurse "N1" "ICU; Charge" (Some "CNOR") NaN (Val 2);
     ward_nurse "N2" "ER" None (Val 1) (Val 2)] [].

Definition ward_missing_week : inputs :=
  ward_with
    [ward_nurse "N1" "ICU; Charge" (Some "CNOR") (Val 2) (Val 2);
     ward_nurse "N2" "ER" None (Val 1) NaN] [].

(** N1 works (Mon, Day, R1) and (Mon, Night, R2); the fairness totals and
    deviations follow. *)
Definition ward_value (i : nat) : Z :=
  if bool_decide (i = 28%nat) then 2
  else if bool_decide (i ∈ [0; 6; 29; 31]%nat) then 1
  else 0.

(** A backend that answers every model with the same response. *)
Definition fixed_solver (st : Status) (value : nat → Z) (obj : Z) : CpModel → response :=
  λ _, {| status := st; Value := value; ObjectiveValue := obj |}.

(** The result of a solve (empty if it raises). *)
Definition result_of (inp : inputs) (solver : CpModel → response) :
    list schedule_row * meta :=
  match solve_schedule_ortools inp solver with
  | Ok out => out
  | Err _ => ([], {| meta_status := ""; meta_objective := None |})
  end.

(** ** Decision procedures *)

#[global] Instance cell_eq_dec : EqDecision cell.
Proof. solve_decision. Defined.

#[global] Instance numeric_ok_dec inp : Decision (numeric_ok inp).
Proof. unfold numeric_ok. apply _. Defined.

(** * The rest of the code *)

(** ** Qualification cells and nurse lists as text *)

(** The character [c] occurs in [s]. *)
Fixpoint occurs (c : Ascii.ascii) (s : string) : bool :=
  match s with
  | EmptyString => false
  | String c' s' => Ascii.eqb c' c || occurs c s'
  end.

(** Every character of [s] is one that [str.strip()] removes. *)
Fixpoint blank (s : string) : bool :=
  match s with
  | EmptyString => true
  | String c s' => is_py_space c && blank s'
  end.

(** [scheduler_csp.py], [load_nurses] and [load_rooms]: the set computed from
    a qualifications cell,
    [quals = cell.split(";") if cell else []] and then
    [set(q.strip() for q in quals if q.strip())]. *)
Definition csp_qualifications (cell : string) : gset string :=
  let quals := if bool_decide (cell = "") then [] else split ";"%char cell in
  list_to_set (strip <$> filter (λ q, strip q ≠ "") quals).

(** [app.py], quick coverage check: the number of nurses counted in an
    [assigned_nurses] cell ([None] is a cell that [fillna("")] fills), and the
    gap to the required count. *)
Definition assigned_count (cell : option string) : nat :=
  let s := default "" cell in
  if bool_decide (strip s = "") then 0%nat
  else length (filter (λ x, strip x ≠ "") (split ";"%char s)).

Definition gap (required_nurses : Z) (cell : option string) : Z :=
  required_nurses - Z.of_nat (assigned_count cell).

(** ** Role coverage *)

(** [charge_nurses], [charge_room_ids] and [or_room_ids] of the two role
    stages. *)
Definition charge_nurses (t : tables) : list string :=
  filter (λ n, "Charge" ∈ dict_at n (qual_by_nurse t)) (nurse_ids t).

Definition charge_room_ids (t : tables) (charge_rooms_tags : gset string) : list string :=
  filter (λ rid, dict_get_or rid "" (tag_by_room t) ∈ charge_rooms_tags) (room_ids t).

Definition or_room_ids (t : tables) : list string :=
  filter (λ rid, dict_get_or rid "" (tag_by_room t) = "OR") (room_ids t).

(** [total_demand] of the charge stage for a day and shift. *)
Definition charge_demand (t : tables) (charge_rooms_tags : gset string) (d sh : string) : Z :=
  foldr Z.add 0 ((λ rid, dict_at (d, rid, sh) (demand t)) <$> charge_room_ids t charge_rooms_tags).

(** ** Variants of the ward *)

(** The input with other selected days. *)
Definition with_days (inp : inputs) (selected : list string) : inputs :=
  {| nurses_df := nurses_df inp;
     rooms_df := rooms_df inp;
     demand_df := demand_df inp;
     pref_df := pref_df inp;
     locks_df := locks_df inp;
     days := selected;
     shifts := shifts inp;
     allow_overstaff := allow_overstaff inp;
     weights := weights inp;
     time_limit_seconds := time_limit_seconds inp;
     target_shifts_per_nurse_week := target_shifts_per_nurse_week inp;
     enforce_rest_night_to_day := enforce_rest_night_to_day inp;
     charge_rooms_tags := charge_rooms_tags inp;
     require_cnor_in_or := require_cnor_in_or inp |}.

(** Monday selected twice. *)
Definition ward_monday_twice : inputs := with_days ward ["Mon"; "Tue"; "Mon"].

(** ** The objective *)

(** [pref.get((n, d, sh), 0)] for the key of a decision variable. *)
Definition pref_of (t : tables) (k : key4) : Z :=
  dict_get_or (k.1.1.1, k.2, k.1.2) 0 (pref t).

(** The value of a weighted sum of variables, and the sum of a function over
    the entries of a dictionary of variables. *)
Definition weighted (value : nat → Z) (terms : list (Z * nat)) : Z :=
  foldr Z.add 0 ((λ cv, cv.1 * value cv.2) <$> terms).

Definition dict_sum {K} (f : K → nat → Z) (d : dict K nat) : Z :=
  foldr Z.add 0 ((λ kv, f kv.1 kv.2) <$> d).

(** The day of the key is a selected Saturday or Sunday. *)
Definition weekend_key (days : list string) (k : key4) : bool :=
  bool_decide (k.2 ∈ filter (λ d, d = "Sat" ∨ d = "Sun") days).

(** ** Fairness *)

(** What the fairness loop leaves in the model for the deviation variable
    [dev] of nurse [n]. *)
Definition fair_entry (x : dict key4 nat) (target : Z) (m : CpModel) (n : string)
    (total dev : nat) : Prop :=
  let vars_n := x_vars x (λ k, bool_decide (k.1.1.1 = n)) in
  variables m !! total = Some {| lb := 0; ub := 1000; name := "tot_" +:+ n |} ∧
  variables m !! dev = Some {| lb := 0; ub := 1000; name := "dev_" +:+ n |} ∧
  Eq (Var total) (if truthy vars_n then Sum vars_n else Const 0) ∈ constraints m ∧
  Ge (Var dev) (Minus (Var total) (Const target)) ∈ constraints m ∧
  Ge (Var dev) (Minus (Const target) (Var total)) ∈ constraints m.

(** ** Locks that are not active *)

(** The inputs with an empty lock table, and the tables with other locks. *)
Definition without_locks (inp : inputs) : inputs :=
  {| nurses_df := nurses_df inp;
     rooms_df := rooms_df inp;
     demand_df := demand_df inp;
     pref_df := pref_df inp;
     locks_df := [];
     days := days inp;
     shifts := shifts inp;
     allow_overstaff := allow_overstaff inp;
     weights := weights inp;
     time_limit_seconds := time_limit_seconds inp;
     target_shifts_per_nurse_week := target_shifts_per_nurse_week inp;
     enforce_rest_night_to_day := enforce_rest_night_to_day inp;
     charge_rooms_tags := charge_rooms_tags inp;
     require_cnor_in_or := require_cnor_in_or inp |}.

Definition set_locks (l : dict key4 Z) (t : tables) : tables :=
  {| nurse_ids := nurse_ids t; room_ids := room_ids t;
     max_per_day := max_per_day t; max_per_week := max_per_week t;
     cert_by_nurse := cert_by_nurse t; qual_by_nurse := qual_by_nurse t;
     req_by_room := req_by_room t; tag_by_room := tag_by_room t;
     demand := demand t; pref := pref t; locks := l |}.

(** A lock row whose flag is not 1: the [locked] cell is absent (read as 0)
    or holds another integer. *)
Definition inactive_lock (r : lock_row) : Prop :=
  locked r = Absent ∨ ∃ z, locked r = Val z ∧ z ≠ 1.

(** Rows that pin unknown nurses to unknown rooms, none of them with flag 1. *)
Definition ward_idle_locks : inputs :=
  ward_with ward_nurses
    [ward_lock "Mon" "Day" "R9" "N7" 0;
     {| lock_day := "Fri"; lock_shift := "Day"; lock_room_id := "R1";
        lock_nurse_id := "N2"; locked := Absent |};
     ward_lock "Mon" "Day" "R1" "N2" 2].

(** ** The single-shift scheduler ([csp/scheduler_csp.py])

    The nurses are a dictionary from nurse id to record and the rooms a list
    of records, as [load_nurses] and [load_rooms] return them.  The
    [python-constraint] problem is the record of what [addVariable] and
    [addConstraint] store, and [getSolutions] is a parameter. *)
From Stdlib Require PrimFloat.

Module scheduler_csp.
Import PrimFloat.

Definition SHIFT_HOURS : float := 6%float.

Record nurse := {
  full_name : string;
  degree : string;
  certification : string;
  max_daily_hours : float;
  qualifications : gset string;
}.

Record room := {
  room_id : string;
  room_name : string;
  shift_start : string;
  shift_end : string;
  min_nurses : Z;
  required_qualifications : gset string;
}.

(** [build_domains(nurses, rooms)] (lines 40 to 58) *)
Definition build_domains (nurses : dict string nurse) (rooms : list room) :
    dict string (list string) :=
  for_ rooms (λ room domains,
    let rid := room_id room in
    let reqs := required_qualifications room in
    let domain :=
      for_ nurses (λ '(nid, n) domain,
        if ltb (max_daily_hours n) SHIFT_HOURS then domain
        else if negb (bool_decide (reqs ⊆ qualifications n)) then domain
        else domain ++ [nid]) [] in
    dict_set rid domain domains) [].

(** The problem under construction: [addVariable] refuses a variable that
    exists and an empty domain with [ValueError]; [addConstraint] records the
    constraint with its variables. *)
Inductive Constraint :=
  | AllDifferentConstraint.

Record Problem := {
  problem_variables : dict string (list string);
  problem_constraints : list (Constraint * list string);
}.

Definition new_problem : Problem :=
  {| problem_variables := []; problem_constraints := [] |}.

Definition addVariable (variable : string) (domain : list string) (p : Problem) :
    result Problem :=
  if bool_decide (variable ∈ dict_keys (problem_variables p)) then Err ValueError
  else if negb (truthy domain) then Err ValueError
  else Ok {| problem_variables := dict_set variable domain (problem_variables p);
             problem_constraints := problem_constraints p |}.

Definition addConstraint (c : Constraint) (vars : list string) (p : Problem) : Problem :=
  {| problem_variables := problem_variables p;
     problem_constraints := problem_constraints p ++ [(c, vars)] |}.

Definition no_nurse_message (rid : string) : string :=
  "No qualified nurses available for room " +:+ rid +:+ ".".

(** [solve_schedule(nurses, rooms)]: the problem (lines 67 to 82) *)
Definition build_problem (nurses : dict string nurse) (rooms : list room) :
    result Problem :=
  let domains := build_domains nurses rooms in
  _ ← for_M domains (λ '(rid, domain) _,
         if negb (truthy domain) then Err (RuntimeError (no_nurse_message rid))
         else Ok ()) ();
  let problem := new_problem in
  problem ← for_M domains (λ '(rid, domain) problem,
               addVariable rid domain problem) problem;
  let room_ids := room_id <$> rooms in
  Ok (addConstraint AllDifferentConstraint room_ids problem).

(** [solve_schedule(nurses, rooms)]: the solve (lines 84 to 91) *)
Definition solve_schedule (nurses : dict string nurse) (rooms : list room)
    (getSolutions : Problem → list (dict string string)) : result (dict string string) :=
  problem ← build_problem nurses rooms;
  let solutions := getSolutions problem in
  match solutions with
  | [] => Err (RuntimeError "No feasible schedule found given current constraints.")
  | schedule :: _ => Ok schedule
  end.

(** *** Vocabulary *)

(** A nurse the domain loop keeps for a room: the hours are not below
    [SHIFT_HOURS] and the qualifications cover the room's requirements. *)
Definition eligible (n : nurse) (r : room) : Prop :=
  ltb (max_daily_hours n) SHIFT_HOURS = false ∧
  required_qualifications r ⊆ qualifications n.

#[global] Instance eligible_dec n r : Decision (eligible n r).
Proof. unfold eligible. apply _. Defined.

(** The nurse ids the domain loop collects for a room. *)
Definition room_domain (nurses : dict string nurse) (r : room) : list string :=
  (filter (λ kn, eligible kn.2 r) nurses).*1.

(** A solution of a problem: every variable takes a value of its domain, and
    the values of the variables of an all-different constraint, taken in the
    order the constraint lists them, do not repeat. *)
Definition solution (p : Problem) (s : dict string string) : Prop :=
  Forall (λ vd, ∃ v, dict_get vd.1 s = Some v ∧ v ∈ vd.2) (problem_variables p) ∧
  Forall (λ c, NoDup ((λ v, dict_get v s) <$> c.2)) (problem_constraints p).

(** The backend keeps its side of the contract on the problem of the rooms. *)
Definition sound (getSolutions : Problem → list (dict string string))
    (nurses : dict string nurse) (rooms : list room) : Prop :=
  ∀ p, build_problem nurses rooms = Ok p → Forall (solution p) (getSolutions p).

(** The rooms with other [min_nurses]. *)
Definition with_min_nurses (f : room → Z) (r : room) : room :=
  {| room_id := room_id r; room_name := room_name r;
     shift_start := shift_start r; shift_end := shift_end r;
     min_nurses := f r; required_qualifications := required_qualifications r |}.

(** *** A small ward *)
Definition staff : dict string nurse :=
  [("N1", {| full_name := "Ada"; degree := "BSN"; certification := "CNOR";
             max_daily_hours := 8%float; qualifications := {["ICU"; "OR"]} |});
   ("N2", {| full_name := "Bea"; degree := "BSN"; certification := "";
             max_daily_hours := 4.5%float; qualifications := {["ICU"; "ER"]} |});
   ("N3", {| full_name := "Cy"; degree := "ADN"; certification := "";
             max_daily_hours := 6%float; qualifications := {["ER"]} |})].

Definition unit_room (rid req : string) (wanted : Z) : room :=
  {| room_id := rid; room_name := rid; shift_start := "08:00"; shift_end := "14:00";
     min_nurses := wanted; required_qualifications := {[req]} |}.

Definition wing : list room := [unit_room "R1" "ICU" 2; unit_room "R2" "ER" 1].

Definition wing_uncovered : list room :=
  [unit_room "R1" "ICU" 1; unit_room "R2" "PACU" 1; unit_room "R3" "NICU" 1].

Definition wing_schedule : dict string string := [("R1", "N1"); ("R2", "N3")].

End scheduler_csp.

(** * Properties *)

(** ** Loops *)
Section loops.
Context {A S : Type}.
Implicit Types (l : list A) (s : S).

Lemma for_cons a l (body : A → S → S) s :
  for_ (a :: l) body s = for_ l body (body a s).
Proof. reflexivity. Qed.

Lemma for_app l1 l2 (body : A → S → S) s :
  for_ (l1 ++ l2) body s = for_ l2 body (for_ l1 body s).
Proof. apply foldl_app. Qed.

Lemma for_ext l (body body' : A → S → S) s :
  (∀ a s, a ∈ l → body a s = body' a s) → for_ l body s = for_ l body' s.
Proof.
  revert s. induction l as [|a l IH]; intros s Hb; [done|].
  rewrite !for_cons, Hb by left. apply IH. intros; apply Hb. by right.
Qed.

(** Loop invariants. *)
Lemma for_inv (I : S → Prop) l (body : A → S → S) s :
  (∀ a s, a ∈ l → I s → I (body a s)) → I s → I (for_ l body s).
Proof.
  revert s. induction l as [|a l IH]; intros s Hb Hs; [done|].
  rewrite for_cons. apply IH.
  - intros; apply Hb; [by right|done].
  - apply Hb; [by left|done].
Qed.

(** What one iteration establishes and the others keep holds at the end. *)
Lemma for_reach (I Q : S → Prop) l (body : A → S → S) a s :
  a ∈ l →
  (∀ a' s, a' ∈ l → I s → I (body a' s)) →
  (∀ a' s, a' ∈ l → I s → Q s → Q (body a' s)) →
  (∀ s, I s → Q (body a s)) →
  I s → Q (for_ l body s).
Proof.
  intros Ha HI HQ Hbody Hs.
  apply list_elem_of_split in Ha as (l1 & l2 & ->).
  rewrite for_app, for_cons.
  assert (I (for_ l1 body s)) as H1.
  { apply for_inv; [|done]. intros; apply HI; [|done]. set_solver. }
  assert (I (body a (for_ l1 body s)) ∧ Q (body a (for_ l1 body s))) as H2.
  { split; [apply HI; [set_solver|done]|by apply Hbody]. }
  revert H2. generalize (body a (for_ l1 body s)).
  intros s1 Hs1.
  apply (for_inv (λ s, I s ∧ Q s) l2 body s1); [|done].
  intros a' s'' Ha' [??]. split; [apply HI|apply HQ]; try done; set_solver.
Qed.

Lemma for_M_app l1 l2 (body : A → S → result S) s :
  for_M (l1 ++ l2) body s = (s' ← for_M l1 body s; for_M l2 body s').
Proof.
  revert s. induction l1 as [|a l1 IH]; intros s; [done|].
  cbn. destruct (body a s) as [s'|e]; cbn; [apply IH|done].
Qed.

Lemma for_M_inv (I : S → Prop) l (body : A → S → result S) s s' :
  (∀ a s s', a ∈ l → body a s = Ok s' → I s → I s') →
  for_M l body s = Ok s' → I s → I s'.
Proof.
  revert s. induction l as [|a l IH]; intros s Hb Hl Hs; cbn in Hl.
  - by simplify_eq.
  - destruct (body a s) as [s1|e] eqn:E; cbn in Hl; [|done].
    eapply IH; [|done|].
    + intros a' ????; eapply Hb; [by right|done].
    + eapply Hb; [by left|done..].
Qed.

Lemma for_M_reach (I Q : S → Prop) l (body : A → S → result S) a s s' :
  a ∈ l →
  (∀ a' s s', a' ∈ l → body a' s = Ok s' → I s → I s') →
  (∀ a' s s', a' ∈ l → body a' s = Ok s' → I s → Q s → Q s') →
  (∀ s s', body a s = Ok s' → I s → Q s') →
  for_M l body s = Ok s' → I s → Q s'.
Proof.
  intros Ha HI HQ Hbody Hl Hs.
  apply list_elem_of_split in Ha as (l1 & l2 & ->).
  rewrite for_M_app in Hl.
  destruct (for_M l1 body s) as [s1|e] eqn:E1; cbn in Hl; [|done].
  destruct (body a s1) as [s2|e] eqn:E2; cbn in Hl; [|done].
  assert (I s1) as H1.
  { eapply for_M_inv; [|done..]. intros a' ????; eapply HI; [|done]. set_solver. }
  eapply (for_M_inv (λ s, I s ∧ Q s)); [|done|].
  - intros a' ?? Ha' ? [??].
    split; [eapply HI|eapply HQ]; try done; set_solver.
  - split; [eapply HI; [|done..]; set_solver|by eapply Hbody].
Qed.

(** A loop whose body never raises completes. *)
Lemma for_M_total l (body : A → S → result S) s :
  (∀ a s, a ∈ l → ∃ s', body a s = Ok s') → ∃ s', for_M l body s = Ok s'.
Proof.
  revert s. induction l as [|a l IH]; intros s Hb; [by eexists|].
  destruct (Hb a s) as [s1 E]; [by left|]. cbn. rewrite E. cbn.
  apply IH. intros; apply Hb. by right.
Qed.
End loops.

(** Nested loops are one loop over the flattened index list. *)
Lemma for_bind {A B S} (f : B → list A) (lb : list B) (body : A → S → S) s :
  for_ lb (λ b, for_ (f b) body) s = for_ (lb ≫= f) body s.
Proof.
  revert s. induction lb as [|b lb IH]; intros s; [done|].
  rewrite for_cons, IH.
  change ((b :: lb) ≫= f) with (f b ++ (lb ≫= f)). by rewrite for_app.
Qed.

Lemma for_M_bind {A B S} (f : B → list A) (lb : list B) (body : A → S → result S) s :
  for_M lb (λ b, for_M (f b) body) s = for_M (lb ≫= f) body s.
Proof.
  revert s. induction lb as [|b lb IH]; intros s; [done|].
  change ((b :: lb) ≫= f) with (f b ++ (lb ≫= f)). rewrite for_M_app. cbn.
  destruct (for_M (f b) body s) as [s'|e]; cbn; [apply IH|done].
Qed.

(** ** Dictionaries *)
Section pydict_facts.
Context {K V : Type} `{EqDecision K}.
Implicit Types (d : dict K V) (k : K) (v : V).

Lemma dict_get_set k k' v d :
  dict_get k' (dict_set k v d) = if decide (k' = k) then Some v else dict_get k' d.
Proof.
  induction d as [|[k0 v0] d IH]; cbn.
  - by destruct (decide (k' = k)).
  - destruct (decide (k = k0)) as [->|]; cbn.
    + by destruct (decide (k' = k0)).
    + destruct (decide (k' = k0)) as [->|]; [by rewrite decide_False|done].
Qed.

Lemma dict_get_set_eq k v d : dict_get k (dict_set k v d) = Some v.
Proof. by rewrite dict_get_set, decide_True. Qed.

Lemma dict_get_set_ne k k' v d :
  k' ≠ k → dict_get k' (dict_set k v d) = dict_get k' d.
Proof. intros. by rewrite dict_get_set, decide_False. Qed.

Lemma dict_get_None k d : dict_get k d = None ↔ k ∉ dict_keys d.
Proof.
  unfold dict_keys. induction d as [|[k0 v0] d IH]; cbn.
  - split; [set_solver|done].
  - destruct (decide (k = k0)) as [->|]; [set_solver|].
    rewrite IH. set_solver.
Qed.

Lemma dict_get_is_Some k d : is_Some (dict_get k d) ↔ k ∈ dict_keys d.
Proof.
  rewrite <-not_eq_None_Some, dict_get_None.
  split; [apply dec_stable|tauto].
Qed.

Lemma dict_get_elem k v d : dict_get k d = Some v → (k, v) ∈ d.
Proof.
  induction d as [|[k0 v0] d IH]; cbn; [done|].
  destruct (decide (k = k0)) as [->|]; intros; simplify_eq; [left|right; auto].
Qed.

Lemma dict_elem_get k v d : NoDup (dict_keys d) → (k, v) ∈ d → dict_get k d = Some v.
Proof.
  unfold dict_keys. induction d as [|[k0 v0] d IH]; cbn; [set_solver|].
  rewrite NoDup_cons. intros [Hk Hd] [?|Hin]%elem_of_cons.
  - simplify_eq. by rewrite decide_True.
  - rewrite decide_False; [by apply IH|].
    intros ->. apply Hk. apply list_elem_of_fmap. by exists (k0, v).
Qed.

Lemma dict_set_fresh k v d : k ∉ dict_keys d → dict_set k v d = d ++ [(k, v)].
Proof.
  unfold dict_keys. induction d as [|[k0 v0] d IH]; cbn; [done|].
  intros Hk. rewrite decide_False by set_solver. f_equal. apply IH. set_solver.
Qed.

Lemma dict_keys_set_in k v d : k ∈ dict_keys d → dict_keys (dict_set k v d) = dict_keys d.
Proof.
  unfold dict_keys. induction d as [|[k0 v0] d IH]; cbn; [set_solver|].
  intros Hk. destruct (decide (k = k0)) as [->|]; cbn; [done|].
  f_equal. apply IH. set_solver.
Qed.

Lemma elem_of_dict_keys_set k k' v d :
  k' ∈ dict_keys (dict_set k v d) ↔ k' = k ∨ k' ∈ dict_keys d.
Proof.
  rewrite <-!dict_get_is_Some, dict_get_set.
  destruct (decide (k' = k)); [|naive_solver].
  split; [auto|by eexists].
Qed.

Lemma NoDup_dict_keys_set k v d :
  NoDup (dict_keys d) → NoDup (dict_keys (dict_set k v d)).
Proof.
  intros Hd. destruct (decide (k ∈ dict_keys d)).
  - by rewrite dict_keys_set_in.
  - rewrite dict_set_fresh by done. unfold dict_keys in *.
    rewrite fmap_app. apply NoDup_app. split_and!; [done|set_solver|].
    apply NoDup_singleton.
Qed.

Lemma elem_of_dict_set k k' v v' d :
  (k', v') ∈ dict_set k v d → (k' = k ∧ v' = v) ∨ (k', v') ∈ d.
Proof.
  induction d as [|[k0 v0] d IH]; cbn.
  - intros ?%list_elem_of_singleton. simplify_eq. auto.
  - destruct (decide (k = k0)) as [->|].
    + intros [?|?]%elem_of_cons; simplify_eq; [auto|]. right. by right.
    + intros [?|?]%elem_of_cons; simplify_eq; [right; left|].
      destruct IH as [?|?]; [done|auto|]. right. by right.
Qed.

(** A dictionary filled by a loop: keys never repeat, and every entry was
    written by some iteration or was there before. *)
Lemma dict_of_from_NoDup {R} (key : R → K) (val : R → V) rows d :
  NoDup (dict_keys d) →
  NoDup (dict_keys (for_ rows (λ r, dict_set (key r) (val r)) d)).
Proof.
  intros. apply (for_inv (λ d, NoDup (dict_keys d))); [|done].
  intros. by apply NoDup_dict_keys_set.
Qed.

Lemma dict_of_NoDup {R} (key : R → K) (val : R → V) rows :
  NoDup (dict_keys (dict_of key val rows)).
Proof. apply dict_of_from_NoDup. constructor. Qed.

Lemma dict_of_elem {R} (key : R → K) (val : R → V) rows k v :
  (k, v) ∈ dict_of key val rows → ∃ r, r ∈ rows ∧ key r = k ∧ val r = v.
Proof.
  unfold dict_of.
  enough (∀ d, (k, v) ∈ for_ rows (λ r, dict_set (key r) (val r)) d →
               (∃ r, r ∈ rows ∧ key r = k ∧ val r = v) ∨ (k, v) ∈ d) as H.
  { intros [?|?]%H; [done|set_solver]. }
  induction rows as [|r rows IH]; intros d; [auto|].
  rewrite for_cons. intros [(r' & ? & ?)|Hin]%IH.
  - left. exists r'. split; [by right|done].
  - apply elem_of_dict_set in Hin as [[-> ->]|?]; [|auto].
    left. exists r. split; [by left|done].
Qed.

(** The last row written for a key is the one that stays. *)
Lemma dict_of_last {R} (key : R → K) (val : R → V) pre r post :
  (∀ r', r' ∈ post → key r' ≠ key r) →
  dict_get (key r) (dict_of key val (pre ++ r :: post)) = Some (val r).
Proof.
  intros Hpost. unfold dict_of. rewrite for_app, for_cons.
  apply (for_inv (λ d, dict_get (key r) d = Some (val r))).
  - intros r' d Hr' Hd. rewrite dict_get_set_ne; [done|].
    intros E. by apply (Hpost r').
  - apply dict_get_set_eq.
Qed.

Lemma dict_of_keys {R} (key : R → K) (val : R → V) rows k :
  k ∈ dict_keys (dict_of key val rows) ↔ k ∈ key <$> rows.
Proof.
  unfold dict_of.
  enough (∀ d, k ∈ dict_keys (for_ rows (λ r, dict_set (key r) (val r)) d) ↔
               k ∈ key <$> rows ∨ k ∈ dict_keys d) as ->.
  { unfold dict_keys. set_solver. }
  induction rows as [|r rows IH]; intros d; [set_solver|].
  rewrite for_cons, IH, elem_of_dict_keys_set, fmap_cons. set_solver.
Qed.
End pydict_facts.

(** ** Models and their solutions *)

#[global] Instance model_le_preorder : PreOrder model_le.
Proof.
  split.
  - by intros m.
  - intros m1 m2 m3 [??] [??]. split; by etrans.
Qed.

Lemma NewIntVar_le lo hi nm m : model_le m (NewIntVar lo hi nm m).2.
Proof. split; cbn; [by apply prefix_app_r|done]. Qed.

Lemma Add_le c m : model_le m (Add c m).
Proof. split; cbn; [done|by apply prefix_app_r]. Qed.

Lemma Maximize_le obj m : model_le m (Maximize obj m).
Proof. by split. Qed.

Lemma Add_elem c m : c ∈ constraints (Add c m).
Proof. cbn. set_solver. Qed.

Lemma model_le_constraint m m' c :
  model_le m m' → c ∈ constraints m → c ∈ constraints m'.
Proof. intros [_ ?] ?. by eapply elem_of_prefix. Qed.

Lemma model_le_variable m m' i iv :
  model_le m m' → variables m !! i = Some iv → variables m' !! i = Some iv.
Proof. intros [? _] ?. by eapply prefix_lookup_Some. Qed.

Lemma NewIntVar_lookup lo hi nm m :
  variables (NewIntVar lo hi nm m).2 !! (NewIntVar lo hi nm m).1
  = Some {| lb := lo; ub := hi; name := nm |}.
Proof. cbn. by rewrite lookup_app_r, Nat.sub_diag. Qed.

Lemma accepted_spec m value :
  accepted m value ↔
    (∀ i iv, variables m !! i = Some iv → lb iv ≤ value i ≤ ub iv) ∧
    (∀ c, c ∈ constraints m → holds value c = true).
Proof.
  unfold accepted. rewrite !forallb_forall.
  apply Morphisms_Prop.and_iff_morphism.
  - split.
    + intros H i iv Hi. specialize (H (i, iv)).
      unfold in_domain in H. rewrite bool_decide_eq_true in H. apply H.
      apply list_elem_of_In, elem_of_lookup_imap. eauto.
    + intros H [i iv] (i' & iv' & ? & ?)%list_elem_of_In%elem_of_lookup_imap.
      simplify_eq. unfold in_domain. rewrite bool_decide_eq_true. cbn. eauto.
  - by setoid_rewrite list_elem_of_In.
Qed.

Lemma accepted_domain m value i iv :
  accepted m value → variables m !! i = Some iv → lb iv ≤ value i ≤ ub iv.
Proof. intros [H _]%accepted_spec. apply H. Qed.

Lemma accepted_holds m value c :
  accepted m value → c ∈ constraints m → holds value c = true.
Proof. intros [_ H]%accepted_spec. apply H. Qed.

Lemma accepted_le m m' value : model_le m m' → accepted m' value → accepted m value.
Proof.
  rewrite !accepted_spec. intros Hle [Hv Hc]. split.
  - intros i iv ?. apply Hv. by eapply model_le_variable.
  - intros c ?. apply Hc. by eapply model_le_constraint.
Qed.

Lemma bool_var_le m m' v : model_le m m' → bool_var m v → bool_var m' v.
Proof. intros ? [nm ?]. exists nm. by eapply model_le_variable. Qed.

Lemma slack_var_le m m' v : model_le m m' → slack_var m v → slack_var m' v.
Proof. intros ? [nm ?]. exists nm. by eapply model_le_variable. Qed.

Lemma bool_var_value m value v :
  accepted m value → bool_var m v → value v = 0 ∨ value v = 1.
Proof. intros Ha [nm Hv]. pose proof (accepted_domain _ _ _ _ Ha Hv) as H. cbn in H. lia. Qed.

Lemma slack_var_value m value v :
  accepted m value → slack_var m v → 0 ≤ value v ≤ 100.
Proof. intros Ha [nm Hv]. apply (accepted_domain _ _ _ _ Ha Hv). Qed.

(** The sum of boolean variables counts those set to 1. *)
Lemma eval_Sum_count m value vs :
  accepted m value → Forall (bool_var m) vs →
  eval value (Sum vs) = Z.of_nat (length (filter (λ v, value v = 1) vs)).
Proof.
  intros Ha. cbn. induction 1 as [|v vs Hv _ IH]; [done|].
  rewrite fmap_cons, filter_cons. cbn [foldr]. rewrite IH.
  destruct (bool_var_value _ _ _ Ha Hv) as [E|E]; rewrite E.
  - by rewrite decide_False.
  - rewrite decide_True by done. cbn [length]. lia.
Qed.

(** ** The variable space *)

Lemma create_x_flat t shifts days s :
  create_x t shifts days s = for_ (x_keys t shifts days) new_x s.
Proof.
  unfold create_x, x_keys. rewrite <-for_bind.
  apply for_ext; intros n s1 _. rewrite <-for_bind.
  apply for_ext; intros rid s2 _.
  destruct (feasible t n rid); [|done].
  rewrite <-for_bind. apply for_ext; intros sh s3 _. rewrite <-for_bind.
  apply for_ext; intros d [x model] _. done.
Qed.

Lemma elem_of_x_keys t shifts days n rid sh d :
  (n, rid, sh, d) ∈ x_keys t shifts days ↔
  n ∈ nurse_ids t ∧ rid ∈ room_ids t ∧ feasible t n rid = true ∧ sh ∈ shifts ∧ d ∈ days.
Proof.
  unfold x_keys. rewrite list_elem_of_bind. split.
  - intros (n' & (rid' & Hk & ?)%list_elem_of_bind & ?).
    destruct (feasible t n' rid') eqn:E; [|set_solver].
    apply list_elem_of_bind in Hk as (sh' & (d' & Hk & ?)%list_elem_of_bind & ?).
    apply list_elem_of_singleton in Hk. by simplify_eq.
  - intros (? & ? & E & ? & ?). exists n. split; [|done].
    apply list_elem_of_bind. exists rid. split; [|done]. rewrite E.
    apply list_elem_of_bind. exists sh. split; [|done].
    apply list_elem_of_bind. exists d. split; [|done]. by left.
Qed.

Lemma NoDup_x_keys t shifts days :
  NoDup (nurse_ids t) → NoDup (room_ids t) → NoDup shifts → NoDup days →
  NoDup (x_keys t shifts days).
Proof.
  intros Hn Hr Hs Hd. unfold x_keys.
  apply NoDup_bind; [| |done].
  { intros n1 n2 k _ _ (r1 & H1 & _)%list_elem_of_bind (r2 & H2 & _)%list_elem_of_bind.
    destruct (feasible t n1 r1); [|set_solver]. destruct (feasible t n2 r2); [|set_solver].
    apply list_elem_of_bind in H1 as (? & (? & ?%list_elem_of_singleton & _)%list_elem_of_bind & _).
    apply list_elem_of_bind in H2 as (? & (? & ?%list_elem_of_singleton & _)%list_elem_of_bind & _).
    by simplify_eq. }
  intros n _. apply NoDup_bind; [| |done].
  { intros r1 r2 k _ _ H1 H2.
    destruct (feasible t n r1); [|set_solver]. destruct (feasible t n r2); [|set_solver].
    apply list_elem_of_bind in H1 as (? & (? & ?%list_elem_of_singleton & _)%list_elem_of_bind & _).
    apply list_elem_of_bind in H2 as (? & (? & ?%list_elem_of_singleton & _)%list_elem_of_bind & _).
    by simplify_eq. }
  intros rid _. destruct (feasible t n rid); [|constructor].
  apply NoDup_bind; [| |done].
  { intros s1 s2 k _ _ (? & ?%list_elem_of_singleton & _)%list_elem_of_bind
      (? & ?%list_elem_of_singleton & _)%list_elem_of_bind. by simplify_eq. }
  intros sh _. apply NoDup_bind; [| |done].
  { intros d1 d2 k _ _ ?%list_elem_of_singleton ?%list_elem_of_singleton. by simplify_eq. }
  intros. apply NoDup_singleton.
Qed.

Lemma new_x_le k s : model_le s.2 (new_x k s).2.
Proof. destruct k as [[[n rid] sh] d], s as [x m]. apply NewIntVar_le. Qed.

Lemma new_x_ok k s : x_ok s → x_ok (new_x k s).
Proof.
  destruct k as [[[n rid] sh] d], s as [x m]. intros [Hnd Hx]. split.
  - by apply NoDup_dict_keys_set.
  - intros k v. cbn. rewrite dict_get_set. case_decide.
    + intros [= <-]. eexists. apply (NewIntVar_lookup 0 1 _ m).
    + intros ?%Hx. eapply bool_var_le; [|done]. apply NewIntVar_le.
Qed.

Lemma new_x_keys k k' s :
  k' ∈ dict_keys (new_x k s).1 ↔ k' = k ∨ k' ∈ dict_keys s.1.
Proof. destruct k as [[[n rid] sh] d], s as [x m]. apply elem_of_dict_keys_set. Qed.

Lemma create_x_ok t shifts days s : x_ok s → x_ok (create_x t shifts days s).
Proof. rewrite create_x_flat. apply for_inv. intros. by apply new_x_ok. Qed.

Lemma create_x_le t shifts days s : model_le s.2 (create_x t shifts days s).2.
Proof.
  rewrite create_x_flat. apply (for_inv (λ s', model_le s.2 s'.2)); [|done].
  intros k s' _ ?. etrans; [done|]. apply new_x_le.
Qed.

Lemma create_x_keys t shifts days s k :
  k ∈ dict_keys (create_x t shifts days s).1 ↔
  k ∈ x_keys t shifts days ∨ k ∈ dict_keys s.1.
Proof.
  rewrite create_x_flat. generalize (x_keys t shifts days). intros l. revert s.
  induction l as [|k' l IH]; intros s; [set_solver|].
  rewrite for_cons, IH, new_x_keys. set_solver.
Qed.

Lemma create_x_keys_NoDup t shifts days s :
  NoDup (dict_keys s.1 ++ x_keys t shifts days) →
  dict_keys (create_x t shifts days s).1 = dict_keys s.1 ++ x_keys t shifts days.
Proof.
  rewrite create_x_flat. generalize (x_keys t shifts days). intros l. revert s.
  induction l as [|k l IH]; intros s Hnd; [by rewrite app_nil_r|].
  assert (dict_keys (new_x k s).1 = dict_keys s.1 ++ [k]) as E.
  { destruct k as [[[n rid] sh] d], s as [x m]. cbn.
    rewrite dict_set_fresh; [by unfold dict_keys; rewrite fmap_app|].
    apply NoDup_app in Hnd as (_ & Hnd & _). intros ?%Hnd. set_solver. }
  rewrite for_cons, IH, E, <-app_assoc; [done|].
  by rewrite E, <-app_assoc.
Qed.

Lemma length_bind_const {A B} (f : A → list B) (l : list A) c :
  (∀ a, a ∈ l → length (f a) = c) → length (l ≫= f) = (length l * c)%nat.
Proof.
  induction l as [|a l IH]; intros H; [done|].
  change ((a :: l) ≫= f) with (f a ++ (l ≫= f)).
  rewrite length_app, H, IH; [done| |by left]. intros; apply H; by right.
Qed.

Lemma length_x_keys t shifts days :
  length (x_keys t shifts days) =
  (length days * length shifts * sum_list (feasible_count t <$> room_ids t))%nat.
Proof.
  unfold x_keys, feasible_count. generalize (room_ids t). intros rooms.
  induction (nurse_ids t) as [|n ns IH].
  { cbn. induction rooms as [|r rooms IHr]; cbn in *; lia. }
  change ((n :: ns) ≫= ?f) with (f n ++ (ns ≫= f)).
  rewrite length_app, IH. clear IH.
  induction rooms as [|r rooms IHr]; [cbn; lia|].
  change ((r :: rooms) ≫= ?f) with (f r ++ (rooms ≫= f)).
  rewrite length_app, !fmap_cons. cbn [sum_list sum_list_with].
  rewrite filter_cons.
  destruct (feasible t n r) eqn:E.
  - rewrite decide_True by done. cbn [length].
    rewrite (length_bind_const _ _ (length days)).
    2:{ intros. rewrite (length_bind_const _ _ 1%nat); [lia|done]. }
    rewrite (Nat.mul_comm (length shifts)).
    revert IHr. generalize (length days * length shifts)%nat. intros c IHr. unfold sum_list, id in *. lia.
  - rewrite decide_False by done. cbn [length].
    revert IHr. generalize (length days * length shifts)%nat. intros c IHr. unfold sum_list, id in *. lia.
Qed.

Lemma feasible_spec t n rid :
  feasible t n rid = true ↔ dict_at rid (req_by_room t) ⊆ dict_at n (qual_by_nurse t).
Proof. apply bool_decide_eq_true. Qed.

(** C1. For every nurse, room, selected shift and selected day, the boolean
    variable x[n, r, s, d] exists exactly when the room's required
    qualifications are a subset of the nurse's qualifications; with distinct
    nurse ids, room ids, shifts and days the number of decision variables is
    |days| * |shifts| * the sum over the rooms of the number of nurses feasible
    for the room. *)
Theorem variable_exists_iff_feasible (t : tables) (shifts days : list string) :
  let s := create_x t shifts days ([], new_model) in
  (∀ n rid sh d,
     n ∈ nurse_ids t → rid ∈ room_ids t → sh ∈ shifts → d ∈ days →
     (∃ v, dict_get (n, rid, sh, d) s.1 = Some v ∧ bool_var s.2 v) ↔
     dict_at rid (req_by_room t) ⊆ dict_at n (qual_by_nurse t)) ∧
  (NoDup (nurse_ids t) → NoDup (room_ids t) → NoDup shifts → NoDup days →
   length s.1 =
   (length days * length shifts * sum_list (feasible_count t <$> room_ids t))%nat).
Proof.
  intros s. split.
  - intros n rid sh d Hn Hr Hs Hd.
    pose proof (create_x_ok t shifts days ([], new_model)) as [_ Hb].
    { split; [constructor|done]. }
    pose proof (create_x_keys t shifts days ([], new_model) (n, rid, sh, d)) as Hk.
    rewrite elem_of_x_keys, <-dict_get_is_Some, feasible_spec in Hk. fold s in Hk, Hb.
    split.
    + intros (v & Hv & _). destruct Hk as [[Hk|Hk] _]; [by eexists|tauto|].
      cbn in Hk. set_solver.
    + intros Hf. destruct Hk as [_ [v Hv]]; [left; tauto|].
      exists v. split; [done|]. by eapply Hb.
  - intros Hn Hr Hs Hd.
    pose proof (create_x_keys_NoDup t shifts days ([], new_model)) as Hk.
    cbn [fst dict_keys fmap list_fmap app] in Hk. fold s in Hk.
    rewrite <-length_x_keys, <-Hk; [by unfold dict_keys; rewrite length_fmap|].
    by apply NoDup_x_keys.
Qed.

(** ** Every stage extends the model *)
Lemma add_max_per_day_le t days x m : model_le m (add_max_per_day t days x m).
Proof.
  apply (for_inv (model_le m)); [|done].
  intros n m1 _ ?. apply (for_inv (model_le m)); [|done].
  intros d m2 _ ?. etrans; [done|]. cbv beta zeta.
  destruct (truthy _); [apply Add_le|done].
Qed.

Lemma add_max_per_week_le t x m : model_le m (add_max_per_week t x m).
Proof.
  apply (for_inv (model_le m)); [|done].
  intros n m' _ ?. etrans; [done|]. cbv beta zeta.
  destruct (truthy _); [apply Add_le|done].
Qed.

Lemma elem_of_slots t days shifts d rid sh :
  (d, rid, sh) ∈ slots t days shifts ↔ d ∈ days ∧ rid ∈ room_ids t ∧ sh ∈ shifts.
Proof.
  unfold slots. rewrite list_elem_of_bind. split.
  - intros (d' & (rid' & (sh' & Hk & ?)%list_elem_of_bind & ?)%list_elem_of_bind & ?).
    apply list_elem_of_singleton in Hk. by simplify_eq.
  - intros (? & ? & ?). exists d. split; [|done].
    apply list_elem_of_bind. exists rid. split; [|done].
    apply list_elem_of_bind. exists sh. split; [|done]. by left.
Qed.

Lemma length_slots t days shifts :
  length (slots t days shifts) = (length days * length (room_ids t) * length shifts)%nat.
Proof.
  unfold slots. rewrite (length_bind_const _ _ (length (room_ids t) * length shifts)); [lia|].
  intros. apply length_bind_const. intros.
  rewrite (length_bind_const _ _ 1%nat); [lia|done].
Qed.

Lemma add_coverage_flat t days shifts allow x s :
  add_coverage t days shifts allow x s = for_ (slots t days shifts) (cover t allow x) s.
Proof.
  unfold add_coverage, slots. rewrite <-for_bind.
  apply for_ext; intros d s1 _. rewrite <-for_bind.
  apply for_ext; intros rid s2 _. rewrite <-for_bind.
  apply for_ext; intros sh s3 _.
  unfold cover, coverage_constraint, assigned_sum, assigned_vars. cbn.
  by destruct allow.
Qed.

Lemma cover_le t allow x k s : model_le (cov_model s) (cov_model (cover t allow x k s)).
Proof.
  destruct k as [[d rid] sh]. unfold cover. cbn [cov_model].
  etrans; [|apply Add_le]. destruct allow.
  - etrans; apply NewIntVar_le.
  - apply NewIntVar_le.
Qed.

Lemma add_coverage_le t days shifts allow x s :
  model_le (cov_model s) (cov_model (add_coverage t days shifts allow x s)).
Proof.
  rewrite add_coverage_flat.
  apply (for_inv (λ s', model_le (cov_model s) (cov_model s'))); [|done].
  intros k s' _ ?. etrans; [done|]. apply cover_le.
Qed.

Lemma rest_step_le x inv_day n i m m' : rest_step x inv_day n i m = Ok m' → model_le m m'.
Proof.
  unfold rest_step. destruct (getitem pretty i inv_day); [|done].
  destruct (getitem pretty (i + 1)%nat inv_day); [|done]. cbn.
  destruct (_ && _); intros [= <-]; [apply Add_le|done].
Qed.

Lemma add_rest_rule_le t days shifts enforce x m m' :
  add_rest_rule t days shifts enforce x m = Ok m' → model_le m m'.
Proof.
  unfold add_rest_rule. destruct (_ && _); [|by intros [= <-]].
  intros H. eapply (for_M_inv (model_le m)); [|exact H|done].
  intros n m1 m2 _ H1 ?. eapply (for_M_inv (model_le m)); [|exact H1|done].
  intros i m3 m4 _ H3 ?. etrans; [done|]. by eapply rest_step_le.
Qed.

Lemma add_charge_le t days shifts tags x m : model_le m (add_charge t days shifts tags x m).
Proof.
  unfold add_charge. destruct (_ && _); [|done].
  apply (for_inv (model_le m)); [|done].
  intros d m1 _ ?. apply (for_inv (model_le m)); [|done].
  intros sh m2 _ ?. etrans; [done|]. cbv beta zeta.
  case_bool_decide; [done|]. destruct (truthy _); [apply Add_le|done].
Qed.

Lemma add_cnor_le t days shifts req x m : model_le m (add_cnor t days shifts req x m).
Proof.
  unfold add_cnor. destruct req; [|done].
  apply (for_inv (model_le m)); [|done].
  intros d m1 _ ?. apply (for_inv (model_le m)); [|done].
  intros rid m2 _ ?. apply (for_inv (model_le m)); [|done].
  intros sh m3 _ ?. etrans; [done|]. cbv beta zeta.
  case_bool_decide; [done|]. destruct (truthy _); [apply Add_le|done].
Qed.

Lemma add_lock_le x item m m' : add_lock x item m = Ok m' → model_le m m'.
Proof.
  destruct item as [[[[d sh] rid] n] locked]. unfold add_lock.
  case_bool_decide; [by intros [= <-]|].
  destruct (dict_get _ x); intros [= <-]. apply Add_le.
Qed.

Lemma add_locks_le t x m m' : add_locks t x m = Ok m' → model_le m m'.
Proof.
  intros H. eapply (for_M_inv (model_le m)); [|exact H|done].
  intros item m1 m2 _ ? ?. etrans; [done|]. by eapply add_lock_le.
Qed.

Lemma add_fairness_le t target x m : model_le m (fair_model (add_fairness t target x m)).
Proof.
  unfold add_fairness. destruct target as [target|]; [|done].
  apply (for_inv (λ s, model_le m (fair_model s))); [|done].
  intros n s _ ?. etrans; [done|].
  split; cbn; by repeat apply prefix_app_r.
Qed.

(** ** The stages of [build] *)
Lemma bind_Ok {A B} (r : result A) (k : A → result B) b :
  r ≫= k = Ok b → ∃ a, r = Ok a ∧ k a = Ok b.
Proof. destruct r as [a|e]; [by exists a|done]. Qed.

Lemma build_stages inp t b :
  build inp t = Ok b →
  ∃ m_rest m_locks,
    stage_rest inp t = Ok m_rest ∧
    add_locks t (stage_x inp t).1 (stage_roles inp t m_rest) = Ok m_locks ∧
    model_le m_locks (model b) ∧
    x b = (stage_x inp t).1 ∧
    slack_under b = understaff (stage_coverage inp t) ∧
    slack_over b = overstaff (stage_coverage inp t).
Proof.
  unfold build, stage_rest, stage_roles, stage_coverage, stage_caps.
  change (create_x t (shifts inp) (days inp) ([], new_model)) with (stage_x inp t).
  destruct (stage_x inp t) as [x0 m0]. cbn [fst snd].
  intros (m_rest & Hr & H)%bind_Ok. apply bind_Ok in H as (m_locks & Hl & H).
  injection H as <-. exists m_rest, m_locks. split_and!; try done.
  etrans; [apply add_fairness_le|apply Maximize_le].
Qed.

Lemma stage_x_ok inp t : x_ok (stage_x inp t).
Proof. apply create_x_ok. split; [constructor|done]. Qed.

Lemma stage_x_le_caps inp t : model_le (stage_x inp t).2 (stage_caps inp t).
Proof. etrans; [apply add_max_per_day_le|apply add_max_per_week_le]. Qed.

Lemma stage_caps_le_coverage inp t :
  model_le (stage_caps inp t) (cov_model (stage_coverage inp t)).
Proof. apply (add_coverage_le _ _ _ _ _ {| cov_model := stage_caps inp t |}). Qed.

Lemma stage_coverage_le_build inp t b :
  build inp t = Ok b → model_le (cov_model (stage_coverage inp t)) (model b).
Proof.
  intros (m_rest & m_locks & Hr & Hl & Hle & _)%build_stages.
  etrans; [by eapply add_rest_rule_le|].
  etrans; [|done]. etrans; [|by eapply add_locks_le].
  etrans; [apply add_charge_le|apply add_cnor_le].
Qed.

(** In a built model every decision variable is boolean. *)
Lemma build_x_bool inp t b k v :
  build inp t = Ok b → dict_get k (x b) = Some v → bool_var (model b) v.
Proof.
  intros Hb Hv. pose proof (build_stages _ _ _ Hb) as (_ & _ & _ & _ & _ & Hx & _).
  rewrite Hx in Hv. apply stage_x_ok in Hv.
  eapply bool_var_le; [|done].
  etrans; [apply stage_x_le_caps|]. etrans; [apply stage_caps_le_coverage|].
  by apply stage_coverage_le_build.
Qed.

(** ** Coverage *)
Lemma dict_at_Some {K V} `{EqDecision K, Inhabited V} (k : K) (d : dict K V) v :
  dict_get k d = Some v → dict_at k d = v.
Proof. unfold dict_at. by intros ->. Qed.

Lemma for_collect {A} (p : A → bool) (l acc : list A) :
  for_ l (λ a acc, if p a then acc ++ [a] else acc) acc = acc ++ filter (λ a, p a = true) l.
Proof.
  revert acc. induction l as [|a l IH]; intros acc; [by rewrite app_nil_r|].
  rewrite for_cons, IH, filter_cons. destruct (p a).
  - rewrite decide_True by done. by rewrite <-app_assoc.
  - by rewrite decide_False by done.
Qed.

Lemma assigned_nurses_filter t x value d rid sh :
  assigned_nurses t x value d rid sh
  = filter (λ n, assigned x value (n, rid, sh, d) = true) (nurse_ids t).
Proof.
  unfold assigned_nurses.
  rewrite <-(app_nil_l (filter _ _)), <-(for_collect (λ n, assigned x value (n, rid, sh, d))).
  apply for_ext. intros n acc _. unfold assigned. by destruct (dict_get _ x).
Qed.

(** In a solution the coverage sum of a slot is the number of nurses listed
    for it. *)
Lemma eval_assigned_sum t x m value d rid sh :
  accepted m value → (∀ k v, dict_get k x = Some v → bool_var m v) →
  eval value (assigned_sum t x (d, rid, sh))
  = Z.of_nat (length (assigned_nurses t x value d rid sh)).
Proof.
  intros Ha Hx. rewrite assigned_nurses_filter.
  assert (eval value (assigned_sum t x (d, rid, sh))
          = eval value (Sum (assigned_vars t x (d, rid, sh)))) as ->.
  { unfold assigned_sum. by destruct (assigned_vars _ _ _). }
  rewrite (eval_Sum_count m) by
    (try done; apply Forall_forall; intros v (n & _ & ?)%list_elem_of_omap; eauto).
  f_equal. unfold assigned_vars, assigned. cbn [fst snd].
  induction (nurse_ids t) as [|n ns IH]; [done|].
  cbn [omap list_omap]. rewrite (filter_cons _ n).
  destruct (dict_get (n, rid, sh, d) x) as [v|].
  - rewrite filter_cons. case_bool_decide.
    + rewrite !decide_True by done. cbn [length]. by rewrite IH.
    + by rewrite !decide_False by done.
  - by rewrite decide_False by done.
Qed.

Lemma cover_ok t allow x k s : coverage_ok t allow x s → coverage_ok t allow x (cover t allow x k s).
Proof.
  intros Hs k' u'. pose proof (cover_le t allow x k s) as Hle.
  destruct k as [[d rid] sh]. unfold cover in *. cbn [understaff].
  rewrite dict_get_set. case_decide as Hk.
  - subst k'. intros [= <-]. split.
    + eapply slack_var_le; [|eexists; apply NewIntVar_lookup].
      cbn [cov_model]. etrans; [|apply Add_le]. destruct allow; [apply NewIntVar_le|done].
    + eexists. split; [|apply Add_elem].
      intros ->. cbn [overstaff cov_model]. rewrite dict_get_set_eq. split; [done|].
      eapply slack_var_le; [apply Add_le|]. eexists. apply NewIntVar_lookup.
  - intros (Hu & o & Ho & Hc)%Hs. split; [by eapply slack_var_le|].
    exists o. split; [|by eapply model_le_constraint].
    intros ->. cbn [overstaff]. rewrite dict_get_set_ne by done.
    destruct Ho as [? ?]; [done|]. split; [done|]. by eapply slack_var_le.
Qed.

Lemma add_coverage_ok t days shifts allow x s :
  coverage_ok t allow x s → coverage_ok t allow x (add_coverage t days shifts allow x s).
Proof. rewrite add_coverage_flat. apply for_inv. intros. by apply cover_ok. Qed.

Lemma add_coverage_keys t days shifts allow x s k :
  k ∈ slots t days shifts →
  is_Some (dict_get k (understaff (add_coverage t days shifts allow x s))).
Proof.
  intros Hk. rewrite add_coverage_flat.
  apply (for_reach (λ _, True) (λ s, is_Some (dict_get k (understaff s))) _ _ k); try done.
  - intros [[d rid] sh] s' _ _ Hs'. cbn. rewrite dict_get_set. by case_decide.
  - intros s' _. destruct k as [[d rid] sh]. cbn. by rewrite dict_get_set_eq.
Qed.

Lemma stage_coverage_slot inp t d rid sh :
  d ∈ days inp → rid ∈ room_ids t → sh ∈ shifts inp →
  ∃ u, dict_get (d, rid, sh) (understaff (stage_coverage inp t)) = Some u ∧
       slot_ok t (allow_overstaff inp) (stage_x inp t).1 (stage_coverage inp t) (d, rid, sh) u.
Proof.
  intros Hd Hr Hs.
  destruct (add_coverage_keys t (days inp) (shifts inp) (allow_overstaff inp)
              (stage_x inp t).1
              {| understaff := []; overstaff := []; cov_model := stage_caps inp t |}
              (d, rid, sh)) as [u Hu].
  { by apply elem_of_slots. }
  exists u. split; [done|]. by apply add_coverage_ok in Hu.
Qed.

(** The coverage equation of a slot in a solution of a built model, with the
    slack variables the result reports for the slot. *)
Lemma slot_solution inp t b value d rid sh :
  build inp t = Ok b →
  accepted (model b) value →
  d ∈ days inp → rid ∈ room_ids t → sh ∈ shifts inp →
  ∃ u o,
    dict_get (d, rid, sh) (slack_under b) = Some u ∧
    0 ≤ value u ≤ 100 ∧
    (allow_overstaff inp = true →
     dict_get (d, rid, sh) (slack_over b) = Some o ∧ 0 ≤ value o ≤ 100) ∧
    Z.of_nat (length (assigned_nurses t (x b) value d rid sh)) + value u
    - (if allow_overstaff inp then value o else 0)
    = dict_at (d, rid, sh) (demand t).
Proof.
  intros Hb Ha Hd Hr Hs.
  pose proof (build_stages _ _ _ Hb) as (_ & _ & _ & _ & _ & Hx & Hu & Ho).
  pose proof (stage_coverage_le_build _ _ _ Hb) as Hle.
  destruct (stage_coverage_slot inp t d rid sh) as (u & Eu & Hsu & o & Hso & Hc); try done.
  apply (model_le_constraint _ _ _ Hle), (accepted_holds _ _ _ Ha) in Hc.
  apply (slack_var_le _ _ _ Hle), (slack_var_value _ _ _ Ha) in Hsu.
  exists u, o. rewrite Hu, Ho, Hx.
  assert (eval value (assigned_sum t (stage_x inp t).1 (d, rid, sh))
          = Z.of_nat (length (assigned_nurses t (stage_x inp t).1 value d rid sh))) as Es.
  { apply (eval_assigned_sum _ _ (model b)); [done|].
    intros k v Hv. eapply build_x_bool; [done|by rewrite Hx]. }
  rewrite <-Es. unfold coverage_constraint in Hc.
  split; [done|]. split; [exact Hsu|]. split.
  - intros Eo. destruct Hso as [? Hso]; [done|]. split; [done|].
    by apply (slack_var_le _ _ _ Hle), (slack_var_value _ _ _ Ha) in Hso.
  - destruct (allow_overstaff inp); cbn in Hc; apply bool_decide_eq_true in Hc; lia.
Qed.

(** C2. For every slot of the selected horizon, every accepted solution
    satisfies assigned_count + understaff - overstaff = demand when
    overstaffing is permitted and assigned_count + understaff = demand when it
    is not; in the latter case assigned_count <= demand. *)
Theorem coverage_balance (inp : inputs) (t : tables) (b : built) (value : nat → Z)
    (d rid sh : string) :
  normalize inp = Ok t →
  build inp t = Ok b →
  accepted (model b) value →
  d ∈ days inp → rid ∈ room_ids t → sh ∈ shifts inp →
  let assigned_count := Z.of_nat (length (assigned_nurses t (x b) value d rid sh)) in
  let under := value (dict_at (d, rid, sh) (slack_under b)) in
  let over := value (dict_at (d, rid, sh) (slack_over b)) in
  if allow_overstaff inp
  then assigned_count + under - over = dict_at (d, rid, sh) (demand t)
  else assigned_count + under = dict_at (d, rid, sh) (demand t) ∧
       assigned_count ≤ dict_at (d, rid, sh) (demand t).
Proof.
  intros _ Hb Ha Hd Hr Hs.
  destruct (slot_solution inp t b value d rid sh) as (u & o & Eu & Hu & Ho & Heq); try done.
  cbv zeta. rewrite (dict_at_Some _ _ _ Eu).
  destruct (allow_overstaff inp).
  - destruct Ho as [Eo _]; [done|]. by rewrite (dict_at_Some _ _ _ Eo).
  - lia.
Qed.

(** ** Workload caps *)

(** A loop of a stage that only extends the model keeps the constraint one of
    its iterations adds. *)
Lemma for_adds {A} (l : list A) (body : A → CpModel → CpModel) a c m :
  a ∈ l →
  (∀ a' m', model_le m' (body a' m')) →
  (∀ m', c ∈ constraints (body a m')) →
  c ∈ constraints (for_ l body m).
Proof.
  intros Ha Hle Hc.
  apply (for_reach (λ _, True) (λ m, c ∈ constraints m) l body a); try done.
  intros a' m' _ _ ?. eapply model_le_constraint; [apply Hle|done].
Qed.

Lemma if_Add_le (cond : bool) c m : model_le m (if cond then Add c m else m).
Proof. destruct cond; [apply Add_le|done]. Qed.

Lemma for_model_le {A} (l : list A) (body : A → CpModel → CpModel) m :
  (∀ a' m', model_le m' (body a' m')) → model_le m (for_ l body m).
Proof.
  intros Hle. apply (for_inv (model_le m)); [|done].
  intros a m' _ ?. by etrans.
Qed.

Lemma length_filter_x_vars (x : dict key4 nat) (value : nat → Z) (P : key4 → Prop)
    `{∀ k, Decision (P k)} :
  length (filter (λ v, value v = 1) (x_vars x (λ k, bool_decide (P k))))
  = length (filter P (assignments x value)).
Proof.
  unfold x_vars, assignments. induction x as [|[k v] x IH]; [done|].
  rewrite !(filter_cons _ (k, v)). cbn [fst snd].
  destruct (decide (bool_decide (P k) = true)) as [Hp|Hp];
    destruct (decide (value v = 1)) as [Hv|Hv];
    rewrite ?fmap_cons, ?filter_cons; cbn [fst snd].
  - apply bool_decide_eq_true in Hp. rewrite !decide_True by done. cbn [length].
    f_equal. apply IH.
  - rewrite decide_False by done. apply IH.
  - rewrite decide_False; [apply IH|]. by rewrite bool_decide_eq_true in Hp.
  - apply IH.
Qed.

Lemma x_vars_elem x P v : v ∈ x_vars x P → ∃ k, (k, v) ∈ x ∧ P k = true.
Proof.
  unfold x_vars. intros ([k v'] & -> & [? ?]%list_elem_of_filter)%list_elem_of_fmap.
  by exists k.
Qed.

Lemma stage_x_elem inp t n rid sh d v :
  ((n, rid, sh, d), v) ∈ (stage_x inp t).1 →
  n ∈ nurse_ids t ∧ rid ∈ room_ids t ∧ feasible t n rid = true ∧
  sh ∈ shifts inp ∧ d ∈ days inp ∧ dict_get (n, rid, sh, d) (stage_x inp t).1 = Some v.
Proof.
  intros Hin. pose proof (stage_x_ok inp t) as [Hnd _].
  pose proof (dict_elem_get _ _ _ Hnd Hin) as Hg.
  assert ((n, rid, sh, d) ∈ dict_keys (stage_x inp t).1) as Hk
    by (apply dict_get_is_Some; eauto).
  apply create_x_keys in Hk as [Hk|Hk]; [|by cbn in Hk; set_solver].
  apply elem_of_x_keys in Hk. naive_solver.
Qed.

Lemma x_vars_bool inp t b P :
  build inp t = Ok b → Forall (bool_var (model b)) (x_vars (x b) P).
Proof.
  intros Hb. apply Forall_forall. intros v (k & Hk & _)%x_vars_elem.
  pose proof (build_stages _ _ _ Hb) as (_ & _ & _ & _ & _ & Hx & _).
  eapply (build_x_bool _ _ _ k); [done|]. rewrite Hx in *.
  apply dict_elem_get; [apply stage_x_ok|done].
Qed.

Lemma max_per_day_constraint t days x m n d :
  n ∈ nurse_ids t → d ∈ days →
  let vars_nd := x_vars x (λ k, bool_decide (k.1.1.1 = n ∧ k.2 = d)) in
  truthy vars_nd = true →
  Le (Sum vars_nd) (Const (dict_at n (max_per_day t)))
    ∈ constraints (add_max_per_day t days x m).
Proof.
  intros Hn Hd vars_nd Hv. unfold add_max_per_day.
  apply (for_adds _ _ n); [done| |].
  - intros n' m'. apply for_model_le. intros d' m''. cbv beta zeta.
    apply if_Add_le.
  - intros m'. apply (for_adds _ _ d); [done| |].
    + intros d' m''. cbv beta zeta. apply if_Add_le.
    + intros m''. cbv beta zeta. fold vars_nd. rewrite Hv. apply Add_elem.
Qed.

Lemma max_per_week_constraint t x m n :
  n ∈ nurse_ids t →
  let vars_n := x_vars x (λ k, bool_decide (k.1.1.1 = n)) in
  truthy vars_n = true →
  Le (Sum vars_n) (Const (dict_at n (max_per_week t)))
    ∈ constraints (add_max_per_week t x m).
Proof.
  intros Hn vars_n Hv. unfold add_max_per_week.
  apply (for_adds _ _ n); [done| |].
  - intros n' m'. cbv beta zeta. apply if_Add_le.
  - intros m'. cbv beta zeta. fold vars_n. rewrite Hv. apply Add_elem.
Qed.

Lemma truthy_elem {A} (l : list A) : truthy l = true → ∃ a, a ∈ l.
Proof. destruct l as [|a l]; [done|]. exists a. by left. Qed.

Lemma truthy_false {A} (l : list A) : truthy l = false → l = [].
Proof. by destruct l. Qed.

(** C4. In every accepted solution, for every nurse (whose caps are not
    negative), the number of assignments on each single day is at most the
    nurse's max_shifts_per_day, and the number of assignments over all selected
    days, rooms and shifts is at most the nurse's max_shifts_per_week. *)
Theorem workload_caps (inp : inputs) (t : tables) (b : built) (value : nat → Z)
    (n : string) :
  normalize inp = Ok t →
  build inp t = Ok b →
  accepted (model b) value →
  0 ≤ dict_at n (max_per_day t) →
  0 ≤ dict_at n (max_per_week t) →
  (∀ d, Z.of_nat (shifts_on_day (x b) value n d) ≤ dict_at n (max_per_day t)) ∧
  Z.of_nat (shifts_in_week (x b) value n) ≤ dict_at n (max_per_week t).
Proof.
  intros _ Hb Ha Hday Hweek.
  pose proof (build_stages _ _ _ Hb) as (_ & _ & _ & _ & _ & Hx & _).
  assert (model_le (stage_caps inp t) (model b)) as Hle.
  { etrans; [apply stage_caps_le_coverage|by apply stage_coverage_le_build]. }
  split.
  - intros d. unfold shifts_on_day.
    rewrite <-(length_filter_x_vars _ _ (λ k : key4, k.1.1.1 = n ∧ k.2 = d)).
    rewrite <-(eval_Sum_count (model b)) by (try done; by eapply x_vars_bool).
    destruct (truthy (x_vars (x b) (λ k, bool_decide (k.1.1.1 = n ∧ k.2 = d)))) eqn:Et.
    + pose proof Et as (v & ([[[n' rid] sh] d'] & Hin & Hp)%x_vars_elem)%truthy_elem.
      apply bool_decide_eq_true in Hp as [? ?]. cbn in * |-. subst n' d'.
      rewrite Hx in Hin, Et. apply stage_x_elem in Hin as (Hn & _ & _ & _ & Hd & _).
      pose proof (max_per_day_constraint t (days inp) (stage_x inp t).1
                    (stage_x inp t).2 n d Hn Hd Et) as Hc.
      eapply model_le_constraint in Hc; [|apply add_max_per_week_le].
      eapply model_le_constraint, (accepted_holds _ _ _ Ha) in Hc; [|exact Hle].
      rewrite Hx. cbn [holds] in Hc. by apply bool_decide_eq_true in Hc.
    + by rewrite (truthy_false _ Et).
  - unfold shifts_in_week.
    rewrite <-(length_filter_x_vars _ _ (λ k : key4, k.1.1.1 = n)).
    rewrite <-(eval_Sum_count (model b)) by (try done; by eapply x_vars_bool).
    destruct (truthy (x_vars (x b) (λ k, bool_decide (k.1.1.1 = n)))) eqn:Et.
    + pose proof Et as (v & ([[[n' rid] sh] d'] & Hin & Hp)%x_vars_elem)%truthy_elem.
      apply bool_decide_eq_true in Hp. cbn in * |-. subst n'.
      rewrite Hx in Hin, Et. apply stage_x_elem in Hin as (Hn & _).
      pose proof (max_per_week_constraint t (stage_x inp t).1
                    (add_max_per_day t (days inp) (stage_x inp t).1 (stage_x inp t).2)
                    n Hn Et) as Hc.
      eapply model_le_constraint, (accepted_holds _ _ _ Ha) in Hc; [|exact Hle].
      rewrite Hx. cbn [holds] in Hc. by apply bool_decide_eq_true in Hc.
    + by rewrite (truthy_false _ Et).
Qed.

(** ** Rest rule *)
Lemma for_M_adds {A} (l : list A) (body : A → CpModel → result CpModel) a
    (Q : CpModel → Prop) m m' :
  a ∈ l →
  (∀ a' m1 m2, body a' m1 = Ok m2 → model_le m1 m2) →
  (∀ m1 m2, model_le m1 m2 → Q m1 → Q m2) →
  (∀ m1 m2, body a m1 = Ok m2 → Q m2) →
  for_M l body m = Ok m' → Q m'.
Proof.
  intros Ha Hle Hmono Hq Hl.
  apply (for_M_reach (λ _, True) Q l body a m m'); try done.
  - intros a' m1 m2 _ Hb _ ?. eapply Hmono; [|done]. by eapply Hle.
  - intros m1 m2 Hb _. by eapply Hq.
Qed.

Lemma for_M_model_le {A} (l : list A) (body : A → CpModel → result CpModel) m m' :
  (∀ a' m1 m2, body a' m1 = Ok m2 → model_le m1 m2) →
  for_M l body m = Ok m' → model_le m m'.
Proof.
  intros Hle Hl. eapply (for_M_inv (model_le m)); [|exact Hl|done].
  intros a m1 m2 _ ? ?. etrans; [done|]. by eapply Hle.
Qed.

(** Whatever [inv_day] holds at an index is the day selected at that index. *)
Lemma inv_day_lookup days i d : dict_get i (inv_day days) = Some d → days !! i = Some d.
Proof.
  intros ([d' i'] & Hin & ? & ?)%dict_get_elem%dict_of_elem. cbn in *. subst d' i'.
  apply dict_of_elem in Hin as ([i' d'] & Hin & ? & ?). cbn in *. subst d' i'.
  apply elem_of_lookup_imap in Hin as (i' & d' & ? & ?). by simplify_eq.
Qed.

Lemma rest_done_le x inv n i m m' :
  model_le m m' → rest_done x inv n i m → rest_done x inv n i m'.
Proof.
  intros Hle (d & d_next & ? & ? & Hc). exists d, d_next.
  split_and!; [done..|]. intros ??. eapply model_le_constraint; [done|]. by apply Hc.
Qed.

Lemma rest_step_spec x inv n i m m' :
  rest_step x inv n i m = Ok m' → rest_done x inv n i m'.
Proof.
  unfold rest_step, getitem, rest_done.
  destruct (dict_get i inv) as [d|]; [|done].
  destruct (dict_get (i + 1)%nat inv) as [d_next|]; [|done]. cbn.
  intros Hm. exists d, d_next. split_and!; [done..|].
  intros E1 E2. rewrite E1, E2 in Hm. cbn in Hm. injection Hm as <-. apply Add_elem.
Qed.

Lemma add_rest_rule_spec t days shifts x m m' n i :
  add_rest_rule t days shifts true x m = Ok m' →
  "Night" ∈ shifts → "Day" ∈ shifts →
  n ∈ nurse_ids t → (i + 1 < length days)%nat →
  rest_done x (inv_day days) n i m'.
Proof.
  unfold add_rest_rule. intros Hm Hn Hd Hin Hi.
  rewrite !bool_decide_eq_true_2 in Hm by done. cbn [andb] in Hm.
  change (for_M (nurse_ids t)
            (λ n, for_M (seq 0 (length days - 1)) (rest_step x (inv_day days) n)) m = Ok m')
    in Hm.
  revert Hm.
  apply (for_M_adds _ _ n (rest_done x (inv_day days) n i)); [done| | |].
  - intros n' m1 m2. apply for_M_model_le. intros i' ??. apply rest_step_le.
  - intros m1 m2. apply rest_done_le.
  - intros m1 m2.
    apply (for_M_adds _ _ i (rest_done x (inv_day days) n i)).
    + apply elem_of_seq. lia.
    + intros i' ??. apply rest_step_le.
    + intros m3 m4. apply rest_done_le.
    + intros m3 m4. apply rest_step_spec.
Qed.

Lemma truthy_intro {A} (l : list A) a : a ∈ l → truthy l = true.
Proof. destruct l; [by intros ?%elem_of_nil|done]. Qed.

Lemma elem_of_assignments x value k :
  k ∈ assignments x value ↔ ∃ v, (k, v) ∈ x ∧ value v = 1.
Proof.
  unfold assignments. rewrite list_elem_of_fmap. split.
  - intros ([k' v] & -> & [? ?]%list_elem_of_filter). by exists v.
  - intros (v & ? & ?). exists (k, v). split; [done|]. by apply list_elem_of_filter.
Qed.

Lemma elem_of_x_vars x (P : key4 → bool) k v : (k, v) ∈ x → P k = true → v ∈ x_vars x P.
Proof.
  intros ??. unfold x_vars. apply list_elem_of_fmap. exists (k, v).
  split; [done|]. by apply list_elem_of_filter.
Qed.

Lemma eval_Sum_pos m value vs v :
  accepted m value → Forall (bool_var m) vs → v ∈ vs → value v = 1 →
  1 ≤ eval value (Sum vs).
Proof.
  intros Ha Hb Hv E. rewrite (eval_Sum_count m) by done.
  assert (v ∈ filter (λ v, value v = 1) vs) as Hf by by apply list_elem_of_filter.
  destruct (filter _ vs); [by apply elem_of_nil in Hf|]. cbn [length]. lia.
Qed.

(** C5. When the rest rule is enabled and both "Night" and "Day" are among
    the selected shifts, then in every accepted solution, for every nurse and
    every two consecutive entries (index i, i+1) of the selected-days sequence,
    the nurse does not have both a Night assignment on the day at index i and
    a Day assignment on the day at index i+1. *)
Theorem rest_night_to_day (inp : inputs) (t : tables) (b : built) (value : nat → Z)
    (n : string) (i : nat) (d d_next rid rid_next : string) :
  normalize inp = Ok t →
  build inp t = Ok b →
  accepted (model b) value →
  enforce_rest_night_to_day inp = true →
  "Night" ∈ shifts inp → "Day" ∈ shifts inp →
  days inp !! i = Some d → days inp !! (i + 1)%nat = Some d_next →
  ¬ ((n, rid, "Night", d) ∈ assignments (x b) value ∧
     (n, rid_next, "Day", d_next) ∈ assignments (x b) value).
Proof.
  intros _ Hb Ha He Hnight Hday Hd Hd' [(v1 & Hv1 & E1)%elem_of_assignments
                                         (v2 & Hv2 & E2)%elem_of_assignments].
  pose proof (build_stages _ _ _ Hb) as (m_rest & m_locks & Hr & Hl & Hle & Hx & _).
  rewrite Hx in Hv1, Hv2. pose proof Hv1 as (Hn & _)%stage_x_elem.
  unfold stage_rest in Hr. rewrite He in Hr.
  eapply (add_rest_rule_spec _ _ _ _ _ _ n i) in Hr as (d0 & d1 & Hd0 & Hd1 & Hc);
    [|done..|by apply lookup_lt_Some in Hd'].
  apply inv_day_lookup in Hd0, Hd1.
  assert (d0 = d) as -> by congruence. assert (d1 = d_next) as -> by congruence.
  pose proof (elem_of_x_vars _ (λ k, bool_decide (k.1.1.1 = n ∧ k.1.2 = "Night" ∧ k.2 = d))
                _ _ Hv1) as Hin1.
  pose proof (elem_of_x_vars _ (λ k, bool_decide (k.1.1.1 = n ∧ k.1.2 = "Day" ∧ k.2 = d_next))
                _ _ Hv2) as Hin2.
  rewrite bool_decide_eq_true in Hin1, Hin2.
  specialize (Hin1 ltac:(done)). specialize (Hin2 ltac:(done)).
  assert (model_le m_rest (model b)) as Hle'.
  { etrans; [|done]. etrans; [|by eapply add_locks_le].
    etrans; [apply add_charge_le|apply add_cnor_le]. }
  specialize (Hc (truthy_intro _ _ Hin1) (truthy_intro _ _ Hin2)).
  eapply model_le_constraint, (accepted_holds _ _ _ Ha) in Hc; [|exact Hle'].
  cbn [holds rest_constraint eval] in Hc. apply bool_decide_eq_true in Hc.
  pose proof (x_vars_bool inp t b) as Hbool. rewrite Hx in Hbool.
  pose proof (eval_Sum_pos _ _ _ _ Ha (Hbool _ Hb) Hin1 E1) as H1.
  pose proof (eval_Sum_pos _ _ _ _ Ha (Hbool _ Hb) Hin2 E2) as H2.
  cbn [eval] in H1, H2. lia.
Qed.

(** ** Tables built from rows *)

Lemma int_dict_from_Ok {R K} `{EqDecision K} (key : R → K) (conv : R → result Z) rows d0 d :
  for_M rows (λ r m, z ← conv r; Ok (dict_set (key r) z m)) d0 = Ok d →
  d = for_ rows (λ r, dict_set (key r) (cell_value (conv r))) d0 ∧
  ∀ r, r ∈ rows → conv r = Ok (cell_value (conv r)).
Proof.
  revert d0. induction rows as [|r rows IH]; intros d0 H.
  - injection H as <-. split; [done|]. by intros ? ?%elem_of_nil.
  - cbn [for_M] in H. destruct (conv r) as [z|e] eqn:E; [|done].
    apply IH in H as [-> Hr]. split; [by rewrite for_cons, E|].
    intros r' [->|?]%elem_of_cons; [by rewrite E|auto].
Qed.

Lemma int_dict_Ok {R K} `{EqDecision K} (key : R → K) (conv : R → result Z) rows d :
  int_dict key conv rows = Ok d →
  d = dict_of key (λ r, cell_value (conv r)) rows ∧
  ∀ r, r ∈ rows → conv r = Ok (cell_value (conv r)).
Proof. apply int_dict_from_Ok. Qed.

Lemma int_dict_total {R K} `{EqDecision K} (key : R → K) (conv : R → result Z) rows :
  (∀ r, r ∈ rows → ∃ z, conv r = Ok z) → ∃ d, int_dict key conv rows = Ok d.
Proof.
  intros H. apply for_M_total. intros r d Hr.
  destruct (H r Hr) as [z ->]. by eexists.
Qed.

(** The value a table keeps for a key is that of the last row with the key. *)
Lemma int_dict_last {R K} `{EqDecision K} (key : R → K) (conv : R → result Z)
    pre r post d z :
  int_dict key conv (pre ++ r :: post) = Ok d →
  conv r = Ok z →
  (∀ r', r' ∈ post → key r' ≠ key r) →
  dict_get (key r) d = Some z.
Proof.
  intros [-> _]%int_dict_Ok E Hpost.
  rewrite (dict_of_last key (λ r, cell_value (conv r))) by done. by rewrite E.
Qed.

Lemma int_dict_NoDup {R K} `{EqDecision K} (key : R → K) (conv : R → result Z) rows d :
  int_dict key conv rows = Ok d → NoDup (dict_keys d).
Proof. intros [-> _]%int_dict_Ok. apply dict_of_NoDup. Qed.

(** What [normalize] returns, table by table. *)
Lemma normalize_Ok inp t :
  normalize inp = Ok t →
  nurse_ids t = nurse_id <$> nurses_df inp ∧
  room_ids t = room_id <$> rooms_df inp ∧
  int_dict nurse_id (λ r, int_item "max_shifts_per_day" (max_shifts_per_day r))
    (nurses_df inp) = Ok (max_per_day t) ∧
  int_dict nurse_id (λ r, int_item "max_shifts_per_week" (max_shifts_per_week r))
    (nurses_df inp) = Ok (max_per_week t) ∧
  cert_by_nurse t = dict_of nurse_id (λ r, default "" (certification r)) (nurses_df inp) ∧
  qual_by_nurse t
    = dict_of nurse_id (λ r, parse_semicolon_set (qualifications r)) (nurses_df inp) ∧
  req_by_room t
    = dict_of room_id (λ r, parse_semicolon_set (required_qualifications r)) (rooms_df inp) ∧
  tag_by_room t = dict_of room_id (λ r, default "" (tags r)) (rooms_df inp) ∧
  (∃ dem, demand_rows (demand_df inp) = Ok dem ∧
          demand t = demand_defaults (days inp) (room_id <$> rooms_df inp) (shifts inp) dem) ∧
  pref_lookup (pref_df inp) = Ok (pref t) ∧
  locks_lookup (locks_df inp) = Ok (locks t).
Proof.
  unfold normalize.
  intros (mpd & E1 & H)%bind_Ok. apply bind_Ok in H as (mpw & E2 & H).
  apply bind_Ok in H as (dem & E3 & H). apply bind_Ok in H as (prf & E4 & H).
  apply bind_Ok in H as (lks & E5 & H). injection H as <-. cbn.
  split_and!; try done. by exists dem.
Qed.

(** ** Locks *)

Lemma add_lock_Err x item m : infeasible_lock x item → add_lock x item m = Err (lock_error item).
Proof.
  destruct item as [[[[d sh] rid] n] locked]. intros [? E]. cbn in *. subst locked.
  unfold add_lock. rewrite bool_decide_eq_false_2 by (intros ?; done). by rewrite E.
Qed.

Lemma add_lock_Ok x item m : ¬ infeasible_lock x item → ∃ m', add_lock x item m = Ok m'.
Proof.
  destruct item as [[[[d sh] rid] n] locked]. intros H. unfold add_lock.
  case_bool_decide as Hl; [by eexists|].
  destruct (dict_get (n, rid, sh, d) x) eqn:E; [by eexists|].
  destruct H. split; cbn; [|done].
  destruct (decide (locked = 1)); [done|by destruct Hl].
Qed.

(** The lock loop raises for the first infeasible lock of the table. *)
Lemma add_locks_Err t x m item :
  item ∈ locks t → infeasible_lock x item →
  ∃ pre item' post,
    locks t = pre ++ item' :: post ∧
    (∀ a, a ∈ pre → ¬ infeasible_lock x a) ∧
    infeasible_lock x item' ∧
    add_locks t x m = Err (lock_error item').
Proof.
  unfold add_locks. generalize (locks t). intros l. revert m.
  induction l as [|a l IH]; intros m Hin Hbad; [by apply elem_of_nil in Hin|].
  destruct (decide (infeasible_lock x a)) as [Ha|Ha].
  - exists [], a, l. split_and!; [done|by intros ? ?%elem_of_nil|done|].
    cbn. by rewrite add_lock_Err.
  - apply elem_of_cons in Hin as [->|Hin]; [done|].
    destruct (add_lock_Ok x a m Ha) as [m1 E1].
    destruct (IH m1 Hin Hbad) as (pre & item' & post & -> & Hpre & ? & E).
    exists (a :: pre), item', post. split_and!; [done| |done|].
    + intros a' [->|?]%elem_of_cons; auto.
    + cbn. by rewrite E1.
Qed.

Lemma add_locks_spec t x m m' d sh rid n :
  add_locks t x m = Ok m' → ((d, sh, rid, n), 1) ∈ locks t →
  ∃ v, dict_get (n, rid, sh, d) x = Some v ∧ Eq (Var v) (Const 1) ∈ constraints m'.
Proof.
  intros Hm Hin. revert Hm. unfold add_locks.
  apply (for_M_adds _ _ ((d, sh, rid, n), 1)
           (λ m', ∃ v, dict_get (n, rid, sh, d) x = Some v ∧
                       Eq (Var v) (Const 1) ∈ constraints m')); [done| | |].
  - intros ???. apply add_lock_le.
  - intros m1 m2 Hle (v & ? & ?). exists v. split; [done|]. by eapply model_le_constraint.
  - intros m1 m2. unfold add_lock. rewrite bool_decide_eq_false_2 by (intros ?; done).
    destruct (dict_get (n, rid, sh, d) x) as [v|]; [|done].
    intros [= <-]. exists v. split; [done|]. apply Add_elem.
Qed.

(** ** The rest rule never raises on distinct days *)
Lemma enumerate_lookup {A} (l : list A) i a : (i, a) ∈ enumerate l ↔ l !! i = Some a.
Proof.
  unfold enumerate. rewrite elem_of_lookup_imap. split.
  - intros (i' & a' & ? & ?). by simplify_eq.
  - intros. by exists i, a.
Qed.

Lemma imap_split {A B} (f : nat → A → B) (l : list A) i a :
  l !! i = Some a →
  ∃ pre post, imap f l = pre ++ f i a :: post ∧
              ∀ y, y ∈ post → ∃ j a', y = f j a' ∧ l !! j = Some a' ∧ (i < j)%nat.
Proof.
  revert f i. induction l as [|a0 l IH]; intros f i Hi; [done|].
  destruct i as [|i]; cbn in Hi.
  - simplify_eq. exists [], (imap (f ∘ S) l). split; [done|].
    intros y (j & a' & -> & ?)%elem_of_lookup_imap.
    exists (S j), a'. split_and!; [reflexivity|done|lia].
  - destruct (IH (f ∘ S) i Hi) as (pre & post & E & Hpost).
    exists (f 0%nat a0 :: pre), post. split; [cbn; by rewrite E|].
    intros y (j & a' & -> & ? & ?)%Hpost.
    exists (S j), a'. split_and!; [reflexivity|done|lia].
Qed.

Lemma enumerate_split {A} (l : list A) i a :
  l !! i = Some a →
  ∃ pre post, enumerate l = pre ++ (i, a) :: post ∧
              ∀ j a', (j, a') ∈ post → l !! j = Some a' ∧ (i < j)%nat.
Proof.
  intros (pre & post & E & Hpost)%(imap_split pair).
  exists pre, post. split; [done|].
  intros j a' (j' & a'' & ? & ? & ?)%Hpost. by simplify_eq.
Qed.

Lemma day_index_lookup days i d :
  NoDup days → days !! i = Some d → dict_get d (day_index days) = Some i.
Proof.
  intros Hnd Hi. destruct (enumerate_split days i d Hi) as (pre & post & E & Hpost).
  unfold day_index. rewrite E.
  apply (dict_of_last (V := nat) snd fst pre (i, d) post).
  intros [j d'] [Hj ?]%Hpost Heq. cbn in Heq. subst d'.
  pose proof (NoDup_lookup _ _ _ _ Hnd Hi Hj). lia.
Qed.

Lemma inv_day_total days i d :
  NoDup days → days !! i = Some d → dict_get i (inv_day days) = Some d.
Proof.
  intros Hnd Hi. pose proof (day_index_lookup _ _ _ Hnd Hi) as Hd.
  apply dict_get_elem, list_elem_of_split in Hd as (pre & post & E).
  unfold inv_day. rewrite E.
  apply (dict_of_last (V := string) snd fst pre (d, i) post).
  intros [d' i'] Hin Heq. cbn in Heq. subst i'.
  assert ((d', i) ∈ day_index days) as Hin' by (rewrite E; set_solver).
  apply dict_of_elem in Hin' as ([j d''] & Hin' & ? & ?). cbn in *. subst j d''.
  apply enumerate_lookup in Hin'. assert (d' = d) as -> by congruence.
  pose proof (dict_of_NoDup (V := nat) snd fst (enumerate days)) as Hk.
  fold (day_index days) in Hk. rewrite E in Hk. unfold dict_keys in Hk.
  rewrite fmap_app, fmap_cons in Hk. apply NoDup_app in Hk as (_ & _ & Hk).
  apply NoDup_cons in Hk as [Hk _]. apply Hk.
  apply list_elem_of_fmap. by exists (d, i).
Qed.

Lemma rest_step_total days x n i m :
  NoDup days → (i + 1 < length days)%nat → ∃ m', rest_step x (inv_day days) n i m = Ok m'.
Proof.
  intros Hnd Hi. unfold rest_step, getitem.
  destruct (lookup_lt_is_Some_2 days i) as [d Hd]; [lia|].
  destruct (lookup_lt_is_Some_2 days (i + 1)) as [d' Hd']; [lia|].
  rewrite (inv_day_total _ _ _ Hnd Hd), (inv_day_total _ _ _ Hnd Hd'). cbn.
  destruct (_ && _); by eexists.
Qed.

Lemma add_rest_rule_total t days shifts enforce x m :
  NoDup days → ∃ m', add_rest_rule t days shifts enforce x m = Ok m'.
Proof.
  intros Hnd. unfold add_rest_rule. destruct (_ && _); [|by eexists].
  apply for_M_total. intros n m1 _. apply for_M_total. intros i m2 Hi.
  apply elem_of_seq in Hi. apply (rest_step_total days); [done|lia].
Qed.

Lemma build_intro inp t m_rest :
  stage_rest inp t = Ok m_rest →
  build inp t =
    (m_locks ← add_locks t (stage_x inp t).1 (stage_roles inp t m_rest);
     let fair :=
       add_fairness t (target_shifts_per_nurse_week inp) (stage_x inp t).1 m_locks in
     Ok {| model :=
             Maximize
               (objective_terms t (days inp) (allow_overstaff inp) (weights inp)
                  (stage_x inp t).1 (understaff (stage_coverage inp t))
                  (overstaff (stage_coverage inp t)) (fairness_dev fair))
               (fair_model fair);
           x := (stage_x inp t).1;
           slack_under := understaff (stage_coverage inp t);
           slack_over := overstaff (stage_coverage inp t) |}).
Proof.
  unfold build, stage_rest, stage_roles, stage_coverage, stage_caps.
  change (create_x t (shifts inp) (days inp) ([], new_model)) with (stage_x inp t).
  destruct (stage_x inp t) as [x0 m0]. cbn [fst snd]. by intros ->.
Qed.

Lemma build_lock_Err inp t m_rest e :
  stage_rest inp t = Ok m_rest →
  add_locks t (stage_x inp t).1 (stage_roles inp t m_rest) = Err e →
  build inp t = Err e.
Proof. intros Hr Hl. by rewrite (build_intro _ _ _ Hr), Hl. Qed.



(** The nurses listed for a slot are those whose key is assigned. *)
Lemma elem_of_assigned_nurses inp t value n rid sh d :
  n ∈ assigned_nurses t (stage_x inp t).1 value d rid sh ↔
  (n, rid, sh, d) ∈ assignments (stage_x inp t).1 value.
Proof.
  rewrite assigned_nurses_filter, list_elem_of_filter, elem_of_assignments.
  unfold assigned. split.
  - intros [Hv Hn]. destruct (dict_get _ _) as [v|] eqn:E; [|done].
    apply bool_decide_eq_true in Hv. exists v. split; [|done]. by apply dict_get_elem.
  - intros (v & Hin & Hv). pose proof Hin as (? & _ & _ & _ & _ & ->)%stage_x_elem.
    split; [by apply bool_decide_eq_true|done].
Qed.

(** C3, as the code has it. A lock row with locked = 1 that no later row of
    the same key overrides: in every accepted solution the nurse is listed for
    that exact day, shift and room; and if the variable does not exist, the
    solve fails before the backend is called, with the RuntimeError that names
    day, shift, room and nurse of the first lock of the table that has no
    variable (the inputs being well formed and the selected days distinct, so
    that no earlier stage raises). *)
Theorem lock_enforced_or_rejected (inp : inputs) (t : tables) (pre post : list lock_row)
    (r : lock_row) :
  normalize inp = Ok t →
  locks_df inp = pre ++ r :: post →
  locked r = Val 1 →
  (∀ r', r' ∈ post → lock_key r' ≠ lock_key r) →
  (∀ b value,
     build inp t = Ok b → accepted (model b) value →
     lock_nurse_id r ∈ assigned_nurses t (x b) value (lock_day r) (lock_room_id r) (lock_shift r)) ∧
  (dict_get (lock_nurse_id r, lock_room_id r, lock_shift r, lock_day r) (stage_x inp t).1 = None →
   NoDup (days inp) →
   ∃ d sh rid n earlier later,
     (∀ solver, solve_schedule_ortools inp solver = Err (RuntimeError (lock_message d sh rid n))) ∧
     locks t = earlier ++ ((d, sh, rid, n), 1) :: later ∧
     (∀ item, item ∈ earlier → ¬ infeasible_lock (stage_x inp t).1 item) ∧
     dict_get (n, rid, sh, d) (stage_x inp t).1 = None).
Proof.
  intros Hn Hrows Hl Hpost.
  pose proof (normalize_Ok _ _ Hn) as (_ & _ & _ & _ & _ & _ & _ & _ & _ & _ & Hlocks).
  unfold locks_lookup in Hlocks. rewrite Hrows in Hlocks.
  eapply (int_dict_last _ _ pre r post) in Hlocks; [|by rewrite Hl|exact Hpost].
  cbn beta in Hlocks. apply dict_get_elem in Hlocks.
  split.
  - intros b value Hb Ha.
    pose proof (build_stages _ _ _ Hb) as (m_rest & m_locks & _ & Hlk & Hle & Hx & _).
    eapply add_locks_spec in Hlk as (v & Hv & Hc); [|exact Hlocks].
    eapply model_le_constraint, (accepted_holds _ _ _ Ha) in Hc; [|exact Hle].
    cbn in Hc. apply bool_decide_eq_true in Hc.
    rewrite Hx. apply elem_of_assigned_nurses, elem_of_assignments.
    exists v. split; [by apply dict_get_elem|done].
  - intros Hx Hdays.
    destruct (add_rest_rule_total t (days inp) (shifts inp) (enforce_rest_night_to_day inp)
                (stage_x inp t).1 (cov_model (stage_coverage inp t)) Hdays) as [m_rest Hr].
    destruct (add_locks_Err t (stage_x inp t).1 (stage_roles inp t m_rest) _ Hlocks)
      as (earlier & [[[[d sh] rid] n] lk] & later & Hsplit & Hearlier & [Hlk Hnone] & Herr);
      [done|].
    cbn in Hlk, Hnone. subst lk. exists d, sh, rid, n, earlier, later.
    split_and!; [|done..].
    intros solver. unfold solve_schedule_ortools. rewrite Hn. cbn.
    by rewrite (build_lock_Err _ _ _ _ Hr Herr).
Qed.

(** ** Slack bounds *)

Lemma cover_overstaff_ok t allow x k s : overstaff_ok s → overstaff_ok (cover t allow x k s).
Proof.
  intros Hs k' o'. pose proof (cover_le t allow x k s) as Hle.
  destruct k as [[d rid] sh]. unfold cover in *. cbn [overstaff].
  destruct allow.
  - rewrite dict_get_set. case_decide.
    + intros [= <-]. eapply slack_var_le; [apply Add_le|]. eexists.
      exact (NewIntVar_lookup 0 100 _ (NewIntVar 0 100 _ (cov_model s)).2).
    + intros ?%Hs. by eapply slack_var_le.
  - intros ?%Hs. by eapply slack_var_le.
Qed.

Lemma stage_coverage_slack inp t :
  (∀ k u, dict_get k (understaff (stage_coverage inp t)) = Some u →
          slack_var (cov_model (stage_coverage inp t)) u) ∧
  (∀ k o, dict_get k (overstaff (stage_coverage inp t)) = Some o →
          slack_var (cov_model (stage_coverage inp t)) o).
Proof.
  split.
  - intros k u Hu. unfold stage_coverage in *.
    by apply add_coverage_ok in Hu as [? _].
  - unfold stage_coverage. rewrite add_coverage_flat.
    apply (for_inv overstaff_ok); [|done]. intros. by apply cover_overstaff_ok.
Qed.

Lemma length_filter_le {A} (P Q : A → Prop) `{∀ a, Decision (P a), ∀ a, Decision (Q a)}
    (l : list A) :
  (∀ a, a ∈ l → P a → Q a) → (length (filter P l) ≤ length (filter Q l))%nat.
Proof.
  induction l as [|a l IH]; intros Hpq; [done|].
  rewrite !filter_cons.
  assert (length (filter P l) ≤ length (filter Q l))%nat as IH'
    by (apply IH; intros; apply Hpq; [by right|done]).
  destruct (decide (P a)) as [Hp|]; destruct (decide (Q a)) as [|Hq]; cbn [length]; try lia.
  destruct Hq. apply Hpq; [by left|done].
Qed.

(** No more nurses are listed for a slot than are feasible for its room. *)
Lemma length_assigned_nurses inp t value d rid sh :
  (length (assigned_nurses t (stage_x inp t).1 value d rid sh) ≤ feasible_count t rid)%nat.
Proof.
  rewrite assigned_nurses_filter. apply length_filter_le.
  intros n _ Ha. unfold assigned in Ha.
  destruct (dict_get _ _) as [v|] eqn:E; [|done].
  by apply dict_get_elem, stage_x_elem in E as (_ & _ & ? & _).
Qed.

(** C9. Every understaff and overstaff variable is declared with the domain
    0..100, so every slack value an accepted solution reports lies in
    [0, 100]; and a model with a slot whose demand exceeds the number of nurses
    feasible for its room by more than 100 has no accepted solution. *)
Theorem slack_bounded (inp : inputs) (t : tables) (b : built) :
  normalize inp = Ok t →
  build inp t = Ok b →
  (∀ k u, dict_get k (slack_under b) = Some u ∨ dict_get k (slack_over b) = Some u →
          slack_var (model b) u) ∧
  (∀ value d rid sh,
     accepted (model b) value → d ∈ days inp → rid ∈ room_ids t → sh ∈ shifts inp →
     0 ≤ value (dict_at (d, rid, sh) (slack_under b)) ≤ 100 ∧
     (allow_overstaff inp = true → 0 ≤ value (dict_at (d, rid, sh) (slack_over b)) ≤ 100)) ∧
  (∀ value d rid sh,
     d ∈ days inp → rid ∈ room_ids t → sh ∈ shifts inp →
     100 < dict_at (d, rid, sh) (demand t) - Z.of_nat (feasible_count t rid) →
     ¬ accepted (model b) value).
Proof.
  intros _ Hb.
  pose proof (build_stages _ _ _ Hb) as (_ & _ & _ & _ & _ & Hx & Hu & Ho).
  pose proof (stage_coverage_le_build _ _ _ Hb) as Hle.
  pose proof (stage_coverage_slack inp t) as [Hsu Hso].
  split_and!.
  - rewrite Hu, Ho. intros k u [?|?]; (eapply slack_var_le; [exact Hle|]); eauto.
  - intros value d rid sh Ha Hd Hr Hs.
    destruct (slot_solution inp t b value d rid sh) as (u & o & Eu & Hbu & Hbo & _); try done.
    rewrite (dict_at_Some _ _ _ Eu). split; [done|].
    intros [Eo ?]%Hbo. by rewrite (dict_at_Some _ _ _ Eo).
  - intros value d rid sh Hd Hr Hs Hbig Ha.
    destruct (slot_solution inp t b value d rid sh) as (u & o & _ & Hbu & Hbo & Heq); try done.
    pose proof (length_assigned_nurses inp t value d rid sh) as Hlen. rewrite <-Hx in Hlen.
    destruct (allow_overstaff inp); [|lia].
    destruct Hbo as [_ ?]; [done|]. lia.
Qed.


(** ** Reading the solution *)
Lemma for_M_ext {A S} (l : list A) (body body' : A → S → result S) s :
  (∀ a s, a ∈ l → body a s = body' a s) → for_M l body s = for_M l body' s.
Proof.
  revert s. induction l as [|a l IH]; intros s Hb; [done|].
  cbn. rewrite Hb by left. destruct (body' a s) as [s'|e]; cbn; [|done].
  apply IH. intros; apply Hb. by right.
Qed.

Lemma for_M_collect_Ok {A B} (f : A → result B) (g : A → B) (l : list A) (acc out : list B) :
  (∀ a v, a ∈ l → f a = Ok v → v = g a) →
  for_M l (λ a out, v ← f a; Ok (out ++ [v])) acc = Ok out →
  out = acc ++ (g <$> l).
Proof.
  revert acc. induction l as [|a l IH]; intros acc Hf; cbn.
  - intros [= <-]. by rewrite app_nil_r.
  - destruct (f a) as [v|e] eqn:E; cbn; [|done].
    intros ->%IH; [|intros; apply Hf; [by right|done]].
    rewrite (Hf a v) by (done || by left). by rewrite <-app_assoc.
Qed.


Lemma solver_Value_found r v :
  found (status r) = true → solver_Value r v = Ok (Value r v).
Proof. unfold solver_Value. by intros ->. Qed.

Lemma solver_Value_Ok r v z :
  solver_Value r v = Ok z → found (status r) = true ∧ z = Value r v.
Proof. unfold solver_Value. destruct (found _); [|done]. by intros [= <-]. Qed.

(** The loop lists the nurses assigned in the solution when it can read it,
    and reads nothing for a slot without variables. *)
Lemma assigned_from (x : dict key4 nat) r d rid sh (ns acc : list string) :
  (∀ l,
     for_M ns (λ n assigned,
       match dict_get (n, rid, sh, d) x with
       | Some v =>
           value ← solver_Value r v;
           Ok (if bool_decide (value = 1) then assigned ++ [n] else assigned)
       | None => Ok assigned
       end) acc = Ok l →
     l = for_ ns (λ n assigned,
           match dict_get (n, rid, sh, d) x with
           | Some v => if bool_decide (Value r v = 1) then assigned ++ [n] else assigned
           | None => assigned
           end) acc) ∧
  (found (status r) = true →
   for_M ns (λ n assigned,
     match dict_get (n, rid, sh, d) x with
     | Some v =>
         value ← solver_Value r v;
         Ok (if bool_decide (value = 1) then assigned ++ [n] else assigned)
     | None => Ok assigned
     end) acc
   = Ok (for_ ns (λ n assigned,
           match dict_get (n, rid, sh, d) x with
           | Some v => if bool_decide (Value r v = 1) then assigned ++ [n] else assigned
           | None => assigned
           end) acc)) ∧
  ((∀ n, dict_get (n, rid, sh, d) x = None) →
   for_M ns (λ n assigned,
     match dict_get (n, rid, sh, d) x with
     | Some v =>
         value ← solver_Value r v;
         Ok (if bool_decide (value = 1) then assigned ++ [n] else assigned)
     | None => Ok assigned
     end) acc = Ok acc).
Proof.
  revert acc. induction ns as [|n ns IH]; intros acc.
  - split_and!; [by intros l [= <-]|done|done].
  - cbn [for_M]. rewrite for_cons.
    destruct (dict_get (n, rid, sh, d) x) as [v|] eqn:Ex.
    + split_and!.
      * intros l. destruct (solver_Value r v) as [z|e] eqn:E; cbn; [|done].
        apply solver_Value_Ok in E as [_ ->]. apply IH.
      * intros Hf. rewrite (solver_Value_found _ _ Hf). cbn. by apply IH.
      * intros Hx. by rewrite Hx in Ex.
    + cbn. split_and!; [apply IH|apply IH|apply IH].
Qed.

Lemma assigned_loop_Ok t x r d rid sh l :
  assigned_loop t x r d rid sh = Ok l → l = assigned_nurses t x (Value r) d rid sh.
Proof. apply assigned_from. Qed.



Lemma output_row_Ok inp t b r d rid sh row :
  output_row inp t b r d rid sh = Ok row → row = schedule_row_of inp t b r (d, rid, sh).
Proof.
  unfold output_row, schedule_row_of.
  intros (l & ->%assigned_loop_Ok & H)%bind_Ok. cbn [fst snd].
  unfold solver_Value in H. destruct (found (status r)); cbn in H.
  - rewrite andb_true_r in *. destruct (allow_overstaff inp); cbn in H; by injection H as <-.
  - rewrite andb_false_r in *. cbn in H. by injection H as <-.
Qed.


Lemma schedule_rows_slots inp t b r :
  schedule_rows inp t b r
  = for_M (slots t (days inp) (shifts inp))
      (λ k out, row ← output_row inp t b r k.1.1 k.1.2 k.2; Ok (out ++ [row])) [].
Proof.
  unfold schedule_rows, slots. rewrite <-for_M_bind.
  apply for_M_ext; intros d s1 _. rewrite <-for_M_bind.
  apply for_M_ext; intros rid s2 _. rewrite <-for_M_bind.
  apply for_M_ext; intros sh s3 _. cbn.
  by destruct (output_row inp t b r d rid sh).
Qed.

(** The rows of a result are the records of the slots, in loop order. *)
Lemma schedule_rows_Ok inp t b r rows :
  schedule_rows inp t b r = Ok rows →
  rows = schedule_row_of inp t b r <$> slots t (days inp) (shifts inp).
Proof.
  rewrite schedule_rows_slots. intros H.
  apply (for_M_collect_Ok _ (schedule_row_of inp t b r)) in H; [done|].
  intros [[d rid] sh] row _. apply output_row_Ok.
Qed.





(** ** Demand defaults *)
Lemma dict_get_setdefault {K V} `{EqDecision K} (k k' : K) (v : V) (d : dict K V) :
  dict_get k' (dict_setdefault k v d)
  = match dict_get k' d with
    | Some z => Some z
    | None => if decide (k' = k) then Some v else None
    end.
Proof.
  unfold dict_setdefault. destruct (dict_get k d) as [z|] eqn:E.
  - destruct (dict_get k' d) eqn:E'; [done|]. case_decide; [congruence|done].
  - rewrite dict_get_set. case_decide; [subst; by rewrite E|by destruct (dict_get k' d)].
Qed.

Lemma demand_defaults_flat t days shifts dem :
  demand_defaults days (room_ids t) shifts dem
  = for_ (slots t days shifts) (λ k, dict_setdefault k 0) dem.
Proof.
  unfold demand_defaults, slots. rewrite <-for_bind.
  apply for_ext; intros d s1 _. rewrite <-for_bind.
  apply for_ext; intros rid s2 _. rewrite <-for_bind. done.
Qed.

Lemma demand_defaults_lookup t days shifts dem k :
  dict_get k (demand_defaults days (room_ids t) shifts dem)
  = match dict_get k dem with
    | Some z => Some z
    | None => if decide (k ∈ slots t days shifts) then Some 0 else None
    end.
Proof.
  rewrite demand_defaults_flat. generalize (slots t days shifts). intros l. revert dem.
  induction l as [|k' l IH]; intros dem.
  - cbn. destruct (dict_get k dem); [done|]. by rewrite decide_False by set_solver.
  - rewrite for_cons, IH, dict_get_setdefault.
    destruct (dict_get k dem); [done|].
    destruct (decide (k = k')) as [->|].
    + by rewrite decide_True by set_solver.
    + destruct (decide (k ∈ l)).
      * by rewrite decide_True by set_solver.
      * by rewrite decide_False by set_solver.
Qed.

(** Every subscript [d[k]] of the function finds its key: the per-nurse and
    per-room tables are keyed by the listed ids, and every slot of the horizon
    has a demand. *)
Lemma subscripts_defined inp t :
  normalize inp = Ok t →
  (∀ n, n ∈ nurse_ids t →
        is_Some (dict_get n (max_per_day t)) ∧ is_Some (dict_get n (max_per_week t)) ∧
        is_Some (dict_get n (cert_by_nurse t)) ∧ is_Some (dict_get n (qual_by_nurse t))) ∧
  (∀ rid, rid ∈ room_ids t → is_Some (dict_get rid (req_by_room t))) ∧
  (∀ d rid sh, d ∈ days inp → rid ∈ room_ids t → sh ∈ shifts inp →
               is_Some (dict_get (d, rid, sh) (demand t))).
Proof.
  intros (Hn & Hr & [-> _]%int_dict_Ok & [-> _]%int_dict_Ok & -> & -> & -> & _
          & (dem & _ & Hdem) & _)%normalize_Ok.
  split_and!.
  - intros n Hin. rewrite Hn in Hin. rewrite !dict_get_is_Some, !dict_of_keys. done.
  - intros rid Hin. rewrite Hr in Hin. by rewrite dict_get_is_Some, dict_of_keys.
  - intros d rid sh Hd Hrid Hs. rewrite <-Hr in Hdem.
    rewrite Hdem, demand_defaults_lookup.
    destruct (dict_get _ dem); [done|].
    rewrite decide_True by by apply elem_of_slots. done.
Qed.

Lemma NoDup_slots t days shifts :
  NoDup days → NoDup (room_ids t) → NoDup shifts → NoDup (slots t days shifts).
Proof.
  intros Hd Hr Hs. unfold slots. apply NoDup_bind; [| |done].
  { intros d1 d2 k _ _ (? & (? & ?%list_elem_of_singleton & _)%list_elem_of_bind & _)%list_elem_of_bind
      (? & (? & ?%list_elem_of_singleton & _)%list_elem_of_bind & _)%list_elem_of_bind.
    by simplify_eq. }
  intros d _. apply NoDup_bind; [| |done].
  { intros r1 r2 k _ _ (? & ?%list_elem_of_singleton & _)%list_elem_of_bind
      (? & ?%list_elem_of_singleton & _)%list_elem_of_bind. by simplify_eq. }
  intros rid _. apply NoDup_bind; [| |done].
  { intros s1 s2 k _ _ ?%list_elem_of_singleton ?%list_elem_of_singleton. by simplify_eq. }
  intros. apply NoDup_singleton.
Qed.

(** ** The result *)

Lemma for_append {A B} (f : A → B) (l : list A) (acc : list B) :
  for_ l (λ a acc, acc ++ [f a]) acc = acc ++ (f <$> l).
Proof.
  revert acc. induction l as [|a l IH]; intros acc; [by rewrite app_nil_r|].
  by rewrite for_cons, IH, fmap_cons, <-app_assoc.
Qed.

Lemma solve_Ok inp solver rows meta :
  solve_schedule_ortools inp solver = Ok (rows, meta) →
  ∃ t b,
    normalize inp = Ok t ∧ build inp t = Ok b ∧
    schedule_rows inp t b (solver (model b)) = Ok rows ∧
    meta = {| meta_status := StatusName (status (solver (model b)));
              meta_objective :=
                if found (status (solver (model b)))
                then Some (ObjectiveValue (solver (model b))) else None |}.
Proof.
  unfold solve_schedule_ortools.
  intros (t & Hn & H)%bind_Ok. apply bind_Ok in H as (b & Hb & H).
  cbv zeta in H. apply bind_Ok in H as (rows' & Hrows & H).
  injection H as <- <-. by exists t, b.
Qed.

(** C8, as the code has it. The result has one record per slot of selected
    days x all rooms x selected shifts, in loop order, zero-demand slots
    included; each record carries the day, the room id and name, the shift,
    the demand as required count (0 when no demand row has the slot) and the
    assigned nurse ids joined by ";".  The understaff value and the objective
    of the summary are present exactly when the status is OPTIMAL or FEASIBLE;
    the overstaff value is present exactly when, in addition, overstaffing is
    permitted. *)
Theorem result_records (inp : inputs) (solver : CpModel → response)
    (rows : list schedule_row) (summary : meta) :
  solve_schedule_ortools inp solver = Ok (rows, summary) →
  ∃ t b,
    normalize inp = Ok t ∧ build inp t = Ok b ∧
    let r := solver (model b) in
    length rows = (length (days inp) * length (room_ids t) * length (shifts inp))%nat ∧
    (∀ d rid sh,
       d ∈ days inp ∧ rid ∈ room_ids t ∧ sh ∈ shifts inp ↔
       ∃ i, slots t (days inp) (shifts inp) !! i = Some (d, rid, sh)) ∧
    (NoDup (days inp) → NoDup (room_ids t) → NoDup (shifts inp) →
     NoDup (slots t (days inp) (shifts inp))) ∧
    (∀ i d rid sh,
       slots t (days inp) (shifts inp) !! i = Some (d, rid, sh) →
       ∃ row,
         rows !! i = Some row ∧
         out_day row = d ∧ out_room_id row = rid ∧ out_shift row = sh ∧
         out_room_name row = room_name_of (rooms_df inp) rid ∧
         out_required_nurses row = dict_at (d, rid, sh) (demand t) ∧
         ((∀ r', r' ∈ demand_df inp → demand_key r' ≠ (d, rid, sh)) →
          out_required_nurses row = 0) ∧
         out_assigned_nurses row = join ";" (assigned_nurses t (x b) (Value r) d rid sh) ∧
         out_understaff row
         = (if found (status r)
            then Some (Value r (dict_at (d, rid, sh) (slack_under b))) else None) ∧
         out_overstaff row
         = (if allow_overstaff inp && found (status r)
            then Some (Value r (dict_at (d, rid, sh) (slack_over b))) else None)) ∧
    summary
    = {| meta_status := StatusName (status r);
         meta_objective := if found (status r) then Some (ObjectiveValue r) else None |}.
Proof.
  intros (t & b & Hn & Hb & ->%schedule_rows_Ok & ->)%solve_Ok. exists t, b.
  split; [done|]. split; [done|]. cbv zeta.
  rewrite length_fmap, length_slots.
  split_and!; [done| |apply NoDup_slots| |done].
  - intros d rid sh. rewrite <-elem_of_slots. apply list_elem_of_lookup.
  - intros i d rid sh Hi. eexists. rewrite list_lookup_fmap, Hi. cbn.
    split_and!; try done.
    intros Hnone.
    pose proof (normalize_Ok _ _ Hn) as (_ & Hrooms & _ & _ & _ & _ & _ & _ & Hdem & _).
    destruct Hdem as (dem & [-> _]%int_dict_Ok & Hdemand).
    rewrite <-Hrooms in Hdemand. cbn [out_required_nurses schedule_row_of].
    unfold dict_at. rewrite Hdemand, demand_defaults_lookup.
    destruct (dict_get _ _) as [z|] eqn:E.
    + apply dict_get_elem, dict_of_elem in E as (r' & ? & ? & _). by destruct (Hnone r').
    + rewrite decide_True; [done|]. by eapply list_elem_of_lookup_2.
Qed.

(** ** Malformed rows *)

Lemma for_M_cases {A S} (l : list A) (body : A → S → result S) s :
  (∃ s', for_M l body s = Ok s') ∨
  (∃ a s1 e, a ∈ l ∧ body a s1 = Err e ∧ for_M l body s = Err e).
Proof.
  revert s. induction l as [|a l IH]; intros s; [left; by eexists|].
  cbn. destruct (body a s) as [s1|e] eqn:E.
  - destruct (IH s1) as [[s' ?]|(a' & s2 & e & ? & ? & ?)]; [left; by eexists|].
    right. exists a', s2, e. split_and!; [by right|done|done].
  - right. exists a, s, e. split_and!; [by left|done|done].
Qed.

Lemma int_dict_cases {R K} `{EqDecision K} (key : R → K) (conv : R → result Z) rows :
  (∃ d, int_dict key conv rows = Ok d ∧ ∀ r, r ∈ rows → ∃ z, conv r = Ok z) ∨
  (∃ r e, r ∈ rows ∧ conv r = Err e ∧ int_dict key conv rows = Err e).
Proof.
  unfold int_dict.
  destruct (for_M_cases rows (λ r m, z ← conv r; Ok (dict_set (key r) z m)) [])
    as [[d Hd]|(r & d1 & e & Hr & Hb & He)].
  - left. exists d. split; [done|].
    intros r Hr. apply int_dict_from_Ok in Hd as [_ Hd]. eexists. by apply Hd.
  - right. exists r, e. split_and!; [done| |done].
    destruct (conv r); [done|]. by injection Hb as ->.
Qed.

Lemma int_item_Ok field c z : int_item field c = Ok z → is_int c = true.
Proof. by destruct c. Qed.

Lemma int_item_Err field c e :
  int_item field c = Err e → e = ValueError ∨ e = KeyError field.
Proof. destruct c; intros [= <-]; auto. Qed.

Lemma int_get_Err dflt c e : int_get dflt c = Err e → e = ValueError.
Proof. by destruct c; intros [= <-]. Qed.

Lemma int_get_Ok dflt c z : int_get dflt c = Ok z → c ≠ NaN.
Proof. by destruct c. Qed.

Lemma normalize_Ok_numeric inp t : normalize inp = Ok t → numeric_ok inp.
Proof.
  intros (_ & _ & H1 & H2 & _ & _ & _ & _ & (dem & H3 & _) & H4 & H5)%normalize_Ok.
  unfold demand_rows, pref_lookup, locks_lookup in *.
  apply int_dict_Ok in H1 as [_ H1], H2 as [_ H2], H3 as [_ H3], H4 as [_ H4], H5 as [_ H5].
  split_and!; apply Forall_forall; intros r Hr.
  - eapply int_item_Ok. by apply H1.
  - eapply int_item_Ok. by apply H2.
  - eapply int_item_Ok. by apply H3.
  - eapply int_item_Ok. by apply H4.
  - eapply int_get_Ok. by apply H5.
Qed.

Lemma normalize_cases inp :
  (∃ t, normalize inp = Ok t) ∨ (∃ e, normalize inp = Err e ∧ conversion_error e).
Proof.
  unfold normalize, conversion_error.
  destruct (int_dict_cases nurse_id
              (λ r, int_item "max_shifts_per_day" (max_shifts_per_day r)) (nurses_df inp))
    as [(d1 & -> & _)|(r & e & _ & [->| ->]%int_item_Err & ->)];
    [|right; eexists; split; [done|set_solver]..].
  destruct (int_dict_cases nurse_id
              (λ r, int_item "max_shifts_per_week" (max_shifts_per_week r)) (nurses_df inp))
    as [(d2 & -> & _)|(r & e & _ & [->| ->]%int_item_Err & ->)];
    [|right; eexists; split; [done|set_solver]..].
  unfold demand_rows, pref_lookup, locks_lookup.
  destruct (int_dict_cases (λ r, (demand_day r, demand_room_id r, demand_shift r))
              (λ r, int_item "required_nurses" (required_nurses r)) (demand_df inp))
    as [(d3 & -> & _)|(r & e & _ & [->| ->]%int_item_Err & ->)];
    [|right; eexists; split; [done|set_solver]..].
  destruct (int_dict_cases (λ r, (pref_nurse_id r, pref_day r, pref_shift r))
              (λ r, int_item "preference" (preference r)) (pref_df inp))
    as [(d4 & -> & _)|(r & e & _ & [->| ->]%int_item_Err & ->)];
    [|right; eexists; split; [done|set_solver]..].
  destruct (int_dict_cases (λ r, (lock_day r, lock_shift r, lock_room_id r, lock_nurse_id r))
              (λ r, int_get 0 (locked r)) (locks_df inp))
    as [(d5 & -> & _)|(r & e & _ & ->%int_get_Err & ->)];
    [|right; eexists; split; [done|by left]].
  left. by eexists.
Qed.

Lemma numeric_ok_normalize inp : numeric_ok inp → ∃ t, normalize inp = Ok t.
Proof.
  intros (H1 & H2 & H3 & H4 & H5).
  rewrite Forall_forall in H1. rewrite Forall_forall in H2. rewrite Forall_forall in H3.
  rewrite Forall_forall in H4. rewrite Forall_forall in H5.
  unfold normalize, demand_rows, pref_lookup, locks_lookup.
  destruct (int_dict_total nurse_id
              (λ r, int_item "max_shifts_per_day" (max_shifts_per_day r)) (nurses_df inp))
    as [d1 ->].
  { intros r ?%H1. destruct (max_shifts_per_day r); try done. by eexists. }
  destruct (int_dict_total nurse_id
              (λ r, int_item "max_shifts_per_week" (max_shifts_per_week r)) (nurses_df inp))
    as [d2 ->].
  { intros r ?%H2. destruct (max_shifts_per_week r); try done. by eexists. }
  destruct (int_dict_total (λ r, (demand_day r, demand_room_id r, demand_shift r))
              (λ r, int_item "required_nurses" (required_nurses r)) (demand_df inp))
    as [d3 ->].
  { intros r ?%H3. destruct (required_nurses r); try done. by eexists. }
  destruct (int_dict_total (λ r, (pref_nurse_id r, pref_day r, pref_shift r))
              (λ r, int_item "preference" (preference r)) (pref_df inp))
    as [d4 ->].
  { intros r ?%H4. destruct (preference r); try done. by eexists. }
  destruct (int_dict_total (λ r, (lock_day r, lock_shift r, lock_room_id r, lock_nurse_id r))
              (λ r, int_get 0 (locked r)) (locks_df inp))
    as [d5 ->].
  { intros r ?%H5. destruct (locked r); try done; by eexists. }
  by eexists.
Qed.

(** C7, as the code has it. If a numeric cell the function converts is
    missing, the solve fails while the lookup tables are built, before any
    model is constructed and whatever the backend: with [ValueError] for an
    empty cell, which names neither row nor field, or with [KeyError] naming
    the field alone for an absent column. *)
Theorem missing_numeric_fails_fast (inp : inputs) :
  ¬ numeric_ok inp →
  ∃ e, normalize inp = Err e ∧
       conversion_error e ∧
       ∀ solver, solve_schedule_ortools inp solver = Err e.
Proof.
  intros Hbad. destruct (normalize_cases inp) as [[t Ht]|(e & He & Hc)].
  - destruct Hbad. by eapply normalize_Ok_numeric.
  - exists e. split_and!; [done..|].
    intros solver. unfold solve_schedule_ortools. by rewrite He.
Qed.

(** C10. When the demand, preferences or locks table has several rows with
    the same key, the rows are accepted and the value kept for the key is that
    of the last such row. *)
Theorem last_row_wins (inp : inputs) :
  (numeric_ok inp → ∃ t, normalize inp = Ok t) ∧
  ∀ t,
    normalize inp = Ok t →
    (∀ pre r post z,
       demand_df inp = pre ++ r :: post → required_nurses r = Val z →
       (∀ r', r' ∈ post → demand_key r' ≠ demand_key r) →
       dict_get (demand_key r) (demand t) = Some z) ∧
    (∀ pre r post z,
       pref_df inp = pre ++ r :: post → preference r = Val z →
       (∀ r', r' ∈ post → pref_key r' ≠ pref_key r) →
       dict_get (pref_key r) (pref t) = Some z) ∧
    (∀ pre r post z,
       locks_df inp = pre ++ r :: post → locked r = Val z →
       (∀ r', r' ∈ post → lock_key r' ≠ lock_key r) →
       dict_get (lock_key r) (locks t) = Some z).
Proof.
  split; [apply numeric_ok_normalize|].
  intros t (_ & Hrooms & _ & _ & _ & _ & _ & _ & (dem & Hdem & Hdemand) & Hpref & Hlocks)%normalize_Ok.
  split_and!.
  - intros pre r post z Hrows Hz Hpost. unfold demand_rows in Hdem. rewrite Hrows in Hdem.
    eapply (int_dict_last _ _ pre r post) in Hdem; [|by rewrite Hz|exact Hpost].
    rewrite <-Hrooms in Hdemand. rewrite Hdemand, demand_defaults_lookup.
    unfold demand_key. by rewrite Hdem.
  - intros pre r post z Hrows Hz Hpost. unfold pref_lookup in Hpref. rewrite Hrows in Hpref.
    by eapply (int_dict_last _ _ pre r post) in Hpref; [|by rewrite Hz|exact Hpost].
  - intros pre r post z Hrows Hz Hpost. unfold locks_lookup in Hlocks. rewrite Hrows in Hlocks.
    by eapply (int_dict_last _ _ pre r post) in Hlocks; [|by rewrite Hz|exact Hpost].
Qed.

(** ** The properties at work on the ward *)
(** The ward is well formed. *)
Lemma ward_normalize : normalize ward = Ok (tables_of ward).
Proof. by vm_compute. Qed.

(** On the ward: N1 (ICU, Charge) has a variable for the ICU room, N2 (ER) has
    none, and the twelve variables are 2 days x 2 shifts x (1 + 2) feasible
    pairs. *)
Lemma variable_exists_iff_feasible_witness :
  (∃ v, dict_get ("N1", "R1", "Day", "Mon") (stage_x ward (tables_of ward)).1 = Some v ∧
        bool_var (stage_x ward (tables_of ward)).2 v) ∧
  ¬ (∃ v, dict_get ("N2", "R1", "Day", "Mon") (stage_x ward (tables_of ward)).1 = Some v ∧
          bool_var (stage_x ward (tables_of ward)).2 v) ∧
  length (stage_x ward (tables_of ward)).1 = (2 * 2 * 3)%nat.
Proof.
  destruct (variable_exists_iff_feasible (tables_of ward) (shifts ward) (days ward))
    as [Hiff Hcount].
  split_and!.
  - apply Hiff; compute_done.
  - rewrite Hiff by compute_done. compute_done.
  - apply Hcount; compute_done.
Defined.

(** On the ward: the slot (Mon, R2, Night) of the solution [ward_value]. *)
Lemma coverage_balance_witness :
  accepted (model (built_of ward)) ward_value ∧
  Z.of_nat (length (assigned_nurses (tables_of ward) (x (built_of ward)) ward_value
                      "Mon" "R2" "Night"))
  + ward_value (dict_at ("Mon", "R2", "Night") (slack_under (built_of ward)))
  - ward_value (dict_at ("Mon", "R2", "Night") (slack_over (built_of ward)))
  = dict_at ("Mon", "R2", "Night") (demand (tables_of ward)).
Proof.
  split; [compute_done|].
  apply (coverage_balance ward (tables_of ward) (built_of ward) ward_value "Mon" "R2" "Night");
    compute_done.
Defined.

(** On the ward: the caps of N1 under [ward_value]. *)
Lemma workload_caps_witness :
  (∀ d, Z.of_nat (shifts_on_day (x (built_of ward)) ward_value "N1" d)
        ≤ dict_at "N1" (max_per_day (tables_of ward))) ∧
  Z.of_nat (shifts_in_week (x (built_of ward)) ward_value "N1")
  ≤ dict_at "N1" (max_per_week (tables_of ward)).
Proof.
  apply (workload_caps ward (tables_of ward) (built_of ward) ward_value "N1"); compute_done.
Defined.

(** On the ward: N1 works the Monday night, hence not the Tuesday day. *)
Lemma rest_night_to_day_witness :
  ("N1", "R2", "Night", "Mon") ∈ assignments (x (built_of ward)) ward_value ∧
  ¬ (("N1", "R2", "Night", "Mon") ∈ assignments (x (built_of ward)) ward_value ∧
     ("N1", "R1", "Day", "Tue") ∈ assignments (x (built_of ward)) ward_value).
Proof.
  split; [compute_done|].
  apply (rest_night_to_day ward (tables_of ward) (built_of ward) ward_value "N1" 0
           "Mon" "Tue" "R2" "R1"); compute_done.
Defined.

(** On the ward: the lock of N1 holds in [ward_value]; the lock of the ER nurse
    into the ICU room makes the solve raise. *)
Lemma lock_enforced_or_rejected_witness :
  "N1" ∈ assigned_nurses (tables_of ward) (x (built_of ward)) ward_value "Mon" "R1" "Day" ∧
  ∃ d sh rid n earlier later,
    (∀ solver,
       solve_schedule_ortools ward_bad_lock solver
       = Err (RuntimeError (lock_message d sh rid n))) ∧
    locks (tables_of ward_bad_lock) = earlier ++ ((d, sh, rid, n), 1) :: later ∧
    (∀ item, item ∈ earlier →
             ¬ infeasible_lock (stage_x ward_bad_lock (tables_of ward_bad_lock)).1 item) ∧
    dict_get (n, rid, sh, d) (stage_x ward_bad_lock (tables_of ward_bad_lock)).1 = None.
Proof.
  split.
  - apply (lock_enforced_or_rejected ward (tables_of ward)
             [ward_lock "Mon" "Day" "R1" "N1" 0] [] (ward_lock "Mon" "Day" "R1" "N1" 1));
      [compute_done..| |compute_done|compute_done].
    by intros ? ?%elem_of_nil.
  - apply (lock_enforced_or_rejected ward_bad_lock (tables_of ward_bad_lock)
             [] [] (ward_lock "Mon" "Day" "R1" "N2" 1));
      [compute_done..| |compute_done|compute_done].
    by intros ? ?%elem_of_nil.
Defined.

(** A lock row with flag 1 and an existing variable that binds no solution:
    the later row of the same key resets it, the model has no lock
    constraint, and an accepted solution leaves the nurse off the slot. *)
Lemma lock_row_overridden :
  locks_df ward_overridden !! 0%nat = Some (ward_lock "Tue" "Day" "R1" "N1" 1) ∧
  dict_get ("N1", "R1", "Day", "Tue") (x (built_of ward_overridden)) = Some 1%nat ∧
  normalize ward_overridden = Ok (tables_of ward_overridden) ∧
  build ward_overridden (tables_of ward_overridden) = Ok (built_of ward_overridden) ∧
  accepted (model (built_of ward_overridden)) ward_value ∧
  assigned_nurses (tables_of ward_overridden) (x (built_of ward_overridden)) ward_value
    "Tue" "R1" "Day" = [] ∧
  out_assigned_nurses <$>
    (result_of ward_overridden (fixed_solver OPTIMAL ward_value (-6))).1 !! 4%nat = Some "".
Proof. split_and!; compute_done. Qed.

(** With demand 101 and no feasible nurse the all-zero valuation, like any
    other, is not accepted. *)
Lemma slack_bounded_witness :
  slack_var (model (built_of scenario_overflow)) 0 ∧
  100 < dict_at ("Mon", "R1", "Day") (demand (tables_of scenario_overflow))
        - Z.of_nat (feasible_count (tables_of scenario_overflow) "R1") ∧
  ¬ accepted (model (built_of scenario_overflow)) (λ _, 0).
Proof.
  destruct (slack_bounded scenario_overflow (tables_of scenario_overflow)
              (built_of scenario_overflow)) as (Hdecl & _ & Hover); [compute_done..|].
  split_and!.
  - apply (Hdecl ("Mon", "R1", "Day")). left. compute_done.
  - compute_done.
  - apply (Hover _ "Mon" "R1" "Day"); compute_done.
Defined.

(** The ward whose first nurse lacks the daily cap. *)
Lemma missing_numeric_fails_fast_witness :
  ¬ numeric_ok ward_missing_day ∧
  ∃ e, normalize ward_missing_day = Err e ∧
       conversion_error e ∧
       ∀ solver, solve_schedule_ortools ward_missing_day solver = Err e.
Proof.
  split; [compute_done|].
  apply (missing_numeric_fails_fast ward_missing_day). compute_done.
Defined.

(** Two tables that lack different fields in different rows raise the same
    exception: it names neither the row nor the field. *)
Lemma missing_numeric_not_located :
  max_shifts_per_day <$> nurses_df ward_missing_day = [NaN; Val 1] ∧
  max_shifts_per_week <$> nurses_df ward_missing_day = [Val 2; Val 2] ∧
  max_shifts_per_day <$> nurses_df ward_missing_week = [Val 2; Val 1] ∧
  max_shifts_per_week <$> nurses_df ward_missing_week = [Val 2; NaN] ∧
  solve_schedule_ortools ward_missing_day (fixed_solver OPTIMAL ward_value 0) = Err ValueError ∧
  solve_schedule_ortools ward_missing_week (fixed_solver OPTIMAL ward_value 0) = Err ValueError.
Proof. split_and!; compute_done. Qed.

(** On the ward: eight records and the summary of an OPTIMAL answer. *)
Lemma result_records_witness :
  solve_schedule_ortools ward (fixed_solver OPTIMAL ward_value (-6))
  = Ok (result_of ward (fixed_solver OPTIMAL ward_value (-6))) ∧
  ∃ t b,
    normalize ward = Ok t ∧ build ward t = Ok b ∧
    length (result_of ward (fixed_solver OPTIMAL ward_value (-6))).1
    = (length (days ward) * length (room_ids t) * length (shifts ward))%nat ∧
    (result_of ward (fixed_solver OPTIMAL ward_value (-6))).2
    = {| meta_status := "OPTIMAL"; meta_objective := Some (-6) |}.
Proof.
  split; [compute_done|].
  destruct (result_records ward (fixed_solver OPTIMAL ward_value (-6))
              (result_of ward (fixed_solver OPTIMAL ward_value (-6))).1
              (result_of ward (fixed_solver OPTIMAL ward_value (-6))).2)
    as (t & b & Hn & Hb & Hlen & _ & _ & _ & Hmeta); [compute_done|].
  exists t, b. split_and!; [exact Hn|exact Hb|exact Hlen|exact Hmeta].
Defined.

(** With overstaffing not permitted the overstaff value is absent although
    the status is OPTIMAL. *)
Lemma overstaff_absent_when_disallowed :
  accepted (model (built_of (one_room "ICU" 1 false)))
    (λ i, if bool_decide (i = 0%nat) then 1 else 0) ∧
  solve_schedule_ortools (one_room "ICU" 1 false)
    (fixed_solver OPTIMAL (λ i, if bool_decide (i = 0%nat) then 1 else 0) 0)
  = Ok ([{| out_day := "Mon"; out_room_id := "R1"; out_room_name := "Intensive care";
            out_shift := "Day"; out_required_nurses := 1; out_assigned_nurses := "N1";
            out_understaff := Some 0; out_overstaff := None |}],
        {| meta_status := "OPTIMAL"; meta_objective := Some 0 |}).
Proof. split; compute_done. Qed.

(** On the ward: the repeated demand, preference and lock keys keep 1, 4 and 1. *)
Lemma last_row_wins_witness :
  dict_get ("Mon", "R1", "Day") (demand (tables_of ward)) = Some 1 ∧
  dict_get ("N2", "Tue", "Day") (pref (tables_of ward)) = Some 4 ∧
  dict_get ("Mon", "Day", "R1", "N1") (locks (tables_of ward)) = Some 1.
Proof.
  destruct (last_row_wins ward) as [_ H].
  destruct (H (tables_of ward) ward_normalize) as (Hd & Hp & Hl).
  split_and!.
  - apply (Hd (take 2 (demand_df ward))
              {| demand_day := "Mon"; demand_room_id := "R1"; demand_shift := "Day";
                 required_nurses := Val 1 |} [] 1); [compute_done..|].
    by intros ? ?%elem_of_nil.
  - apply (Hp (take 1 (pref_df ward))
              {| pref_nurse_id := "N2"; pref_day := "Tue"; pref_shift := "Day";
                 preference := Val 4 |} [] 4); [compute_done..|].
    by intros ? ?%elem_of_nil.
  - apply (Hl (take 1 (locks_df ward)) (ward_lock "Mon" "Day" "R1" "N1" 1) [] 1);
      [compute_done..|].
    by intros ? ?%elem_of_nil.
Defined.

(** * Further properties *)

(** ** Stripping, splitting and joining *)
Lemma blank_lstrip s : blank (lstrip s) = blank s.
Proof.
  induction s as [|c s IH]; [done|]. cbn.
  destruct (is_py_space c) eqn:E; [done|]. cbn. by rewrite E.
Qed.

Lemma lstrip_head s :
  lstrip s = "" ∨ ∃ c s', lstrip s = String c s' ∧ is_py_space c = false.
Proof.
  induction s as [|c s IH]; [by left|]. cbn.
  destruct (is_py_space c) eqn:E; [done|]. right. by exists c, s.
Qed.

Lemma rstrip_empty s : rstrip s = "" ↔ blank s = true.
Proof.
  induction s as [|c s IH]; [done|]. cbn.
  destruct (is_py_space c); cbn; [|done].
  case_bool_decide as H; [|split; [done|]].
  - by rewrite <-IH.
  - intros ?%IH. done.
Qed.

Lemma strip_empty s : strip s = "" ↔ blank s = true.
Proof. unfold strip. by rewrite rstrip_empty, blank_lstrip. Qed.

Lemma rstrip_idemp s : rstrip (rstrip s) = rstrip s.
Proof.
  induction s as [|c s IH]; [done|]. cbn.
  destruct (is_py_space c && bool_decide (rstrip s = "")) eqn:E; [done|].
  cbn. by rewrite IH, E.
Qed.

Lemma rstrip_cons c s : is_py_space c = false → rstrip (String c s) = String c (rstrip s).
Proof. intros H. cbn. by rewrite H. Qed.

Lemma lstrip_cons c s : is_py_space c = false → lstrip (String c s) = String c s.
Proof. intros H. cbn. by rewrite H. Qed.

Lemma strip_idemp s : strip (strip s) = strip s.
Proof.
  unfold strip. destruct (lstrip_head s) as [->|(c & s' & -> & Hc)]; [done|].
  by rewrite !(rstrip_cons _ _ Hc), (lstrip_cons _ _ Hc), (rstrip_cons _ _ Hc), rstrip_idemp.
Qed.

Lemma occurs_lstrip c s : occurs c (lstrip s) = true → occurs c s = true.
Proof.
  induction s as [|c' s IH]; [done|]. cbn [lstrip occurs].
  destruct (is_py_space c'); [|done]. intros ?%IH. apply orb_true_iff. by right.
Qed.

Lemma occurs_rstrip c s : occurs c (rstrip s) = true → occurs c s = true.
Proof.
  induction s as [|c' s IH]; [done|]. cbn [rstrip occurs].
  destruct (is_py_space c' && _); [done|]. cbn [occurs].
  intros [?|?%IH]%orb_true_iff; apply orb_true_iff; auto.
Qed.

Lemma occurs_strip c s : occurs c s = false → occurs c (strip s) = false.
Proof.
  intros H. destruct (occurs c (strip s)) eqn:E; [|done].
  apply occurs_rstrip, occurs_lstrip in E. congruence.
Qed.

Lemma split_not_nil sep s : split sep s ≠ [].
Proof. destruct s as [|c s]; [done|]. cbn. destruct (Ascii.eqb c sep); [done|]. by destruct (split sep s). Qed.

(** No token of a split contains the separator, and the tokens of a blank
    string are blank. *)
Lemma split_token_occurs sep s w : w ∈ split sep s → occurs sep w = false.
Proof.
  revert w. induction s as [|c s IH]; intros w; cbn [split].
  - by intros ->%list_elem_of_singleton.
  - destruct (Ascii.eqb c sep) eqn:E.
    + intros [->|?]%elem_of_cons; [done|auto].
    + destruct (split sep s) as [|w0 ws];
        [by intros ->%list_elem_of_singleton; cbn [occurs]; rewrite E|].
      intros [->|?]%elem_of_cons; [|apply IH; by right].
      cbn [occurs]. rewrite E. apply IH. by left.
Qed.

Lemma split_token_blank sep s w : blank s = true → w ∈ split sep s → blank w = true.
Proof.
  revert w. induction s as [|c s IH]; intros w; cbn [split blank].
  - by intros _ ->%list_elem_of_singleton.
  - intros [Hc Hs]%andb_true_iff. destruct (Ascii.eqb c sep).
    + intros [->|?]%elem_of_cons; [done|auto].
    + destruct (split sep s) as [|w0 ws];
        [by intros ->%list_elem_of_singleton; cbn [blank]; rewrite Hc|].
      intros [->|?]%elem_of_cons; [|apply IH; [done|by right]].
      cbn [blank]. rewrite Hc. apply IH; [done|by left].
Qed.

Lemma split_no_sep sep a : occurs sep a = false → split sep a = [a].
Proof.
  induction a as [|c a IH]; [done|]. cbn [occurs split].
  intros [-> Ha]%orb_false_iff. by rewrite IH.
Qed.

Lemma split_app sep a s :
  occurs sep a = false → split sep (a +:+ String sep s) = a :: split sep s.
Proof.
  induction a as [|c a IH]; intros H.
  - change ("" +:+ String sep s) with (String sep s). cbn [split].
    by rewrite Ascii.eqb_refl.
  - cbn [occurs] in H. apply orb_false_iff in H as [E Ha].
    change (String c a +:+ String sep s) with (String c (a +:+ String sep s)).
    cbn [split]. by rewrite E, IH.
Qed.

(** Splitting a joined list gives the list back. *)
Lemma split_join sep l :
  l ≠ [] → Forall (λ a, occurs sep a = false) l →
  split sep (join (String sep "") l) = l.
Proof.
  intros Hl Hsep. induction Hsep as [|a l Ha Hsep IH]; [done|].
  destruct l as [|b l]; [by apply split_no_sep|].
  change (join (String sep "") (a :: b :: l))
    with (a +:+ String sep (join (String sep "") (b :: l))).
  rewrite split_app by done. by rewrite IH.
Qed.

Lemma filter_fmap_list {A B} (f : A → B) (P : B → Prop) `{∀ b, Decision (P b)} (l : list A) :
  filter P (f <$> l) = f <$> filter (λ a, P (f a)) l.
Proof.
  induction l as [|a l IH]; [done|].
  rewrite fmap_cons, !filter_cons, IH. by destruct (decide (P (f a))).
Qed.

Lemma filter_all {A} (P : A → Prop) `{∀ a, Decision (P a)} (l : list A) :
  Forall P l → filter P l = l.
Proof.
  induction 1 as [|a l Ha _ IH]; [done|].
  by rewrite filter_cons, decide_True, IH.
Qed.

Lemma filter_none {A} (P : A → Prop) `{∀ a, Decision (P a)} (l : list A) :
  Forall (λ a, ¬ P a) l → filter P l = [].
Proof.
  induction 1 as [|a l Ha _ IH]; [done|].
  by rewrite filter_cons, decide_False, IH.
Qed.

(** The early return of [parse_semicolon_set] for a blank cell changes
    nothing: the set is that of the stripped, non-empty tokens. *)
Lemma parse_semicolon_set_tokens s :
  parse_semicolon_set (Some s)
  = list_to_set (filter (λ w, w ≠ "") (strip <$> split ";"%char s)).
Proof.
  unfold parse_semicolon_set. case_bool_decide as Hs; [|done].
  apply strip_empty in Hs. rewrite filter_none; [done|].
  apply Forall_forall. intros w (tok & -> & Htok)%list_elem_of_fmap Hw.
  apply Hw, strip_empty. by eapply split_token_blank.
Qed.

(** X1. What a qualification cell parses to: the set of the stripped,
    non-empty pieces of the text between ";".  Every element is non-empty, has
    no surrounding whitespace and no ";"; a blank cell and a missing cell give
    the empty set. *)
Theorem parse_semicolon_set_spec :
  (∀ s w, w ∈ parse_semicolon_set (Some s) ↔
          w ≠ "" ∧ ∃ tok, tok ∈ split ";"%char s ∧ strip tok = w) ∧
  (∀ cell w, w ∈ parse_semicolon_set cell →
             w ≠ "" ∧ strip w = w ∧ occurs ";"%char w = false) ∧
  (∀ s, blank s = true → parse_semicolon_set (Some s) = ∅) ∧
  parse_semicolon_set None = ∅.
Proof.
  assert (∀ s w, w ∈ parse_semicolon_set (Some s) ↔
                 w ≠ "" ∧ ∃ tok, tok ∈ split ";"%char s ∧ strip tok = w) as Hspec.
  { intros s w.
    rewrite parse_semicolon_set_tokens, elem_of_list_to_set, list_elem_of_filter,
      list_elem_of_fmap.
    naive_solver. }
  split_and!; [done| | |done].
  - intros [s|] w; [|by intros ?%not_elem_of_empty].
    intros [Hw (tok & Htok & <-)]%Hspec. split_and!; [done|apply strip_idemp|].
    apply occurs_strip. by eapply split_token_occurs.
  - intros s Hs. unfold parse_semicolon_set.
    by rewrite bool_decide_eq_true_2 by by apply strip_empty.
Qed.

(** X2. The CSP loader and the weekly scheduler read a qualifications cell to
    the same set. *)
Theorem csp_qualifications_parse (cell : string) :
  csp_qualifications cell = parse_semicolon_set (Some cell).
Proof.
  rewrite parse_semicolon_set_tokens, filter_fmap_list. unfold csp_qualifications.
  case_bool_decide as Hc; [|done]. by subst.
Qed.

(** X3. Parsing a ";"-joined list of tokens without ";" gives the set of the
    stripped non-blank tokens. *)
Theorem parse_join (l : list string) :
  Forall (λ a, occurs ";"%char a = false) l →
  parse_semicolon_set (Some (join ";" l)) = list_to_set (filter (λ w, w ≠ "") (strip <$> l)).
Proof.
  intros Hl. rewrite parse_semicolon_set_tokens.
  destruct l as [|a l]; [done|]. by rewrite split_join.
Qed.

Lemma parse_join_witness :
  parse_semicolon_set (Some (join ";" ["ICU"; " Charge "; ""; "ICU"]))
  = list_to_set (filter (λ w, w ≠ "") (strip <$> ["ICU"; " Charge "; ""; "ICU"])).
Proof. apply (parse_join ["ICU"; " Charge "; ""; "ICU"]). compute_done. Defined.

(** The count of the quick coverage check is the number of non-blank tokens
    of the cell. *)
Lemma assigned_count_tokens s :
  assigned_count (Some s) = length (filter (λ x, strip x ≠ "") (split ";"%char s)).
Proof.
  unfold assigned_count. cbn. case_bool_decide as Hs; [|done].
  apply strip_empty in Hs. rewrite filter_none; [done|].
  apply Forall_forall. intros tok Htok Hw.
  apply Hw, strip_empty. by eapply split_token_blank.
Qed.

(** A nurse id the joined cell can carry: no ";" and not blank. *)
Lemma assigned_count_join (l : list string) :
  Forall (λ a, occurs ";"%char a = false ∧ blank a = false) l →
  assigned_count (Some (join ";" l)) = length l.
Proof.
  intros Hl. rewrite assigned_count_tokens.
  destruct l as [|a l]; [done|].
  rewrite split_join; [|done|by eapply Forall_impl; [done|naive_solver]].
  rewrite filter_all; [done|].
  eapply Forall_impl; [done|]. intros b [_ Hb] ?%strip_empty. congruence.
Qed.

(** ** The quick coverage check of the application *)

(** X4. For every row of a solve that found a solution, the gap the
    application computes from the row's text (required count minus the number
    of ids in the joined cell) is the row's understaff minus its overstaff,
    provided no nurse id is blank or contains ";". *)
Theorem quick_check_gap (inp : inputs) (t : tables) (b : built) (r : response)
    (rows : list schedule_row) (row : schedule_row) :
  normalize inp = Ok t →
  build inp t = Ok b →
  accepted (model b) (Value r) →
  found (status r) = true →
  Forall (λ n, occurs ";"%char n = false ∧ blank n = false) (nurse_ids t) →
  schedule_rows inp t b r = Ok rows →
  row ∈ rows →
  gap (out_required_nurses row) (Some (out_assigned_nurses row))
  = default 0 (out_understaff row) - default 0 (out_overstaff row).
Proof.
  intros _ Hb Ha Hf Hids ->%schedule_rows_Ok.
  intros ([[d rid] sh] & -> & Hk)%list_elem_of_fmap.
  apply elem_of_slots in Hk as (Hd & Hr & Hs).
  destruct (slot_solution inp t b (Value r) d rid sh) as (u & o & Eu & _ & Ho & Heq);
    try done.
  unfold gap. cbn [schedule_row_of out_required_nurses out_assigned_nurses out_understaff
                     out_overstaff fst snd].
  rewrite Hf, andb_true_r, (dict_at_Some _ _ _ Eu).
  rewrite assigned_count_join.
  2:{ rewrite assigned_nurses_filter. apply Forall_forall.
      intros n [_ Hn]%list_elem_of_filter. by eapply Forall_forall in Hids. }
  destruct (allow_overstaff inp); cbn [default].
  - destruct Ho as [Eo _]; [done|]. rewrite (dict_at_Some _ _ _ Eo). unfold id. lia.
  - unfold id. lia.
Qed.

Lemma quick_check_gap_witness :
  ∃ rows,
    schedule_rows ward (tables_of ward) (built_of ward)
      {| status := OPTIMAL; Value := ward_value; ObjectiveValue := -6 |} = Ok rows ∧
    length rows = 8%nat ∧
    Forall
      (λ row,
         gap (out_required_nurses row) (Some (out_assigned_nurses row))
         = default 0 (out_understaff row) - default 0 (out_overstaff row))
      rows.
Proof.
  eexists. split; [by vm_compute|]. split; [done|].
  apply Forall_forall. intros row Hrow.
  eapply (quick_check_gap ward (tables_of ward) (built_of ward)
            {| status := OPTIMAL; Value := ward_value; ObjectiveValue := -6 |});
    [compute_done|compute_done|compute_done|compute_done|compute_done
    |by vm_compute|exact Hrow].
Defined.

(** ** What a result row can list *)

(** X5. Whatever valuation the backend reports, accepted or not, the nurses
    listed for a slot are listed in the order of the nurse table, and each is
    a nurse of the table qualified for the room, on a selected day and
    shift. *)
Theorem listed_nurses_qualified (inp : inputs) (t : tables) (b : built)
    (value : nat → Z) (d rid sh : string) :
  normalize inp = Ok t →
  build inp t = Ok b →
  assigned_nurses t (x b) value d rid sh `sublist_of` nurse_ids t ∧
  ∀ n, n ∈ assigned_nurses t (x b) value d rid sh →
       n ∈ nurse_ids t ∧ rid ∈ room_ids t ∧ sh ∈ shifts inp ∧ d ∈ days inp ∧
       dict_at rid (req_by_room t) ⊆ dict_at n (qual_by_nurse t).
Proof.
  intros _ Hb. pose proof (build_stages _ _ _ Hb) as (_ & _ & _ & _ & _ & Hx & _).
  split.
  - rewrite assigned_nurses_filter. apply sublist_filter.
  - intros n. rewrite Hx.
    intros (v & Hin & _)%elem_of_assigned_nurses%elem_of_assignments.
    apply stage_x_elem in Hin as (? & ? & ?%feasible_spec & ? & ? & _). done.
Qed.

(** On the ward, under a valuation that sets every variable to 1 (no accepted
    solution), the ICU room still lists the ICU nurse only. *)
Lemma listed_nurses_qualified_witness :
  assigned_nurses (tables_of ward) (x (built_of ward)) (λ _, 1) "Mon" "R1" "Day" = ["N1"] ∧
  ∀ n, n ∈ assigned_nurses (tables_of ward) (x (built_of ward)) (λ _, 1) "Mon" "R1" "Day" →
       n ∈ nurse_ids (tables_of ward) ∧ "R1" ∈ room_ids (tables_of ward) ∧
       "Day" ∈ shifts ward ∧ "Mon" ∈ days ward ∧
       dict_at "R1" (req_by_room (tables_of ward)) ⊆ dict_at n (qual_by_nurse (tables_of ward)).
Proof.
  split; [compute_done|].
  apply (listed_nurses_qualified ward (tables_of ward) (built_of ward) (λ _, 1)
           "Mon" "R1" "Day"); compute_done.
Defined.

(** ** Role coverage *)
Lemma for_collect_omap {A B} (f : A → option B) (l : list A) (acc : list B) :
  for_ l (λ a acc, match f a with Some v => acc ++ [v] | None => acc end) acc
  = acc ++ omap f l.
Proof.
  revert acc. induction l as [|a l IH]; intros acc; [by rewrite app_nil_r|].
  rewrite for_cons, IH. cbn. destruct (f a); [by rewrite <-app_assoc|done].
Qed.

Lemma for_collect_bind {A B} (g : A → list B) (l : list A) (acc : list B) :
  for_ l (λ a acc, acc ++ g a) acc = acc ++ (l ≫= g).
Proof.
  revert acc. induction l as [|a l IH]; intros acc; [by rewrite app_nil_r|].
  rewrite for_cons, IH. change ((a :: l) ≫= g) with (g a ++ (l ≫= g)).
  by rewrite app_assoc.
Qed.

(** A sum of boolean variables that is at least 1 has a variable set to 1. *)
Lemma eval_Sum_one m value vs :
  accepted m value → Forall (bool_var m) vs → 1 ≤ eval value (Sum vs) →
  ∃ v, v ∈ vs ∧ value v = 1.
Proof.
  intros Ha Hb. rewrite (eval_Sum_count m) by done.
  destruct (filter (λ v, value v = 1) vs) as [|v l] eqn:E; [cbn; lia|]. intros _.
  assert (v ∈ filter (λ v, value v = 1) vs) as [? ?]%list_elem_of_filter
    by (rewrite E; by left).
  by exists v.
Qed.

(** [charge_assigned] of the charge stage. *)
Lemma charge_assigned_elem (x : dict key4 nat) rooms nurses sh d v :
  v ∈ for_ rooms (λ rid,
        for_ nurses (λ n acc,
          match dict_get (n, rid, sh, d) x with
          | Some v => acc ++ [v]
          | None => acc
          end)) [] ↔
  ∃ rid n, rid ∈ rooms ∧ n ∈ nurses ∧ dict_get (n, rid, sh, d) x = Some v.
Proof.
  rewrite (for_ext _ _ (λ rid acc, acc ++ omap (λ n, dict_get (n, rid, sh, d) x) nurses))
    by (intros; apply for_collect_omap).
  rewrite for_collect_bind, app_nil_l, list_elem_of_bind.
  setoid_rewrite list_elem_of_omap. naive_solver.
Qed.

Lemma add_charge_constraint t days shifts tags x m d sh :
  d ∈ days → sh ∈ shifts →
  0 < charge_demand t tags d sh →
  let charge_assigned :=
    for_ (charge_room_ids t tags) (λ rid,
      for_ (charge_nurses t) (λ n acc,
        match dict_get (n, rid, sh, d) x with
        | Some v => acc ++ [v]
        | None => acc
        end)) [] in
  truthy charge_assigned = true →
  Ge (Sum charge_assigned) (Const 1) ∈ constraints (add_charge t days shifts tags x m).
Proof.
  intros Hd Hs Hdem charge_assigned Ht. unfold add_charge.
  fold (charge_nurses t). fold (charge_room_ids t tags).
  apply truthy_elem in Ht as Hv. destruct Hv as (v & (rid & n & Hr & Hn & _)%charge_assigned_elem).
  rewrite (truthy_intro _ _ Hr), (truthy_intro _ _ Hn). cbn [andb].
  apply (for_adds _ _ d); [done| |].
  - intros d' m'. apply for_model_le. intros sh' m''. cbv beta zeta.
    case_bool_decide; [done|]. apply if_Add_le.
  - intros m'. apply (for_adds _ _ sh); [done| |].
    + intros sh' m''. cbv beta zeta. case_bool_decide; [done|]. apply if_Add_le.
    + intros m''. cbv beta zeta. fold (charge_demand t tags d sh).
      rewrite bool_decide_eq_false_2 by lia. fold charge_assigned. rewrite Ht.
      apply Add_elem.
Qed.

Lemma build_roles_le inp t b m_rest :
  build inp t = Ok b → stage_rest inp t = Ok m_rest →
  model_le (stage_roles inp t m_rest) (model b).
Proof.
  intros (m_rest' & m_locks & Hr & Hl & Hle & _)%build_stages Hr'.
  rewrite Hr' in Hr. injection Hr as <-.
  etrans; [by eapply add_locks_le|done].
Qed.

(** X6. The charge rule: in every accepted solution, for every selected day
    and shift where the rooms of the charge-required tags have a positive
    total demand and some nurse holding "Charge" is qualified for one of these
    rooms, a nurse holding "Charge" is assigned to one of these rooms. *)
Theorem charge_coverage (inp : inputs) (t : tables) (b : built) (value : nat → Z)
    (d sh rid n : string) :
  normalize inp = Ok t →
  build inp t = Ok b →
  accepted (model b) value →
  d ∈ days inp → sh ∈ shifts inp →
  0 < charge_demand t (charge_rooms_tags inp) d sh →
  rid ∈ charge_room_ids t (charge_rooms_tags inp) →
  n ∈ charge_nurses t →
  feasible t n rid = true →
  ∃ rid' n',
    rid' ∈ charge_room_ids t (charge_rooms_tags inp) ∧ n' ∈ charge_nurses t ∧
    (n', rid', sh, d) ∈ assignments (x b) value.
Proof.
  intros _ Hb Ha Hd Hs Hdem Hr Hn Hf.
  pose proof (build_stages _ _ _ Hb) as (m_rest & m_locks & Hrest & _ & _ & Hx & _).
  pose proof (build_roles_le _ _ _ _ Hb Hrest) as Hle.
  assert (∃ v, dict_get (n, rid, sh, d) (stage_x inp t).1 = Some v) as [v Hv].
  { apply dict_get_is_Some, create_x_keys. left. apply elem_of_x_keys.
    apply list_elem_of_filter in Hr as [_ Hr], Hn as [_ Hn]. done. }
  epose proof (add_charge_constraint t (days inp) (shifts inp) (charge_rooms_tags inp)
                 (stage_x inp t).1 m_rest d sh Hd Hs Hdem _) as Hc.
  eapply model_le_constraint in Hc; [|apply add_cnor_le].
  eapply model_le_constraint, (accepted_holds _ _ _ Ha) in Hc; [|exact Hle].
  cbn [holds eval] in Hc. apply bool_decide_eq_true in Hc.
  apply (eval_Sum_one (model b)) in Hc as (v' & Hin & Hv'); [|done|].
  - apply charge_assigned_elem in Hin as (rid' & n' & ? & ? & Hg).
    exists rid', n'. split_and!; [done..|].
    rewrite Hx. apply elem_of_assignments. exists v'. split; [by apply dict_get_elem|done].
  - apply Forall_forall. intros v' (rid' & n' & _ & _ & Hg)%charge_assigned_elem.
    eapply build_x_bool; [done|by rewrite Hx].
  Unshelve.
  eapply truthy_intro, charge_assigned_elem. eauto.
Qed.

(** On the ward: the ICU room demands a nurse on Monday's day shift; N1 holds
    "Charge". *)
Lemma charge_coverage_witness :
  0 < charge_demand (tables_of ward) (charge_rooms_tags ward) "Mon" "Day" ∧
  ∃ rid' n',
    rid' ∈ charge_room_ids (tables_of ward) (charge_rooms_tags ward) ∧
    n' ∈ charge_nurses (tables_of ward) ∧
    (n', rid', "Day", "Mon") ∈ assignments (x (built_of ward)) ward_value.
Proof.
  split; [compute_done|].
  apply (charge_coverage ward (tables_of ward) (built_of ward) ward_value
           "Mon" "Day" "R1" "N1"); compute_done.
Defined.

(** [cnor_vars] of the skill-mix stage. *)
Lemma cnor_vars_elem t (x : dict key4 nat) rid sh d v :
  v ∈ for_ (nurse_ids t) (λ n acc,
        if bool_decide (dict_at n (cert_by_nurse t) = "CNOR") then
          match dict_get (n, rid, sh, d) x with
          | Some v => acc ++ [v]
          | None => acc
          end
        else acc) [] ↔
  ∃ n, n ∈ nurse_ids t ∧ dict_at n (cert_by_nurse t) = "CNOR" ∧
       dict_get (n, rid, sh, d) x = Some v.
Proof.
  rewrite (for_ext _ _
             (λ n acc,
                match (if bool_decide (dict_at n (cert_by_nurse t) = "CNOR")
                       then dict_get (n, rid, sh, d) x else None) with
                | Some v => acc ++ [v]
                | None => acc
                end)) by (intros n acc _; by case_bool_decide).
  rewrite for_collect_omap, app_nil_l, list_elem_of_omap.
  split; intros (n & ? & H); exists n.
  - case_bool_decide; [done|discriminate].
  - destruct H as [-> ?]. by rewrite bool_decide_eq_true_2.
Qed.

Lemma add_cnor_constraint t days shifts x m d rid sh :
  d ∈ days → rid ∈ or_room_ids t → sh ∈ shifts →
  0 < dict_at (d, rid, sh) (demand t) →
  let cnor_vars :=
    for_ (nurse_ids t) (λ n acc,
      if bool_decide (dict_at n (cert_by_nurse t) = "CNOR") then
        match dict_get (n, rid, sh, d) x with
        | Some v => acc ++ [v]
        | None => acc
        end
      else acc) [] in
  truthy cnor_vars = true →
  Ge (Sum cnor_vars) (Const 1) ∈ constraints (add_cnor t days shifts true x m).
Proof.
  intros Hd Hr Hs Hdem cnor_vars Ht. unfold add_cnor. fold (or_room_ids t).
  apply (for_adds _ _ d); [done| |].
  - intros d' m'. apply for_model_le. intros rid' m''. apply for_model_le.
    intros sh' m'''. cbv beta zeta. case_bool_decide; [done|]. apply if_Add_le.
  - intros m'. apply (for_adds _ _ rid); [done| |].
    + intros rid' m''. apply for_model_le.
      intros sh' m'''. cbv beta zeta. case_bool_decide; [done|]. apply if_Add_le.
    + intros m''. apply (for_adds _ _ sh); [done| |].
      * intros sh' m'''. cbv beta zeta. case_bool_decide; [done|]. apply if_Add_le.
      * intros m'''. cbv beta zeta. rewrite bool_decide_eq_false_2 by lia.
        fold cnor_vars. rewrite Ht. apply Add_elem.
Qed.

(** X7. The skill-mix rule: when it is enabled, in every accepted solution,
    for every slot of a room tagged "OR" with positive demand for which some
    nurse certified "CNOR" is qualified, a nurse certified "CNOR" is assigned
    to that room on that day and shift. *)
Theorem cnor_coverage (inp : inputs) (t : tables) (b : built) (value : nat → Z)
    (d rid sh n : string) :
  normalize inp = Ok t →
  build inp t = Ok b →
  accepted (model b) value →
  require_cnor_in_or inp = true →
  d ∈ days inp → rid ∈ or_room_ids t → sh ∈ shifts inp →
  0 < dict_at (d, rid, sh) (demand t) →
  n ∈ nurse_ids t → dict_at n (cert_by_nurse t) = "CNOR" → feasible t n rid = true →
  ∃ n', n' ∈ nurse_ids t ∧ dict_at n' (cert_by_nurse t) = "CNOR" ∧
        (n', rid, sh, d) ∈ assignments (x b) value.
Proof.
  intros _ Hb Ha Hreq Hd Hr Hs Hdem Hn Hcert Hf.
  pose proof (build_stages _ _ _ Hb) as (m_rest & m_locks & Hrest & _ & _ & Hx & _).
  pose proof (build_roles_le _ _ _ _ Hb Hrest) as Hle.
  assert (∃ v, dict_get (n, rid, sh, d) (stage_x inp t).1 = Some v) as [v Hv].
  { apply dict_get_is_Some, create_x_keys. left. apply elem_of_x_keys.
    apply list_elem_of_filter in Hr as [_ Hr]. done. }
  epose proof (add_cnor_constraint t (days inp) (shifts inp) (stage_x inp t).1
                 (add_charge t (days inp) (shifts inp) (charge_rooms_tags inp)
                    (stage_x inp t).1 m_rest) d rid sh Hd Hr Hs Hdem _) as Hc.
  unfold stage_roles in Hle. rewrite Hreq in Hle.
  eapply model_le_constraint, (accepted_holds _ _ _ Ha) in Hc; [|exact Hle].
  cbn [holds eval] in Hc. apply bool_decide_eq_true in Hc.
  apply (eval_Sum_one (model b)) in Hc as (v' & Hin & Hv'); [|done|].
  - apply cnor_vars_elem in Hin as (n' & ? & ? & Hg).
    exists n'. split_and!; [done..|].
    rewrite Hx. apply elem_of_assignments. exists v'. split; [by apply dict_get_elem|done].
  - apply Forall_forall. intros v' (n' & _ & _ & Hg)%cnor_vars_elem.
    eapply build_x_bool; [done|by rewrite Hx].
  Unshelve.
  eapply truthy_intro, cnor_vars_elem. eauto.
Qed.

(** On the ward: the theatre (tag "OR") demands a nurse on Monday night; N1
    is certified "CNOR". *)
Lemma cnor_coverage_witness :
  0 < dict_at ("Mon", "R2", "Night") (demand (tables_of ward)) ∧
  ∃ n', n' ∈ nurse_ids (tables_of ward) ∧
        dict_at n' (cert_by_nurse (tables_of ward)) = "CNOR" ∧
        (n', "R2", "Night", "Mon") ∈ assignments (x (built_of ward)) ward_value.
Proof.
  split; [compute_done|].
  apply (cnor_coverage ward (tables_of ward) (built_of ward) ward_value
           "Mon" "R2" "Night" "N1"); compute_done.
Defined.

(** ** Selected days that repeat *)

(** [inv_day] holds an index exactly when the day selected there is not
    selected again later. *)
Lemma day_index_last days i d :
  days !! i = Some d → (∀ j, (i < j)%nat → days !! j ≠ Some d) →
  dict_get d (day_index days) = Some i.
Proof.
  intros Hi Hlast. destruct (enumerate_split days i d Hi) as (pre & post & E & Hpost).
  unfold day_index. rewrite E.
  apply (dict_of_last (V := nat) snd fst pre (i, d) post).
  intros [j d'] [Hj ?]%Hpost Heq. cbn in Heq. subst d'. by apply (Hlast j).
Qed.

Lemma inv_day_day_index days i d :
  dict_get i (inv_day days) = Some d → dict_get d (day_index days) = Some i.
Proof.
  intros ([d' i'] & Hin & ? & ?)%dict_get_elem%dict_of_elem. cbn in *. subst d' i'.
  apply dict_elem_get; [apply dict_of_NoDup|done].
Qed.

Lemma inv_day_last days i d :
  days !! i = Some d → (∀ j, (i < j)%nat → days !! j ≠ Some d) →
  dict_get i (inv_day days) = Some d.
Proof.
  intros Hi Hlast. pose proof (day_index_last _ _ _ Hi Hlast) as Hd.
  apply dict_get_elem, list_elem_of_split in Hd as (pre & post & E).
  unfold inv_day. rewrite E.
  apply (dict_of_last (V := string) snd fst pre (d, i) post).
  intros [d' i'] Hin Heq. cbn in Heq. subst i'.
  assert ((d', i) ∈ day_index days) as Hin' by (rewrite E; set_solver).
  apply dict_of_elem in Hin' as ([j d''] & Hin' & ? & ?). cbn in *. subst j d''.
  apply enumerate_lookup in Hin'. assert (d' = d) as -> by congruence.
  pose proof (dict_of_NoDup (V := nat) snd fst (enumerate days)) as Hk.
  fold (day_index days) in Hk. rewrite E in Hk. unfold dict_keys in Hk.
  rewrite fmap_app, fmap_cons in Hk. apply NoDup_app in Hk as (_ & _ & Hk).
  apply NoDup_cons in Hk as [Hk _]. apply Hk.
  apply list_elem_of_fmap. by exists (d, i).
Qed.

Lemma inv_day_None days i :
  (i < length days)%nat → dict_get i (inv_day days) = None →
  ∃ j d, (i < j)%nat ∧ days !! i = Some d ∧ days !! j = Some d.
Proof.
  intros Hi Hnone. destruct (lookup_lt_is_Some_2 days i Hi) as [d Hd].
  destruct (decide (d ∈ drop (S i) days)) as [Hin|Hin].
  - apply list_elem_of_lookup in Hin as [k Hk]. rewrite lookup_drop in Hk.
    exists (S i + k)%nat, d. split_and!; [lia|done..].
  - rewrite (inv_day_last _ _ d) in Hnone; [done|done|].
    intros j Hj Hjd. apply Hin, list_elem_of_lookup.
    exists (j - S i)%nat. rewrite lookup_drop. by replace (S i + (j - S i))%nat with j by lia.
Qed.

Lemma rest_step_Err x inv n i m e :
  rest_step x inv n i m = Err e →
  ∃ j, (j = i ∨ j = (i + 1)%nat) ∧ dict_get j inv = None ∧ e = KeyError (pretty j).
Proof.
  unfold rest_step, getitem.
  destruct (dict_get i inv) as [d|] eqn:E1; cbn.
  - destruct (dict_get (i + 1)%nat inv) as [d'|] eqn:E2; cbn.
    + by destruct (_ && _).
    + intros [= <-]. exists (i + 1)%nat. auto.
  - intros [= <-]. exists i. auto.
Qed.

Lemma build_rest_Err inp t e : stage_rest inp t = Err e → build inp t = Err e.
Proof.
  unfold build, stage_rest, stage_coverage, stage_caps.
  change (create_x t (shifts inp) (days inp) ([], new_model)) with (stage_x inp t).
  destruct (stage_x inp t) as [x0 m0]. cbn [fst snd]. by intros ->.
Qed.

(** When the rest rule is active and the model is built, the selected days
    are distinct. *)
Lemma add_rest_rule_Ok_NoDup t days shifts x m m' n :
  add_rest_rule t days shifts true x m = Ok m' →
  "Night" ∈ shifts → "Day" ∈ shifts → n ∈ nurse_ids t → NoDup days.
Proof.
  intros Hm Hnight Hday Hn.
  assert (∀ i, (i < length days)%nat → (2 ≤ length days)%nat →
               is_Some (dict_get i (inv_day days))) as Hdef.
  { intros i Hi Hlen. destruct (decide (i + 1 < length days)%nat).
    - destruct (add_rest_rule_spec t days shifts x m m' n i) as (d & _ & -> & _); done.
    - destruct (add_rest_rule_spec t days shifts x m m' n (i - 1)) as (_ & d & _ & Hd & _);
        try done; [lia|].
      replace (i - 1 + 1)%nat with i in Hd by lia. by rewrite Hd. }
  apply NoDup_alt. intros i j d Hi Hj.
  pose proof (lookup_lt_Some _ _ _ Hi). pose proof (lookup_lt_Some _ _ _ Hj).
  destruct (decide (2 ≤ length days)%nat); [|lia].
  destruct (Hdef i) as [di Hdi]; [done..|]. destruct (Hdef j) as [dj Hdj]; [done..|].
  pose proof (inv_day_lookup _ _ _ Hdi) as Hli. pose proof (inv_day_lookup _ _ _ Hdj) as Hlj.
  apply inv_day_day_index in Hdi. apply inv_day_day_index in Hdj. congruence.
Qed.

(** X8. With the rest rule active and at least one nurse, selecting a day
    twice makes the solve fail before the backend is called: it raises
    [KeyError] for an index whose day is selected again later. *)
Theorem rest_rule_repeated_day (inp : inputs) (t : tables) :
  normalize inp = Ok t →
  enforce_rest_night_to_day inp = true →
  "Night" ∈ shifts inp → "Day" ∈ shifts inp →
  nurse_ids t ≠ [] →
  ¬ NoDup (days inp) →
  ∃ i j d,
    (i < j)%nat ∧ days inp !! i = Some d ∧ days inp !! j = Some d ∧
    ∀ solver, solve_schedule_ortools inp solver = Err (KeyError (pretty i)).
Proof.
  intros Hn He Hnight Hday Hnurses Hdup.
  destruct (nurse_ids t) as [|n0 ns] eqn:En; [done|]. clear Hnurses.
  assert (n0 ∈ nurse_ids t) as Hn0 by (rewrite En; by left).
  destruct (stage_rest inp t) as [m'|e] eqn:Er.
  { destruct Hdup. unfold stage_rest in Er. rewrite He in Er.
    by eapply add_rest_rule_Ok_NoDup. }
  assert (∃ i, (i < length (days inp))%nat ∧ dict_get i (inv_day (days inp)) = None ∧
               e = KeyError (pretty i)) as (i & Hi & Hnone & ->).
  { unfold stage_rest, add_rest_rule in Er. rewrite He in Er.
    rewrite !bool_decide_eq_true_2 in Er by done. cbn [andb] in Er.
    change (for_M (nurse_ids t)
              (λ n, for_M (seq 0 (length (days inp) - 1))
                      (rest_step (stage_x inp t).1 (inv_day (days inp)) n))
              (cov_model (stage_coverage inp t)) = Err e) in Er.
    destruct (for_M_cases (nurse_ids t)
                (λ n, for_M (seq 0 (length (days inp) - 1))
                        (rest_step (stage_x inp t).1 (inv_day (days inp)) n))
                (cov_model (stage_coverage inp t)))
      as [[m' Hm']|(n & m1 & e' & _ & Hbody & He')]; [congruence|].
    assert (e' = e) as -> by congruence. clear He'.
    destruct (for_M_cases (seq 0 (length (days inp) - 1))
                (rest_step (stage_x inp t).1 (inv_day (days inp)) n) m1)
      as [[m' Hm']|(i & m2 & e' & Hi & Hstep & He')]; [congruence|].
    assert (e' = e) as -> by congruence.
    apply rest_step_Err in Hstep as (j & Hj & Hnone & ->).
    apply elem_of_seq in Hi. exists j. split_and!; [lia|done..]. }
  destruct (inv_day_None _ _ Hi Hnone) as (j & d & ? & ? & ?).
  exists i, j, d. split_and!; [done..|].
  intros solver. unfold solve_schedule_ortools. rewrite Hn. cbn.
  by rewrite (build_rest_Err _ _ _ Er).
Qed.

(** On the ward with Monday selected twice. *)
Lemma rest_rule_repeated_day_witness :
  ¬ NoDup (days ward_monday_twice) ∧
  ∃ i j d,
    (i < j)%nat ∧ days ward_monday_twice !! i = Some d ∧
    days ward_monday_twice !! j = Some d ∧
    ∀ solver, solve_schedule_ortools ward_monday_twice solver = Err (KeyError (pretty i)).
Proof.
  split; [compute_done|].
  apply (rest_rule_repeated_day ward_monday_twice (tables_of ward_monday_twice));
    compute_done.
Defined.

(** ** The objective *)
Lemma for_collect_omap_ext {A B} (f : A → option B) (body : A → list B → list B)
    (l : list A) (acc : list B) :
  (∀ a acc, body a acc = match f a with Some v => acc ++ [v] | None => acc end) →
  for_ l body acc = acc ++ omap f l.
Proof.
  intros Hb. rewrite <-for_collect_omap. apply for_ext. intros; apply Hb.
Qed.

Lemma for_append_ext {A B} (f : A → B) (body : A → list B → list B)
    (l : list A) (acc : list B) :
  (∀ a acc, body a acc = acc ++ [f a]) → for_ l body acc = acc ++ (f <$> l).
Proof.
  intros Hb. rewrite <-for_append. apply for_ext. intros; apply Hb.
Qed.

(** The objective terms, loop by loop. *)
Lemma objective_terms_eq t days allow w (x : dict key4 nat) (under over : dict key3 nat)
    (fair : dict string nat) :
  objective_terms t days allow w x under over fair
  = omap (λ kv, if bool_decide (pref_of t kv.1 ≠ 0)
                then Some (w_pref w * pref_of t kv.1, kv.2) else None) x
    ++ ((λ kv, (- w_understaff w, kv.2)) <$> under)
    ++ (if allow then (λ kv, (- w_overstaff w, kv.2)) <$> over else [])
    ++ ((λ kv, (- w_fairness w, kv.2)) <$> fair)
    ++ (if bool_decide (w_weekend w > 0)
        then omap (λ kv, if weekend_key days kv.1 then Some (- w_weekend w, kv.2) else None) x
        else []).
Proof.
  unfold objective_terms. cbv zeta.
  rewrite (for_collect_omap_ext
             (λ kv, if bool_decide (pref_of t kv.1 ≠ 0)
                    then Some (w_pref w * pref_of t kv.1, kv.2) else None) _ x [])
    by (intros [[[[n rid] sh] d] var] acc; unfold pref_of; cbn; by case_bool_decide).
  rewrite (for_append_ext (λ kv, (- w_understaff w, kv.2)) _ under)
    by (by intros [k u] acc).
  assert (∀ acc, (if allow
                  then for_ over (λ '(_, o) obj, obj ++ [(- w_overstaff w, o)]) acc
                  else acc)
                 = acc ++ (if allow then (λ kv, (- w_overstaff w, kv.2)) <$> over else []))
    as ->.
  { intros acc. destruct allow; [|by rewrite app_nil_r].
    apply for_append_ext. by intros [k o] acc'. }
  rewrite (for_append_ext (λ kv, (- w_fairness w, kv.2)) _ fair)
    by (by intros [k dev] acc).
  rewrite app_nil_l, <-!app_assoc.
  destruct (truthy (filter (λ d, d = "Sat" ∨ d = "Sun") days)) eqn:Et; cbn [andb].
  - case_bool_decide; [|by rewrite !app_nil_r].
    rewrite (for_collect_omap_ext
               (λ kv, if weekend_key days kv.1 then Some (- w_weekend w, kv.2) else None)
               _ x)
      by (intros [[[[n rid] sh] d] var] acc; unfold weekend_key; cbn; by case_bool_decide).
    by rewrite <-!app_assoc.
  - apply truthy_false in Et.
    assert (omap (λ kv : key4 * nat,
                    if weekend_key days kv.1 then Some (- w_weekend w, kv.2) else None) x
            = []) as ->.
    { induction x as [|kv x IH]; [done|]. cbn. rewrite IH.
      unfold weekend_key. rewrite Et. rewrite bool_decide_eq_false_2; [done|].
      by intros ?%elem_of_nil. }
    destruct (bool_decide (w_weekend w > 0)); by rewrite ?app_nil_r.
Qed.

(** ** Fairness *)
Local Ltac solve_prefix :=
  solve [ done | by apply prefix_app_r | by do 2 apply prefix_app_r
        | by do 3 apply prefix_app_r ].

Local Ltac new_entry :=
  eexists _, _; cbn; rewrite dict_get_set_eq; split; [done|];
  cbv [fair_entry Add NewIntVar]; cbn; split_and!;
  [ apply lookup_app_l_Some; by rewrite lookup_app_r, Nat.sub_diag
  | by rewrite lookup_app_r, Nat.sub_diag
  | set_solver | set_solver | set_solver ].

Lemma fair_entry_le x target m m' n total dev :
  model_le m m' → fair_entry x target m n total dev → fair_entry x target m' n total dev.
Proof.
  intros Hle (H1 & H2 & H3 & H4 & H5).
  split_and!; eauto using model_le_variable, model_le_constraint.
Qed.

Lemma add_fairness_entry t target x m n :
  n ∈ nurse_ids t →
  ∃ total dev,
    dict_get n (fairness_dev (add_fairness t (Some target) x m)) = Some dev ∧
    fair_entry x target (fair_model (add_fairness t (Some target) x m)) n total dev.
Proof.
  intros Hn. unfold add_fairness.
  apply (for_reach (λ _, True)
           (λ s, ∃ total dev, dict_get n (fairness_dev s) = Some dev ∧
                              fair_entry x target (fair_model s) n total dev)
           _ _ n); [done|done| | |done].
  - intros n' s _ _ (total & dev & Hg & He).
    destruct (decide (n' = n)) as [->|Hne].
    + new_entry.
    + exists total, dev. cbn. rewrite dict_get_set_ne by done. split; [done|].
      eapply fair_entry_le; [|done]. split; cbn; solve_prefix.
  - intros s _. new_entry.
Qed.

(** The model of [build] is the model after the locks, extended by the
    fairness loop and given the objective. *)
Lemma build_objective inp t b :
  build inp t = Ok b →
  ∃ m_locks,
    let fair := add_fairness t (target_shifts_per_nurse_week inp) (x b) m_locks in
    model b =
      Maximize
        (objective_terms t (days inp) (allow_overstaff inp) (weights inp) (x b)
           (slack_under b) (slack_over b) (fairness_dev fair))
        (fair_model fair).
Proof.
  unfold build.
  destruct (create_x t (shifts inp) (days inp) ([], new_model)) as [x0 m0].
  intros (m_rest & Hr & H)%bind_Ok. apply bind_Ok in H as (m_locks & Hl & H).
  injection H as <-. by exists m_locks.
Qed.

(** X9. With a weekly target, every nurse of the table has a total and a
    deviation variable with domain 0..1000 in the built model; in every accepted
    solution the total is the number of shifts the nurse works over the horizon,
    the deviation is at least the distance of that number from the target, and
    the deviation is a term of the objective with coefficient [- w_fairness]. *)
Theorem fairness_deviation (inp : inputs) (t : tables) (b : built) (value : nat → Z)
    (target : Z) (n : string) :
  build inp t = Ok b →
  target_shifts_per_nurse_week inp = Some target →
  n ∈ nurse_ids t →
  accepted (model b) value →
  ∃ total dev,
    variables (model b) !! total = Some {| lb := 0; ub := 1000; name := "tot_" +:+ n |} ∧
    variables (model b) !! dev = Some {| lb := 0; ub := 1000; name := "dev_" +:+ n |} ∧
    value total = Z.of_nat (shifts_in_week (x b) value n) ∧
    Z.abs (Z.of_nat (shifts_in_week (x b) value n) - target) ≤ value dev ≤ 1000 ∧
    (- w_fairness (weights inp), dev) ∈ objective (model b).
Proof.
  intros Hb Ht Hn Ha.
  destruct (build_objective _ _ _ Hb) as [m_locks Hm]. cbv zeta in Hm. rewrite Ht in Hm.
  destruct (add_fairness_entry t target (x b) m_locks n Hn)
    as (total & dev & Hg & Hv1 & Hv2 & Hc1 & Hc2 & Hc3).
  assert (value total = Z.of_nat (shifts_in_week (x b) value n)) as Htot.
  { assert (holds value
              (Eq (Var total)
                 (if truthy (x_vars (x b) (λ k, bool_decide (k.1.1.1 = n)))
                  then Sum (x_vars (x b) (λ k, bool_decide (k.1.1.1 = n)))
                  else Const 0)) = true) as H.
    { apply (accepted_holds (model b)); [done|]. by rewrite Hm. }
    cbn [holds] in H. apply bool_decide_eq_true in H. change (eval value (Var total)) with (value total) in H.
    rewrite H. unfold shifts_in_week.
    rewrite <-(length_filter_x_vars (x b) value (λ k, k.1.1.1 = n)).
    destruct (truthy _) eqn:Et.
    - apply (eval_Sum_count (model b)); [done|]. by eapply x_vars_bool.
    - apply truthy_false in Et. by rewrite Et. }
  assert (holds value (Ge (Var dev) (Minus (Var total) (Const target))) = true) as H2.
  { apply (accepted_holds (model b)); [done|]. by rewrite Hm. }
  assert (holds value (Ge (Var dev) (Minus (Const target) (Var total))) = true) as H3.
  { apply (accepted_holds (model b)); [done|]. by rewrite Hm. }
  cbn in H2, H3. apply bool_decide_eq_true in H2, H3.
  assert (0 ≤ value dev ≤ 1000) as Hd.
  { apply (accepted_domain (model b) value dev
             {| lb := 0; ub := 1000; name := "dev_" +:+ n |}); [done|]. by rewrite Hm. }
  exists total, dev. split_and!.
  - by rewrite Hm.
  - by rewrite Hm.
  - done.
  - lia.
  - lia.
  - rewrite Hm. cbn [objective Maximize]. rewrite objective_terms_eq.
    apply dict_get_elem in Hg.
    rewrite !elem_of_app. right; right; right; left.
    apply list_elem_of_fmap. by exists (n, dev).
Qed.

Lemma fairness_deviation_witness :
  ∃ total dev,
    variables (model (built_of ward)) !! total
    = Some {| lb := 0; ub := 1000; name := "tot_" +:+ "N1" |} ∧
    variables (model (built_of ward)) !! dev
    = Some {| lb := 0; ub := 1000; name := "dev_" +:+ "N1" |} ∧
    ward_value total = Z.of_nat (shifts_in_week (x (built_of ward)) ward_value "N1") ∧
    Z.abs (Z.of_nat (shifts_in_week (x (built_of ward)) ward_value "N1") - 1)
    ≤ ward_value dev ≤ 1000 ∧
    (- w_fairness (weights ward), dev) ∈ objective (model (built_of ward)).
Proof.
  apply (fairness_deviation ward (tables_of ward) (built_of ward) ward_value 1 "N1");
    compute_done.
Defined.

(** ** The value of the objective *)
Lemma weighted_app value l1 l2 :
  weighted value (l1 ++ l2) = weighted value l1 + weighted value l2.
Proof.
  unfold weighted. induction l1 as [|cv l1 IH]; cbn; [done|]. rewrite IH. lia.
Qed.

Lemma weighted_penalty {K} value (c : Z) (d : dict K nat) :
  weighted value ((λ kv, (c, kv.2)) <$> d) = c * dict_sum (λ _ v, value v) d.
Proof.
  unfold weighted, dict_sum. induction d as [|kv d IH]; cbn; [lia|]. rewrite IH. lia.
Qed.

Lemma weighted_reward {K} value (c : Z) (p : K → Z) (d : dict K nat) :
  weighted value
    (omap (λ kv, if bool_decide (p kv.1 ≠ 0) then Some (c * p kv.1, kv.2) else None) d)
  = c * dict_sum (λ k v, p k * value v) d.
Proof.
  unfold weighted, dict_sum. induction d as [|kv d IH]; cbn; [lia|].
  case_bool_decide as Hp; cbn.
  - rewrite IH. lia.
  - rewrite IH, Hp. lia.
Qed.

Lemma weighted_selected {K} value (c : Z) (P : K → bool) (d : dict K nat) :
  weighted value (omap (λ kv, if P kv.1 then Some (c, kv.2) else None) d)
  = c * dict_sum (λ k v, if P k then value v else 0) d.
Proof.
  unfold weighted, dict_sum. induction d as [|kv d IH]; cbn; [lia|].
  destruct (P kv.1); cbn; rewrite IH; lia.
Qed.

Lemma add_fairness_keys t target x m :
  let fair := fairness_dev (add_fairness t target x m) in
  NoDup (dict_keys fair) ∧
  ∀ n, n ∈ dict_keys fair ↔ is_Some target ∧ n ∈ nurse_ids t.
Proof.
  cbv zeta. unfold add_fairness. destruct target as [target|]; cbn.
  2:{ split; [constructor|]. intros n. split; [by intros ?%elem_of_nil|].
      by intros [[? [=]] _]. }
  assert (∀ l (s : fairness),
    let s' :=
      for_ l (λ n s,
        let '(total, model) := NewIntVar 0 1000 ("tot_" +:+ n) (fair_model s) in
        let vars_n := x_vars x (λ k, bool_decide (k.1.1.1 = n)) in
        let model :=
          Add (Eq (Var total) (if truthy vars_n then Sum vars_n else Const 0)) model in
        let '(dev, model) := NewIntVar 0 1000 ("dev_" +:+ n) model in
        let model := Add (Ge (Var dev) (Minus (Var total) (Const target))) model in
        let model := Add (Ge (Var dev) (Minus (Const target) (Var total))) model in
        {| fairness_dev := dict_set n dev (fairness_dev s); fair_model := model |}) s in
    NoDup (dict_keys (fairness_dev s)) →
    NoDup (dict_keys (fairness_dev s')) ∧
    ∀ n, n ∈ dict_keys (fairness_dev s') ↔ n ∈ dict_keys (fairness_dev s) ∨ n ∈ l) as H.
  { induction l as [|n0 l IH]; intros s; cbv zeta; intros Hnd.
    - split; [done|]. set_solver.
    - rewrite for_cons.
      match goal with |- context [for_ l ?body ?s0] =>
        destruct (IH s0) as [IH1 IH2] end.
      { cbn. by apply NoDup_dict_keys_set. }
      split; [done|]. intros n. rewrite IH2. cbv [NewIntVar]. cbn [fairness_dev].
      rewrite elem_of_dict_keys_set. set_solver. }
  destruct (H (nurse_ids t) {| fairness_dev := []; fair_model := m |}) as [H1 H2];
    [constructor|].
  split; [done|]. intros n. rewrite H2. cbn. split.
  - intros [?%elem_of_nil|?]; [done|]. split; [by eexists|done].
  - intros [_ ?]. by right.
Qed.

(** X10. The objective of the built model is the preference reward less the
    penalties: [w_pref] times the preference-weighted assignments, less
    [w_understaff] times the understaff slack, less [w_overstaff] times the
    overstaff slack when overstaffing is permitted, less [w_fairness] times one
    deviation per distinct nurse when a weekly target is given, less [w_weekend]
    times the assignments on a selected Saturday or Sunday when that weight is
    positive. *)
Theorem objective_composition (inp : inputs) (t : tables) (b : built) (value : nat → Z) :
  build inp t = Ok b →
  ∃ fair : dict string nat,
    NoDup (dict_keys fair) ∧
    (∀ n, n ∈ dict_keys fair ↔
          is_Some (target_shifts_per_nurse_week inp) ∧ n ∈ nurse_ids t) ∧
    objective_value (model b) value =
      w_pref (weights inp) * dict_sum (λ k v, pref_of t k * value v) (x b)
      - w_understaff (weights inp) * dict_sum (λ _ u, value u) (slack_under b)
      - (if allow_overstaff inp
         then w_overstaff (weights inp) * dict_sum (λ _ o, value o) (slack_over b)
         else 0)
      - w_fairness (weights inp) * dict_sum (λ _ dev, value dev) fair
      - (if bool_decide (w_weekend (weights inp) > 0)
         then w_weekend (weights inp)
              * dict_sum (λ k v, if weekend_key (days inp) k then value v else 0) (x b)
         else 0).
Proof.
  intros Hb. destruct (build_objective _ _ _ Hb) as [m_locks Hm]. cbv zeta in Hm.
  destruct (add_fairness_keys t (target_shifts_per_nurse_week inp) (x b) m_locks)
    as [Hnd Hk].
  eexists. split; [exact Hnd|]. split; [exact Hk|].
  change (objective_value (model b) value) with (weighted value (objective (model b))).
  rewrite Hm. cbn [objective Maximize]. rewrite objective_terms_eq, !weighted_app.
  rewrite (weighted_reward value (w_pref (weights inp)) (pref_of t)).
  rewrite !weighted_penalty.
  assert (weighted value
            (if allow_overstaff inp
             then (λ kv : key3 * nat, (- w_overstaff (weights inp), kv.2)) <$> slack_over b
             else [])
          = - (if allow_overstaff inp
               then w_overstaff (weights inp) * dict_sum (λ _ o, value o) (slack_over b)
               else 0)) as ->.
  { destruct (allow_overstaff inp); [rewrite weighted_penalty; lia|done]. }
  case_bool_decide.
  - rewrite (weighted_selected value _ (weekend_key (days inp))). lia.
  - change (weighted value []) with 0. lia.
Qed.

Lemma objective_composition_witness :
  ∃ fair : dict string nat,
    NoDup (dict_keys fair) ∧
    (∀ n, n ∈ dict_keys fair ↔
          is_Some (target_shifts_per_nurse_week ward) ∧ n ∈ nurse_ids (tables_of ward)) ∧
    objective_value (model (built_of ward)) ward_value =
      w_pref (weights ward)
      * dict_sum (λ k v, pref_of (tables_of ward) k * ward_value v) (x (built_of ward))
      - w_understaff (weights ward)
        * dict_sum (λ _ u, ward_value u) (slack_under (built_of ward))
      - (if allow_overstaff ward
         then w_overstaff (weights ward)
              * dict_sum (λ _ o, ward_value o) (slack_over (built_of ward))
         else 0)
      - w_fairness (weights ward) * dict_sum (λ _ dev, ward_value dev) fair
      - (if bool_decide (w_weekend (weights ward) > 0)
         then w_weekend (weights ward)
              * dict_sum (λ k v, if weekend_key (days ward) k then ward_value v else 0)
                  (x (built_of ward))
         else 0).
Proof.
  apply (objective_composition ward (tables_of ward) (built_of ward) ward_value).
  compute_done.
Defined.

(** ** Locks that are not active *)
Lemma add_locks_inactive t x m :
  Forall (λ item : key4 * Z, item.2 ≠ 1) (locks t) → add_locks t x m = Ok m.
Proof.
  unfold add_locks. induction 1 as [|[[[[d sh] rid] n] z] l Hz _ IH]; [done|].
  cbn in *. by rewrite bool_decide_eq_true_2.
Qed.

Lemma locks_lookup_inactive rows :
  Forall inactive_lock rows →
  ∃ l, locks_lookup rows = Ok l ∧ Forall (λ item : key4 * Z, item.2 ≠ 1) l.
Proof.
  intros Hrows. rewrite Forall_forall in Hrows.
  destruct (int_dict_total
              (λ r, (lock_day r, lock_shift r, lock_room_id r, lock_nurse_id r))
              (λ r, int_get 0 (locked r)) rows) as [l Hl].
  { intros r Hr. destruct (Hrows r Hr) as [->|(z & -> & _)]; by eexists. }
  exists l. split; [done|]. apply int_dict_Ok in Hl as [-> _].
  apply Forall_forall. intros [k z] (r & Hr & _ & <-)%dict_of_elem. cbn.
  destruct (Hrows r Hr) as [->|(z & -> & ?)]; cbn; [done|done].
Qed.

(** The lock table is the last one [normalize] reads. *)
Lemma normalize_locks inp :
  normalize inp
  = (t ← normalize (without_locks inp);
     l ← locks_lookup (locks_df inp);
     Ok (set_locks l t)).
Proof.
  unfold normalize. cbn [without_locks nurses_df rooms_df demand_df pref_df locks_df
                         days shifts].
  destruct (int_dict nurse_id
              (λ r, int_item "max_shifts_per_day" (max_shifts_per_day r)) (nurses_df inp))
    as [d1|e]; [|reflexivity].
  cbn [mbind result_bind].
  destruct (int_dict nurse_id
              (λ r, int_item "max_shifts_per_week" (max_shifts_per_week r)) (nurses_df inp))
    as [d2|e]; [|reflexivity].
  cbn [mbind result_bind].
  destruct (demand_rows (demand_df inp)) as [dem|e]; [|reflexivity].
  cbn [mbind result_bind].
  destruct (pref_lookup (pref_df inp)) as [p|e]; [|reflexivity].
  cbn [mbind result_bind].
  change (locks_lookup []) with (Ok ([] : dict key4 Z)). cbn [mbind result_bind].
  destruct (locks_lookup (locks_df inp)); reflexivity.
Qed.

Lemma build_set_locks inp t l :
  Forall (λ item : key4 * Z, item.2 ≠ 1) l →
  locks t = [] →
  build inp (set_locks l t) = build (without_locks inp) t.
Proof.
  intros Hl Ht.
  destruct (stage_rest (without_locks inp) t) as [m_rest|e] eqn:Hr.
  - assert (stage_rest inp (set_locks l t) = Ok m_rest) as Hr' by exact Hr.
    rewrite (build_intro _ _ _ Hr), (build_intro _ _ _ Hr').
    rewrite (add_locks_inactive (set_locks l t)) by done.
    rewrite (add_locks_inactive t) by (rewrite Ht; constructor).
    reflexivity.
  - assert (stage_rest inp (set_locks l t) = Err e) as Hr' by exact Hr.
    by rewrite (build_rest_Err _ _ _ Hr), (build_rest_Err _ _ _ Hr').
Qed.

(** X11. Lock rows whose flag is not 1 (a [locked] cell that is absent, read
    as 0, or any other integer) change nothing: the solve gives the result it
    gives for an empty lock table, and raises no lock error even when such a row
    names a nurse, room, shift or day that does not exist. *)
Theorem inactive_locks_ignored (inp : inputs) (solver : CpModel → response) :
  Forall inactive_lock (locks_df inp) →
  solve_schedule_ortools inp solver = solve_schedule_ortools (without_locks inp) solver.
Proof.
  intros (l & Hl & Hflags)%locks_lookup_inactive.
  unfold solve_schedule_ortools. rewrite normalize_locks, Hl.
  destruct (normalize (without_locks inp)) as [t|e] eqn:Hn; [|done].
  cbn [mbind result_bind].
  assert (locks t = []) as Ht.
  { apply normalize_Ok in Hn. destruct Hn as (_ & _ & _ & _ & _ & _ & _ & _ & _ & _ & H).
    cbn in H. by injection H. }
  rewrite (build_set_locks inp t l Hflags Ht).
  destruct (build (without_locks inp) t) as [b|e]; [|done].
  reflexivity.
Qed.

Lemma inactive_locks_ignored_witness :
  solve_schedule_ortools ward_idle_locks (fixed_solver OPTIMAL ward_value (-6))
  = solve_schedule_ortools (without_locks ward_idle_locks)
      (fixed_solver OPTIMAL ward_value (-6)).
Proof.
  apply (inactive_locks_ignored ward_idle_locks (fixed_solver OPTIMAL ward_value (-6))).
  apply Forall_cons_2; [right; by exists 0|].
  apply Forall_cons_2; [by left|].
  apply Forall_cons_2; [right; by exists 2|].
  apply Forall_nil_2.
Defined.

(** ** The single-shift scheduler *)

(** A dictionary filled from rows with distinct keys lists the rows in order. *)
Lemma dict_of_fresh {R K V} `{EqDecision K} (key : R → K) (val : R → V) rows :
  NoDup (key <$> rows) → dict_of key val rows = (λ r, (key r, val r)) <$> rows.
Proof.
  induction rows as [|r rows IH] using rev_ind; [done|].
  rewrite fmap_app, NoDup_app. intros (Hnd & Hr & _).
  unfold dict_of in *. rewrite for_app, IH by done. cbn.
  rewrite dict_set_fresh, fmap_app; [done|].
  unfold dict_keys. rewrite <-list_fmap_compose. intros Hin.
  apply (Hr (key r)); [done|]. cbn. left.
Qed.

Lemma NoDup_fmap_eq {A B} (f : A → B) (l : list A) a a' :
  NoDup (f <$> l) → a ∈ l → a' ∈ l → f a = f a' → a = a'.
Proof.
  induction l as [|a0 l IH]; [by intros _ ?%elem_of_nil|].
  rewrite fmap_cons, NoDup_cons. intros [Hf Hnd] Ha Ha' E.
  apply elem_of_cons in Ha as [->|Ha], Ha' as [->|Ha'].
  - done.
  - destruct Hf. rewrite E. by apply list_elem_of_fmap_2.
  - destruct Hf. rewrite <-E. by apply list_elem_of_fmap_2.
  - by apply IH.
Qed.

Section csp.
Import scheduler_csp.
Implicit Types (nurses : dict string nurse) (rooms : list room) (r : room).

Lemma elem_of_room_domain nurses r nid :
  nid ∈ room_domain nurses r ↔ ∃ n, (nid, n) ∈ nurses ∧ eligible n r.
Proof.
  unfold room_domain. rewrite list_elem_of_fmap. split.
  - intros ([nid' n] & -> & [? ?]%list_elem_of_filter). by exists n.
  - intros (n & Hin & He). exists (nid, n). split; [done|].
    by apply list_elem_of_filter.
Qed.

Lemma room_domain_nil nurses r :
  room_domain nurses r = [] ↔ ∀ nid n, (nid, n) ∈ nurses → ¬ eligible n r.
Proof.
  split.
  - intros E nid n Hin He.
    assert (nid ∈ room_domain nurses r) as H by (apply elem_of_room_domain; eauto).
    rewrite E in H. by apply elem_of_nil in H.
  - intros H. destruct (room_domain nurses r) as [|nid l] eqn:E; [done|].
    assert (nid ∈ room_domain nurses r) as Hin by (rewrite E; left).
    apply elem_of_room_domain in Hin as (n & ? & ?). by destruct (H nid n).
Qed.

(** The inner loop of [build_domains]. *)
Lemma domain_loop nurses r acc :
  for_ nurses (λ '(nid, n) domain,
    if PrimFloat.ltb (max_daily_hours n) SHIFT_HOURS then domain
    else if negb (bool_decide (required_qualifications r ⊆ qualifications n)) then domain
    else domain ++ [nid]) acc
  = acc ++ room_domain nurses r.
Proof.
  unfold room_domain, dict. revert acc.
  induction nurses as [|[nid n] nurses IH]; intros acc; [by rewrite app_nil_r|].
  rewrite for_cons, IH, filter_cons. cbn [snd].
  destruct (decide (eligible n r)) as [[Hh Hq]|Hn].
  - rewrite Hh, bool_decide_eq_true_2 by done. cbn [negb].
    by rewrite fmap_cons, <-app_assoc.
  - destruct (PrimFloat.ltb (max_daily_hours n) SHIFT_HOURS) eqn:Eh; [done|].
    rewrite bool_decide_eq_false_2; [done|]. intros ?. by apply Hn.
Qed.

Lemma build_domains_dict_of nurses rooms :
  build_domains nurses rooms = dict_of room_id (room_domain nurses) rooms.
Proof.
  unfold build_domains, dict_of. apply for_ext. intros r d _. cbv zeta.
  by rewrite domain_loop.
Qed.

(** The feasibility check of [solve_schedule]. *)
Lemma check_loop (l : dict string (list string)) :
  (Forall (λ kd, kd.2 ≠ []) l ∧
   for_M l (λ '(rid, domain) _,
     if negb (truthy domain) then Err (RuntimeError (no_nurse_message rid))
     else Ok ()) () = Ok ()) ∨
  (∃ l1 rid l2,
     l = l1 ++ (rid, []) :: l2 ∧ Forall (λ kd, kd.2 ≠ []) l1 ∧
     for_M l (λ '(rid, domain) _,
       if negb (truthy domain) then Err (RuntimeError (no_nurse_message rid))
       else Ok ()) () = Err (RuntimeError (no_nurse_message rid))).
Proof.
  induction l as [|[rid dom] l IH]; [left; by split|].
  destruct dom as [|nid dom].
  - right. exists [], rid, l. by split_and!.
  - destruct IH as [[Hl Hf]|(l1 & rid' & l2 & -> & Hl1 & Hf)].
    + left. split; [by constructor|]. exact Hf.
    + right. exists ((rid, nid :: dom) :: l1), rid', l2.
      split_and!; [done|by constructor|exact Hf].
Qed.

(** [addVariable] never raises on the entries of a dictionary whose domains
    are not empty. *)
Lemma add_variables (l : dict string (list string)) p :
  NoDup (dict_keys l) →
  (∀ k, k ∈ dict_keys l → k ∉ dict_keys (problem_variables p)) →
  Forall (λ kd, kd.2 ≠ []) l →
  for_M l (λ '(rid, domain) problem, addVariable rid domain problem) p
  = Ok {| problem_variables := problem_variables p ++ l;
          problem_constraints := problem_constraints p |}.
Proof.
  revert p. induction l as [|[rid dom] l IH]; intros p Hnd Hfresh Hne.
  - rewrite app_nil_r. by destruct p.
  - apply NoDup_cons in Hnd as [Hrid Hnd]. apply Forall_cons in Hne as [Hdom Hne].
    assert (addVariable rid dom p
            = Ok {| problem_variables := problem_variables p ++ [(rid, dom)];
                    problem_constraints := problem_constraints p |}) as E.
    { unfold addVariable.
      rewrite bool_decide_eq_false_2 by (apply Hfresh; left).
      destruct dom as [|nid dom]; [done|]. cbn [truthy negb].
      by rewrite dict_set_fresh by (apply Hfresh; left). }
    cbn [for_M]. rewrite E. cbn [mbind result_bind].
    rewrite IH; cbn [problem_variables problem_constraints].
    + by rewrite <-app_assoc.
    + done.
    + intros k Hk. unfold dict_keys. rewrite fmap_app, elem_of_app. intros [Hin|Hin].
      * apply (Hfresh k); [by right|done].
      * apply list_elem_of_singleton in Hin. cbn in Hin. by subst.
    + done.
Qed.

(** The two ways [build_problem] ends. *)
Lemma build_problem_cases nurses rooms :
  let domains := build_domains nurses rooms in
  (Forall (λ kd, kd.2 ≠ []) domains ∧
   build_problem nurses rooms
   = Ok {| problem_variables := domains;
           problem_constraints := [(AllDifferentConstraint, room_id <$> rooms)] |}) ∨
  (∃ l1 rid l2,
     domains = l1 ++ (rid, []) :: l2 ∧ Forall (λ kd, kd.2 ≠ []) l1 ∧
     build_problem nurses rooms = Err (RuntimeError (no_nurse_message rid))).
Proof.
  cbv zeta. unfold build_problem. cbv zeta.
  destruct (check_loop (build_domains nurses rooms))
    as [[Hne ->]|(l1 & rid & l2 & E & Hl1 & ->)].
  - left. split; [done|]. cbn [mbind result_bind].
    rewrite add_variables; [done| |by intros ? _ ?%elem_of_nil|done].
    rewrite build_domains_dict_of. apply dict_of_NoDup.
  - right. by exists l1, rid, l2.
Qed.

End csp.

(** X12. A schedule that [solve_schedule] returns, from a backend whose
    solutions are solutions of the problem, gives every room one nurse whose
    hours are not below [SHIFT_HOURS] and whose qualifications cover the room's
    requirements, and gives rooms with different ids different nurses; the
    room ids are then distinct. *)
Theorem csp_schedule_valid (nurses : dict string scheduler_csp.nurse)
    (rooms : list scheduler_csp.room)
    (getSolutions : scheduler_csp.Problem → list (dict string string))
    (schedule : dict string string) :
  scheduler_csp.solve_schedule nurses rooms getSolutions = Ok schedule →
  scheduler_csp.sound getSolutions nurses rooms →
  NoDup (scheduler_csp.room_id <$> rooms) ∧
  (∀ r, r ∈ rooms →
        ∃ nid n, dict_get (scheduler_csp.room_id r) schedule = Some nid ∧
                 (nid, n) ∈ nurses ∧ scheduler_csp.eligible n r) ∧
  (∀ r r', r ∈ rooms → r' ∈ rooms →
           scheduler_csp.room_id r ≠ scheduler_csp.room_id r' →
           dict_get (scheduler_csp.room_id r) schedule
           ≠ dict_get (scheduler_csp.room_id r') schedule).
Proof.
  unfold scheduler_csp.solve_schedule. intros (p & Hp & Hs)%bind_Ok Hsound.
  cbv zeta in Hs. destruct (getSolutions p) as [|s rest] eqn:Hg; [done|].
  injection Hs as ->.
  pose proof (Hsound p Hp) as Hsol. rewrite Hg in Hsol.
  apply Forall_cons in Hsol as [[Hvars Hcons] _].
  destruct (build_problem_cases nurses rooms) as [[_ E]|(l1 & rid & l2 & _ & _ & E)];
    rewrite Hp in E; [|done].
  injection E as ->. cbn in Hvars, Hcons.
  apply Forall_cons in Hcons as [Hdiff _]. cbn in Hdiff.
  assert (NoDup (scheduler_csp.room_id <$> rooms)) as Hnd.
  { apply (NoDup_fmap_1 (λ v, dict_get v schedule)). by rewrite <-list_fmap_compose in Hdiff |- *. }
  split_and!; [done| |].
  - intros r Hr. rewrite build_domains_dict_of, dict_of_fresh in Hvars by done.
    rewrite Forall_forall in Hvars.
    destruct (Hvars (scheduler_csp.room_id r, scheduler_csp.room_domain nurses r))
      as (nid & Hget & Hin).
    { apply list_elem_of_fmap. by exists r. }
    cbn in Hget, Hin. apply elem_of_room_domain in Hin as (n & ? & ?).
    by exists nid, n.
  - intros r r' Hr Hr' Hne E. apply Hne.
    apply (NoDup_fmap_eq (λ v, dict_get v schedule) (scheduler_csp.room_id <$> rooms));
      [done|by apply list_elem_of_fmap_2..|done].
Qed.

Lemma csp_schedule_valid_witness :
  NoDup (scheduler_csp.room_id <$> scheduler_csp.wing) ∧
  (∀ r, r ∈ scheduler_csp.wing →
        ∃ nid n, dict_get (scheduler_csp.room_id r) scheduler_csp.wing_schedule = Some nid ∧
                 (nid, n) ∈ scheduler_csp.staff ∧ scheduler_csp.eligible n r) ∧
  (∀ r r', r ∈ scheduler_csp.wing → r' ∈ scheduler_csp.wing →
           scheduler_csp.room_id r ≠ scheduler_csp.room_id r' →
           dict_get (scheduler_csp.room_id r) scheduler_csp.wing_schedule
           ≠ dict_get (scheduler_csp.room_id r') scheduler_csp.wing_schedule).
Proof.
  apply (csp_schedule_valid scheduler_csp.staff scheduler_csp.wing
           (λ _, [scheduler_csp.wing_schedule]) scheduler_csp.wing_schedule).
  - vm_compute. reflexivity.
  - intros p Hp. vm_compute in Hp. injection Hp as <-.
    apply Forall_cons_2; [|apply Forall_nil_2]. split.
    + apply Forall_cons_2; [exists "N1"; split; [reflexivity|compute_done]|].
      apply Forall_cons_2; [exists "N3"; split; [reflexivity|compute_done]|].
      apply Forall_nil_2.
    + apply Forall_cons_2; [compute_done|apply Forall_nil_2].
Defined.

Section csp_errors.
Import scheduler_csp.
Implicit Types (nurses : dict string nurse) (rooms : list room) (r : room).

Lemma check_pass (l : dict string (list string)) :
  Forall (λ kd, kd.2 ≠ []) l →
  for_M l (λ '(rid, domain) _,
    if negb (truthy domain) then Err (RuntimeError (no_nurse_message rid))
    else Ok ()) () = Ok ().
Proof.
  induction 1 as [|[rid dom] l Hdom _ IH]; [done|].
  destruct dom as [|nid dom]; [done|]. exact IH.
Qed.

Lemma room_domain_Forall nurses r :
  Forall (λ kn, ¬ eligible kn.2 r) nurses → room_domain nurses r = [].
Proof.
  rewrite Forall_forall. intros H. apply room_domain_nil.
  intros nid n Hin. apply (H (nid, n) Hin).
Qed.

Lemma room_domain_Exists nurses r :
  Exists (λ kn, eligible kn.2 r) nurses → room_domain nurses r ≠ [].
Proof.
  rewrite Exists_exists. intros ([nid n] & Hin & He) E.
  by apply (proj1 (room_domain_nil nurses r) E nid n).
Qed.

Lemma build_domains_with_min_nurses f nurses rooms :
  build_domains nurses (with_min_nurses f <$> rooms) = build_domains nurses rooms.
Proof.
  unfold build_domains. generalize ([] : dict string (list string)).
  induction rooms as [|r rooms IH]; intros d; [done|].
  rewrite fmap_cons, !for_cons. apply IH.
Qed.

End csp_errors.

(** X13. With distinct room ids, [solve_schedule] raises the error that names
    the first room of the list for which no nurse has the hours and the
    qualifications, whatever the backend and whatever rooms follow: the backend
    is not consulted. *)
Theorem csp_first_uncovered_room (nurses : dict string scheduler_csp.nurse)
    (l1 l2 : list scheduler_csp.room) (r : scheduler_csp.room)
    (getSolutions : scheduler_csp.Problem → list (dict string string)) :
  NoDup (scheduler_csp.room_id <$> l1 ++ r :: l2) →
  Forall (λ r0, Exists (λ kn, scheduler_csp.eligible kn.2 r0) nurses) l1 →
  Forall (λ kn, ¬ scheduler_csp.eligible kn.2 r) nurses →
  scheduler_csp.solve_schedule nurses (l1 ++ r :: l2) getSolutions
  = Err (RuntimeError (scheduler_csp.no_nurse_message (scheduler_csp.room_id r))).
Proof.
  intros Hnd Hl1 Hr.
  unfold scheduler_csp.solve_schedule, scheduler_csp.build_problem. cbv zeta.
  rewrite build_domains_dict_of, dict_of_fresh by done.
  rewrite (fmap_app (λ r0, (scheduler_csp.room_id r0, scheduler_csp.room_domain nurses r0))).
  rewrite fmap_cons, (for_M_app _ _ _ ()), check_pass.
  - cbn [mbind result_bind for_M]. by rewrite (room_domain_Forall _ _ Hr).
  - apply Forall_fmap. eapply Forall_impl; [exact Hl1|].
    intros r0 H. by apply room_domain_Exists.
Qed.

Lemma csp_first_uncovered_room_witness :
  scheduler_csp.solve_schedule scheduler_csp.staff scheduler_csp.wing_uncovered (λ _, [])
  = Err (RuntimeError "No qualified nurses available for room R2.").
Proof.
  apply (csp_first_uncovered_room scheduler_csp.staff
           [scheduler_csp.unit_room "R1" "ICU" 1] [scheduler_csp.unit_room "R3" "NICU" 1]
           (scheduler_csp.unit_room "R2" "PACU" 1) (λ _, [])); compute_done.
Defined.

(** X14. [solve_schedule] ends in one of three ways: it returns the first
    solution the backend lists for the problem; it raises "No feasible schedule
    found" when the backend lists none; or it raises the error that names a
    room no nurse is eligible for.  Adding the variables never raises. *)
Theorem csp_outcomes (nurses : dict string scheduler_csp.nurse)
    (rooms : list scheduler_csp.room)
    (getSolutions : scheduler_csp.Problem → list (dict string string)) :
  (∃ p schedule rest,
     scheduler_csp.build_problem nurses rooms = Ok p ∧
     getSolutions p = schedule :: rest ∧
     scheduler_csp.solve_schedule nurses rooms getSolutions = Ok schedule) ∨
  (∃ p,
     scheduler_csp.build_problem nurses rooms = Ok p ∧ getSolutions p = [] ∧
     scheduler_csp.solve_schedule nurses rooms getSolutions
     = Err (RuntimeError "No feasible schedule found given current constraints.")) ∨
  (∃ r,
     r ∈ rooms ∧
     (∀ nid n, (nid, n) ∈ nurses → ¬ scheduler_csp.eligible n r) ∧
     scheduler_csp.solve_schedule nurses rooms getSolutions
     = Err (RuntimeError (scheduler_csp.no_nurse_message (scheduler_csp.room_id r)))).
Proof.
  unfold scheduler_csp.solve_schedule.
  destruct (build_problem_cases nurses rooms) as [[_ E]|(l1 & rid & l2 & Hd & _ & E)];
    rewrite E; cbn [mbind result_bind].
  - destruct (getSolutions _) as [|schedule rest] eqn:Hg.
    + right; left. eexists. by split_and!.
    + left. eexists _, schedule, rest. by split_and!.
  - right; right.
    assert ((rid, []) ∈ scheduler_csp.build_domains nurses rooms) as Hin
      by (rewrite Hd; set_solver).
    rewrite build_domains_dict_of in Hin.
    apply dict_of_elem in Hin as (r & Hr & <- & Hdom).
    exists r. split_and!; [done| |done]. exact (proj1 (room_domain_nil nurses r) Hdom).
Qed.

(** X15. [min_nurses] plays no part: with any other values in that field the
    problem and the result are the same, so a room gets one nurse whatever
    number it asks for. *)
Theorem csp_min_nurses_ignored (f : scheduler_csp.room → Z)
    (nurses : dict string scheduler_csp.nurse) (rooms : list scheduler_csp.room)
    (getSolutions : scheduler_csp.Problem → list (dict string string)) :
  scheduler_csp.solve_schedule nurses (scheduler_csp.with_min_nurses f <$> rooms)
    getSolutions
  = scheduler_csp.solve_schedule nurses rooms getSolutions.
Proof.
  unfold scheduler_csp.solve_schedule, scheduler_csp.build_problem. cbv zeta.
  rewrite build_domains_with_min_nurses, <-list_fmap_compose.
  by rewrite (list_fmap_ext (scheduler_csp.room_id ∘ scheduler_csp.with_min_nurses f)
                scheduler_csp.room_id rooms) by done.
Qed.
